(** * FridgeChef: the image-to-structured-data pipeline

    A shallow embedding of the two Convex backend modules of the
    application, [convex/fridge.ts] and [convex/recipes.ts], together with
    the parts of the JavaScript runtime and of the Convex platform their
    handlers rely on.

    - [Js]      strings as sequences of UTF-16 code units, the string
                methods the handlers call, and the values [JSON.parse]
                can return;
    - [Convex]  exceptions, the document store, argument validators;
    - [Fridge]  [convex/fridge.ts];
    - [Recipes] [convex/recipes.ts];
    - [App]     the deployment: both modules, their scheduled jobs, and
                the operations a client or the scheduler can trigger. *)

From Stdlib Require Import ZArith NArith QArith String Ascii DecimalString Lia.
From stdpp Require Import base option list sorting gmap.

Set Default Proof Using "Type".
Set Warnings "-register-all".

(** ** JavaScript strings and values *)

Module Js.
Local Open Scope N_scope.

(** A string is a sequence of UTF-16 code units; [length] is the [.length]
    of the source. *)
Abbreviation jsstring := (list N).

(** A literal of ASCII characters. *)
Definition lit (s : string) : jsstring :=
  N_of_ascii <$> list_ascii_of_string s.

Definition LF : N := 10.        (* '\n' *)
Definition bullet : N := 8226.  (* U+2022 *)
Definition dash : N := 45.      (* '-' *)
Definition star : N := 42.      (* '*' *)
Definition dot : N := 46.       (* '.' *)
Definition colon : N := 58.     (* ':' *)

(** [\s] of a regular expression and the characters [trim] removes:
    WhiteSpace and LineTerminator of ECMA-262. *)
Definition is_space (c : N) : bool :=
  ((9 <=? c) && (c <=? 13)) || (c =? 32) || (c =? 160) || (c =? 5760)
  || ((8192 <=? c) && (c <=? 8202)) || (c =? 8232) || (c =? 8233)
  || (c =? 8239) || (c =? 8287) || (c =? 12288) || (c =? 65279).

(** [\d] *)
Definition is_digit (c : N) : bool := (48 <=? c) && (c <=? 57).

Fixpoint drop_while {A : Type} (p : A → bool) (l : list A) : list A :=
  match l with
  | [] => []
  | x :: l' => if p x then drop_while p l' else l
  end.

Definition trimStart (s : jsstring) : jsstring := drop_while is_space s.
Definition trimEnd (s : jsstring) : jsstring :=
  reverse (drop_while is_space (reverse s)).
Definition trim (s : jsstring) : jsstring := trimEnd (trimStart s).

(** [s.split(sep)] for a separator of one code unit: never empty, and
    [split sep [] = [[]]]. *)
Fixpoint split (sep : N) (s : jsstring) : list jsstring :=
  match s with
  | [] => [[]]
  | c :: s' =>
      if c =? sep then [] :: split sep s'
      else match split sep s' with
           | l :: ls => (c :: l) :: ls
           | [] => [[c]]
           end
  end.

(** [ls.join(sep)] *)
Fixpoint join (sep : N) (ls : list jsstring) : jsstring :=
  match ls with
  | [] => []
  | [l] => l
  | l :: ls' => l ++ sep :: join sep ls'
  end.

Fixpoint startsWith (s p : jsstring) {struct p} : bool :=
  match p, s with
  | [], _ => true
  | _ :: _, [] => false
  | a :: p', b :: s' => (a =? b) && startsWith s' p'
  end.

Fixpoint includes (s sub : jsstring) : bool :=
  startsWith s sub ||
  match s with
  | [] => false
  | _ :: s' => includes s' sub
  end.

(** [toLowerCase]: the letters A-Z go to a-z. Outside ASCII the two code
    points whose lower case contains an ASCII letter are mapped as Unicode
    does (U+0130 to "i" followed by U+0307, the Kelvin sign U+212A to "k");
    every other code unit is kept, its lower case has no ASCII letter and
    so is not seen by the ASCII keyword searches of the handlers. *)
Definition lower_unit (c : N) : jsstring :=
  if (65 <=? c) && (c <=? 90) then [c + 32]
  else if c =? 304 then [105; 775]
  else if c =? 8490 then [107]
  else [c].

Definition toLowerCase (s : jsstring) : jsstring := s ≫= lower_unit.

(** [s.slice(0, n)] and [a.slice(0, n)] *)
Definition slice0 {A} (n : nat) (l : list A) : list A := take n l.

(** JavaScript truthiness of a string, and of a string-or-null. *)
Definition truthy (s : jsstring) : bool :=
  match s with [] => false | _ => true end.

Definition truthy_opt (s : option jsstring) : bool :=
  match s with Some s => truthy s | None => false end.

(** The values [JSON.parse] can return. The number carried by [Num] stands
    for the parsed double; the handlers only ever compare one with 0. *)
Inductive value :=
| Null
| Bool (b : bool)
| Num (x : Q)
| Str (s : jsstring)
| Arr (xs : list value)
| Obj (fields : list (jsstring * value)).

(** Own properties of an object, in insertion order. *)
Fixpoint obj_get (k : jsstring) (fs : list (jsstring * value)) : option value :=
  match fs with
  | [] => None
  | (k', v) :: fs' => if decide (k' = k) then Some v else obj_get k fs'
  end.

Fixpoint obj_set (k : jsstring) (v : value) (fs : list (jsstring * value))
  : list (jsstring * value) :=
  match fs with
  | [] => [(k, v)]
  | (k', v') :: fs' =>
      if decide (k' = k) then (k, v) :: fs' else (k', v') :: obj_set k v fs'
  end.

End Js.

(** ** The Convex platform, as the handlers see it *)

Module Convex.
Import Js.

(** What a handler can throw. *)
Inductive exn :=
| Error (msg : string)       (* throw new Error(msg) *)
| TypeError                  (* property of null or undefined, call of a non-function *)
| SyntaxError                (* JSON.parse *)
| RequestFailed              (* a rejected call of the inference client *)
| ArgumentValidationError    (* arguments refused by a function's validators *)
| DocumentNotFound.          (* db.patch or db.delete of an id with no document *)

Inductive result (A : Type) :=
| Ok (a : A)
| Throw (e : exn).
Arguments Ok {A} a.
Arguments Throw {A} e.

#[global] Instance result_ret : MRet result := λ A a, Ok a.
#[global] Instance result_bind : MBind result := λ A B f m,
  match m with
  | Ok a => f a
  | Throw e => Throw e
  end.

(** [try { body } catch (e) { handler }] *)
Definition try_catch {A} (body : result A) (handler : exn → result A) : result A :=
  match body with
  | Ok a => Ok a
  | Throw e => handler e
  end.

Abbreviation Id := nat.
Abbreviation UserId := nat.
Abbreviation StorageId := nat.

(** [v.union(v.literal("processing"), v.literal("completed"), v.literal("failed"))] *)
Inductive Status := processing | completed | failed.

#[global] Instance Status_eq_dec : EqDecision Status.
Proof. solve_decision. Defined.

Definition terminal (s : Status) : bool :=
  match s with processing => false | _ => true end.

(** A stored document: the fields of the schema and the system field
    [_creationTime]; the [_id] is its key in the table. *)
Record document (D : Type) := Document {
  _creationTime : nat;
  fields : D
}.
Arguments Document {D} _ _.
Arguments _creationTime {D} _.
Arguments fields {D} _.

(** A table: its documents by id, and the counter ids and creation times
    are drawn from, so that neither is ever used twice. *)
Record table (D : Type) := Table {
  docs : gmap Id (document D);
  counter : nat
}.
Arguments Table {D} _ _.
Arguments docs {D} _.
Arguments counter {D} _.

Section Database.
Context {D : Type}.

Definition empty_table : table D := Table ∅ 0.

(** [ctx.db.insert(table, fields)] *)
Definition db_insert (t : table D) (d : D) : table D * Id :=
  let id := counter t in
  (Table (<[id := Document (counter t) d]> (docs t)) (S (counter t)), id).

(** [ctx.db.get(id)] *)
Definition db_get (t : table D) (id : Id) : option (document D) :=
  docs t !! id.

(** [ctx.db.patch(id, partial)]: [upd] overwrites the fields of
    [partial]; throws when the id has no document. *)
Definition db_patch (t : table D) (id : Id) (upd : D → D) : result (table D) :=
  match docs t !! id with
  | Some d => Ok (Table (<[id := Document (_creationTime d) (upd (fields d))]> (docs t)) (counter t))
  | None => Throw DocumentNotFound
  end.

(** [ctx.db.delete(id)] *)
Definition db_delete (t : table D) (id : Id) : result (table D) :=
  match docs t !! id with
  | Some _ => Ok (Table (delete id (docs t)) (counter t))
  | None => Throw DocumentNotFound
  end.

(** The order of the index [by_user] within one user: by
    [_creationTime], then by [_id]. [newer a b]: [a] comes no later than
    [b] under [.order("desc")]. *)
Definition newer (a b : Id * document D) : Prop :=
  _creationTime b.2 < _creationTime a.2
  ∨ (_creationTime b.2 = _creationTime a.2 ∧ b.1 ≤ a.1).

#[global] Instance newer_dec a b : Decision (newer a b).
Proof. unfold newer. apply _. Defined.

(** [ctx.db.query(table).withIndex("by_user", q => q.eq("userId", u))
    .order("desc")]: every document of the user, newest first. *)
Definition by_user_desc (owner : D → UserId) (t : table D) (u : UserId)
    : list (Id * document D) :=
  merge_sort newer
    (List.filter (λ kd, bool_decide (owner (fields kd.2) = u))
                 (map_to_list (docs t))).

(** [... .take(n)] *)
Definition query_by_user_desc (owner : D → UserId) (t : table D)
    (u : UserId) (n : nat) : list (Id * document D) :=
  take n (by_user_desc owner t u).
End Database.

(** [v.string()], [v.array(v.string())], [v.optional(v.string())] on a
    value that came out of [JSON.parse] or of an object literal. *)
Definition as_string (v : value) : option jsstring :=
  match v with Str s => Some s | _ => None end.

Definition as_string_array (v : value) : option (list jsstring) :=
  match v with Arr xs => mapM as_string xs | _ => None end.

(** An optional field: absent, or present with a value of the type. *)
Definition as_optional_string (v : option value) : option (option jsstring) :=
  match v with
  | None => Some None
  | Some v => Some <$> as_string v
  end.

(** [v.object({...})] refuses a field it does not declare. *)
Definition only_fields (declared : list jsstring) (fs : list (jsstring * value)) : bool :=
  forallb (λ kv, bool_decide (kv.1 ∈ declared)) fs.

(** [x.length] for a value [x] ([None] is [undefined]). *)
Definition length_of (v : value) : result (option value) :=
  match v with
  | Null => Throw TypeError
  | Arr xs => Ok (Some (Num (inject_Z (Z.of_nat (length xs)))))
  | Str s => Ok (Some (Num (inject_Z (Z.of_nat (length s)))))
  | Obj fs => Ok (obj_get (lit "length") fs)
  | Bool _ | Num _ => Ok None
  end.

(** [x === 0] *)
Definition is_zero (v : option value) : bool :=
  match v with
  | Some (Num x) => Qeq_bool x 0
  | _ => false
  end.

(** A reply of [openai.chat.completions.create]: [choices[0]] may be
    missing, and [choices[0].message.content] is a string or [null]. *)
Inductive completion :=
| NoChoice
| Message (content : option jsstring).

(** [response.choices[0].message.content] *)
Definition content_of (r : completion) : result (option jsstring) :=
  match r with
  | NoChoice => Throw TypeError
  | Message c => Ok c
  end.

End Convex.

(** ** convex/fridge.ts *)

Module Fridge.
Import Js Convex.

(** An element of the field [recipes] of the schema. *)
Module Recipe.
Record t := mk {
  name : jsstring;
  ingredients : list jsstring;
  instructions : list jsstring;
  cookingTime : jsstring;
  difficulty : jsstring
}.
End Recipe.

(** A document of the table [fridgeAnalyses]. *)
Record Analysis := mkAnalysis {
  userId : UserId;
  imageId : StorageId;
  ingredients : list jsstring;
  recipes : list Recipe.t;
  analysisStatus : Status
}.

(** The arguments of a scheduled [processImage]. *)
Record Job := mkJob {
  analysisId : Id;
  storageId : StorageId
}.

(** What the handlers of this module read and write: the table and the
    scheduler's queue. *)
Record Backend := mkBackend {
  fridgeAnalyses : table Analysis;
  scheduled : list Job
}.

(** What a run of [processImage] gets from outside: file storage,
    [JSON.parse] ([None] when it throws), and the replies of the two
    inference calls, the first to the prompt with the image URL, the second
    to the prompt built from the ingredients. *)
Record World := mkWorld {
  getUrl : StorageId → option jsstring;
  JSON_parse : jsstring → option value;
  ingredients_completion : jsstring → result completion;
  recipes_completion : value → result completion
}.

Definition generateUploadUrl (auth : option UserId) (uploadUrl : jsstring)
    (st : Backend) : result (Backend * jsstring) :=
  match auth with
  | None => Throw (Error "Not authenticated")
  | Some _ => Ok (st, uploadUrl)
  end.

Definition analyzeImage (auth : option UserId) (storage_id : StorageId)
    (st : Backend) : result (Backend * Id) :=
  match auth with
  | None => Throw (Error "Not authenticated")
  | Some user =>
      let '(tbl, analysis_id) :=
        db_insert (fridgeAnalyses st)
          (mkAnalysis user storage_id [] [] processing) in
      Ok (mkBackend tbl (scheduled st ++ [mkJob analysis_id storage_id]),
          analysis_id)
  end.

(** [line.replace(/^[-*•]\s*/, '')] *)
Definition is_bullet (c : N) : bool :=
  (c =? dash)%N || (c =? star)%N || (c =? bullet)%N.

Definition strip_bullet (line : jsstring) : jsstring :=
  match line with
  | c :: rest => if is_bullet c then drop_while is_space rest else line
  | [] => []
  end.

(** The [catch] branch of the first parse:
    [content.split('\n').map(...).filter(item => item.length > 0).slice(0, 10)] *)
Definition fallback_ingredients (content : jsstring) : list jsstring :=
  slice0 10
    (List.filter (λ item, bool_decide (0 < length item))
       ((λ line, trim (strip_bullet line)) <$> split LF content)).

(** [let ingredients = []; try { ... JSON.parse(content) } catch (e) { ... }] *)
Definition parse_ingredients (w : World) (response : completion) : result value :=
  try_catch
    (content ← content_of response;
     if truthy_opt content
     then match JSON_parse w (default [] content) with
          | Some v => Ok v
          | None => Throw SyntaxError
          end
     else Ok (Arr []))
    (λ _,
     content ← content_of response;
     Ok (Arr (Str <$> fallback_ingredients (default [] content)))).

(** [ingredients.join(", ")]: only an array has the method. *)
Definition join_check (v : value) : result unit :=
  match v with
  | Arr _ => Ok tt
  | _ => Throw TypeError
  end.

(** [ingredients.slice(0, n)] *)
Definition value_slice0 (n : nat) (v : value) : result value :=
  match v with
  | Arr xs => Ok (Arr (slice0 n xs))
  | Str s => Ok (Str (slice0 n s))
  | _ => Throw TypeError
  end.

Definition fallback_instructions : list jsstring :=
  [lit "Heat oil in pan"; lit "Add ingredients";
   lit "Stir fry for 5-7 minutes"; lit "Season and serve"].

(** The object literal of the [catch] branch of the second parse. *)
Definition fallback_recipe (first_ingredients : value) : value :=
  Obj [(lit "name", Str (lit "Simple Stir Fry"));
       (lit "ingredients", first_ingredients);
       (lit "instructions", Arr (Str <$> fallback_instructions));
       (lit "cookingTime", Str (lit "15 minutes"));
       (lit "difficulty", Str (lit "Easy"))].

(** [let recipes = []; try { ... JSON.parse(content) } catch (e) { recipes = [...] }] *)
Definition parse_recipes (w : World) (ingredients : value)
    (response : completion) : result value :=
  try_catch
    (content ← content_of response;
     if truthy_opt content
     then match JSON_parse w (default [] content) with
          | Some v => Ok v
          | None => Throw SyntaxError
          end
     else Ok (Arr []))
    (λ _,
     first ← value_slice0 4 ingredients;
     Ok (Arr [fallback_recipe first])).

(** The validator of one element of the argument [recipes]. *)
Definition recipe_fields : list jsstring :=
  [lit "name"; lit "ingredients"; lit "instructions";
   lit "cookingTime"; lit "difficulty"].

Definition as_recipe (v : value) : option Recipe.t :=
  match v with
  | Obj fs =>
      if only_fields recipe_fields fs then
        name ← obj_get (lit "name") fs ≫= as_string;
        ingredients ← obj_get (lit "ingredients") fs ≫= as_string_array;
        instructions ← obj_get (lit "instructions") fs ≫= as_string_array;
        cookingTime ← obj_get (lit "cookingTime") fs ≫= as_string;
        difficulty ← obj_get (lit "difficulty") fs ≫= as_string;
        Some (Recipe.mk name ingredients instructions cookingTime difficulty)
      else None
  | _ => None
  end.

Definition as_recipe_array (v : value) : option (list Recipe.t) :=
  match v with Arr xs => mapM as_recipe xs | _ => None end.

(** The handler of the internal mutation [updateAnalysis], on validated
    arguments. *)
Definition updateAnalysis (analysis_id : Id) (ingredients : list jsstring)
    (recipes : list Recipe.t) (status : Status) (st : Backend) : result Backend :=
  tbl ← db_patch (fridgeAnalyses st) analysis_id
         (λ a, mkAnalysis (userId a) (imageId a) ingredients recipes status);
  Ok (mkBackend tbl (scheduled st)).

(** [ctx.runMutation(internal.fridge.updateAnalysis, {...})]: the
    arguments go through the validators, then the handler runs. *)
Definition run_updateAnalysis (analysis_id : Id) (ingredients recipes : value)
    (status : Status) (st : Backend) : result Backend :=
  match as_string_array ingredients, as_recipe_array recipes with
  | Some ingredients, Some recipes =>
      updateAnalysis analysis_id ingredients recipes status st
  | _, _ => Throw ArgumentValidationError
  end.

(** The [try] block of [processImage] up to the values it persists. *)
Definition analyse (w : World) (args : Job) : result (value * value) :=
  imageUrl ← match getUrl w (storageId args) with
             | Some url => if truthy url then Ok url
                           else Throw (Error "Image not found")
             | None => Throw (Error "Image not found")
             end;
  ingredientsResponse ← ingredients_completion w imageUrl;
  ingredients ← parse_ingredients w ingredientsResponse;
  len ← length_of ingredients;
  if is_zero len then Throw (Error "No ingredients identified")
  else
    _ ← join_check ingredients;
    recipesResponse ← recipes_completion w ingredients;
    recipes ← parse_recipes w ingredients recipesResponse;
    Ok (ingredients, recipes).

(** The whole [try] block. *)
Definition processImage_try (w : World) (args : Job) (st : Backend) : result Backend :=
  '(ingredients, recipes) ← analyse w args;
  run_updateAnalysis (analysisId args) ingredients recipes completed st.

(** The [catch] block. *)
Definition processImage_catch (args : Job) (st : Backend) : result Backend :=
  run_updateAnalysis (analysisId args) (Arr []) (Arr []) failed st.

(** The internal action [processImage]: the backend it leaves, and whether
    the action returned or threw. *)
Definition processImage (w : World) (args : Job) (st : Backend)
    : Backend * result unit :=
  match processImage_try w args st with
  | Ok st' => (st', Ok tt)
  | Throw _ =>
      match processImage_catch args st with
      | Ok st' => (st', Ok tt)
      | Throw e => (st, Throw e)
      end
  end.

(** What a query returns for a document: the document with its [_id] and
    the [imageUrl] resolved at the time of the query. *)
Record Returned := mkReturned {
  _id : Id;
  doc : document Analysis;
  imageUrl : option jsstring
}.

Definition getAnalysis (auth : option UserId) (getUrl : StorageId → option jsstring)
    (analysis_id : Id) (st : Backend) : result (option Returned) :=
  match auth with
  | None => Ok None
  | Some user =>
      match db_get (fridgeAnalyses st) analysis_id with
      | Some analysis =>
          if decide (userId (fields analysis) ≠ user) then Ok None
          else Ok (Some (mkReturned analysis_id analysis
                           (getUrl (imageId (fields analysis)))))
      | None => Ok None
      end
  end.

Definition getUserAnalyses (auth : option UserId)
    (getUrl : StorageId → option jsstring) (st : Backend) : result (list Returned) :=
  match auth with
  | None => Ok []
  | Some user =>
      let analyses := query_by_user_desc userId (fridgeAnalyses st) user 20 in
      Ok ((λ analysis : Id * document Analysis,
             mkReturned analysis.1 analysis.2
               (getUrl (imageId (fields analysis.2))))
          <$> analyses)
  end.

End Fridge.

(** ** convex/recipes.ts *)

Module Recipes.
Import Js Convex.

(** A document of the table [scannedRecipes]. *)
Record ScannedRecipe := mkScannedRecipe {
  userId : UserId;
  imageId : StorageId;
  name : jsstring;
  ingredients : list jsstring;
  instructions : list jsstring;
  cookingTime : option jsstring;
  servings : option jsstring;
  difficulty : option jsstring;
  category : option jsstring;
  scanStatus : Status
}.

(** The validated argument [recipeData] of [updateScannedRecipe]. *)
Module RecipeData.
Record t := mk {
  name : jsstring;
  ingredients : list jsstring;
  instructions : list jsstring;
  cookingTime : option jsstring;
  servings : option jsstring;
  difficulty : option jsstring;
  category : option jsstring
}.
End RecipeData.

(** The arguments of a scheduled [processRecipeImage]. *)
Record Job := mkJob {
  recipeId : Id;
  storageId : StorageId
}.

Record Backend := mkBackend {
  scannedRecipes : table ScannedRecipe;
  scheduled : list Job
}.

(** What a run of [processRecipeImage] gets from outside. *)
Record World := mkWorld {
  getUrl : StorageId → option jsstring;
  JSON_parse : jsstring → option value;
  recipe_completion : jsstring → result completion
}.

Definition generateUploadUrl (auth : option UserId) (uploadUrl : jsstring)
    (st : Backend) : result (Backend * jsstring) :=
  match auth with
  | None => Throw (Error "Not authenticated")
  | Some _ => Ok (st, uploadUrl)
  end.

Definition scanRecipe (auth : option UserId) (storage_id : StorageId)
    (st : Backend) : result (Backend * Id) :=
  match auth with
  | None => Throw (Error "Not authenticated")
  | Some user =>
      let '(tbl, recipe_id) :=
        db_insert (scannedRecipes st)
          (mkScannedRecipe user storage_id [] [] [] None None None None processing) in
      Ok (mkBackend tbl (scheduled st ++ [mkJob recipe_id storage_id]),
          recipe_id)
  end.

(** The object [recipeData] of the handler, of type [any]: its own
    properties. *)
Abbreviation object := (list (jsstring * value)).

Definition default_recipeData : object :=
  [(lit "name", Str (lit "Scanned Recipe"));
   (lit "ingredients", Arr []);
   (lit "instructions", Arr []);
   (lit "cookingTime", Str (lit "Unknown"));
   (lit "servings", Str (lit "Unknown"));
   (lit "difficulty", Str (lit "Medium"));
   (lit "category", Str (lit "Other"))].

(** The key of the element at index [i] of an array or a string. *)
Definition index_key (i : nat) : jsstring :=
  lit (NilZero.string_of_uint (Nat.to_uint i)).

(** The own enumerable properties [{...v}] copies. *)
Definition own_entries (v : value) : object :=
  match v with
  | Obj fs => fs
  | Arr xs => imap (λ i x, (index_key i, x)) xs
  | Str s => imap (λ i c, (index_key i, Str [c])) s
  | Null | Bool _ | Num _ => []
  end.

(** [{ ...base, ...v }] *)
Definition spread (base : object) (v : value) : object :=
  foldl (λ acc kv, obj_set kv.1 kv.2 acc) base (own_entries v).

(** [content.split('\n').filter(line => line.trim())] *)
Definition nonblank_lines (content : jsstring) : list jsstring :=
  List.filter (λ line, truthy (trim line)) (split LF content).

(** The callback of [lines.find] *)
Definition is_name_line (line : jsstring) : bool :=
  includes (toLowerCase line) (lit "recipe")
  || includes (toLowerCase line) (lit "title")
  || (negb (includes line [colon])
      && bool_decide (5 < length line) && bool_decide (length line < 50)).

(** [/recipe:?/i]: a character of the pattern matches a code unit with the
    same upper case; without the [u] flag a code unit outside ASCII is
    never taken for an ASCII letter. *)
Definition upper_ascii (c : N) : N :=
  if (97 <=? c)%N && (c <=? 122)%N then (c - 32)%N else c.

Fixpoint startsWith_i (s p : jsstring) {struct p} : bool :=
  match p, s with
  | [], _ => true
  | _ :: _, [] => false
  | a :: p', b :: s' => (upper_ascii a =? upper_ascii b)%N && startsWith_i s' p'
  end.

(** [s.replace(/recipe:?/i, '')]: the first match is removed. *)
Fixpoint remove_recipe (s : jsstring) : jsstring :=
  if startsWith_i s (lit "recipe") then
    match drop 6 s with
    | c :: rest => if (c =? colon)%N then rest else c :: rest
    | [] => []
    end
  else
    match s with
    | [] => []
    | c :: s' => c :: remove_recipe s'
    end.

(** [/^[\d•\-*]/.test(s)] *)
Definition is_marker (c : N) : bool :=
  is_digit c || (c =? bullet)%N || (c =? dash)%N || (c =? star)%N.

Definition starts_with_marker (s : jsstring) : bool :=
  match s with
  | c :: _ => is_marker c
  | [] => false
  end.

(** The callback of the first [lines.filter] *)
Definition is_ingredient_line (line : jsstring) : bool :=
  starts_with_marker (trim line)
  || includes (toLowerCase line) (lit "cup")
  || includes (toLowerCase line) (lit "tbsp")
  || includes (toLowerCase line) (lit "tsp").

(** [line.replace(/^[\d•\-*.\s]+/, '')] *)
Definition is_marker_or_space (c : N) : bool :=
  is_digit c || (c =? bullet)%N || (c =? dash)%N || (c =? star)%N
  || (c =? dot)%N || is_space c.

Definition strip_markers (line : jsstring) : jsstring :=
  drop_while is_marker_or_space line.

(** The callback of the second [lines.filter] *)
Definition is_instruction_line (line : jsstring) : bool :=
  bool_decide (20 < length line)
  && (includes line (lit "cook") || includes line (lit "add")
      || includes line (lit "mix") || includes line (lit "heat")
      || includes line (lit "bake") || includes line (lit "stir")).

(** [const ingredients = lines.filter(...).map(...)] *)
Definition heuristic_ingredients (lines : list jsstring) : list jsstring :=
  (λ line, trim (strip_markers line)) <$> List.filter is_ingredient_line lines.

(** [const instructions = lines.filter(...)] *)
Definition heuristic_instructions (lines : list jsstring) : list jsstring :=
  List.filter is_instruction_line lines.

(** The [catch] branch of the parse, from [content] on. *)
Definition heuristic_recipe (content : jsstring) (recipeData : object) : object :=
  let lines := nonblank_lines content in
  let recipeData :=
    match List.find is_name_line lines with
    | Some nameMatch =>
        if truthy nameMatch
        then obj_set (lit "name") (Str (trim (remove_recipe nameMatch))) recipeData
        else recipeData
    | None => recipeData
    end in
  let ingredients := heuristic_ingredients lines in
  let recipeData :=
    if bool_decide (0 < length ingredients)
    then obj_set (lit "ingredients") (Arr (Str <$> slice0 15 ingredients)) recipeData
    else recipeData in
  let instructions := heuristic_instructions lines in
  if bool_decide (0 < length instructions)
  then obj_set (lit "instructions") (Arr (Str <$> slice0 10 instructions)) recipeData
  else recipeData.

(** [let recipeData = {...}; try { ... } catch (e) { ... }] *)
Definition parse_recipe (w : World) (response : completion) : result object :=
  try_catch
    (content ← content_of response;
     if truthy_opt content
     then match JSON_parse w (default [] content) with
          | Some parsed => Ok (spread default_recipeData parsed)
          | None => Throw SyntaxError
          end
     else Ok default_recipeData)
    (λ _,
     content ← content_of response;
     Ok (heuristic_recipe (default [] content) default_recipeData)).

(** [recipeData.k.length] *)
Definition property_length (k : jsstring) (recipeData : object) : result (option value) :=
  match obj_get k recipeData with
  | Some v => length_of v
  | None => Throw TypeError
  end.

(** [recipeData.ingredients.length === 0 && recipeData.instructions.length === 0] *)
Definition nothing_extracted (recipeData : object) : result bool :=
  n ← property_length (lit "ingredients") recipeData;
  if is_zero n
  then m ← property_length (lit "instructions") recipeData; Ok (is_zero m)
  else Ok false.

(** The validator of the argument [recipeData]. *)
Definition recipeData_fields : list jsstring :=
  [lit "name"; lit "ingredients"; lit "instructions"; lit "cookingTime";
   lit "servings"; lit "difficulty"; lit "category"].

Definition as_recipeData (fs : object) : option RecipeData.t :=
  if only_fields recipeData_fields fs then
    name ← obj_get (lit "name") fs ≫= as_string;
    ingredients ← obj_get (lit "ingredients") fs ≫= as_string_array;
    instructions ← obj_get (lit "instructions") fs ≫= as_string_array;
    cookingTime ← as_optional_string (obj_get (lit "cookingTime") fs);
    servings ← as_optional_string (obj_get (lit "servings") fs);
    difficulty ← as_optional_string (obj_get (lit "difficulty") fs);
    category ← as_optional_string (obj_get (lit "category") fs);
    Some (RecipeData.mk name ingredients instructions
            cookingTime servings difficulty category)
  else None.

(** The handler of the internal mutation [updateScannedRecipe], on
    validated arguments. *)
Definition updateScannedRecipe (recipe_id : Id) (recipeData : RecipeData.t)
    (status : Status) (st : Backend) : result Backend :=
  tbl ← db_patch (scannedRecipes st) recipe_id
         (λ r, mkScannedRecipe (userId r) (imageId r)
                 (RecipeData.name recipeData)
                 (RecipeData.ingredients recipeData)
                 (RecipeData.instructions recipeData)
                 (RecipeData.cookingTime recipeData)
                 (RecipeData.servings recipeData)
                 (RecipeData.difficulty recipeData)
                 (RecipeData.category recipeData)
                 status);
  Ok (mkBackend tbl (scheduled st)).

(** [ctx.runMutation(internal.recipes.updateScannedRecipe, {...})] *)
Definition run_updateScannedRecipe (recipe_id : Id) (recipeData : object)
    (status : Status) (st : Backend) : result Backend :=
  match as_recipeData recipeData with
  | Some recipeData => updateScannedRecipe recipe_id recipeData status st
  | None => Throw ArgumentValidationError
  end.

(** The [try] block of [processRecipeImage] up to the object it persists. *)
Definition scan (w : World) (args : Job) : result object :=
  imageUrl ← match getUrl w (storageId args) with
             | Some url => if truthy url then Ok url
                           else Throw (Error "Image not found")
             | None => Throw (Error "Image not found")
             end;
  recipeResponse ← recipe_completion w imageUrl;
  recipeData ← parse_recipe w recipeResponse;
  empty ← nothing_extracted recipeData;
  if empty : bool
  then Throw (Error "No recipe information could be extracted from the image")
  else Ok recipeData.

(** The whole [try] block. *)
Definition processRecipeImage_try (w : World) (args : Job) (st : Backend)
    : result Backend :=
  recipeData ← scan w args;
  run_updateScannedRecipe (recipeId args) recipeData completed st.

(** The object literal of the [catch] block. *)
Definition scan_failed : object :=
  [(lit "name", Str (lit "Scan Failed"));
   (lit "ingredients", Arr []);
   (lit "instructions", Arr [])].

Definition processRecipeImage_catch (args : Job) (st : Backend) : result Backend :=
  run_updateScannedRecipe (recipeId args) scan_failed failed st.

(** The internal action [processRecipeImage]. *)
Definition processRecipeImage (w : World) (args : Job) (st : Backend)
    : Backend * result unit :=
  match processRecipeImage_try w args st with
  | Ok st' => (st', Ok tt)
  | Throw _ =>
      match processRecipeImage_catch args st with
      | Ok st' => (st', Ok tt)
      | Throw e => (st, Throw e)
      end
  end.

Record Returned := mkReturned {
  _id : Id;
  doc : document ScannedRecipe;
  imageUrl : option jsstring
}.

Definition getScannedRecipe (auth : option UserId)
    (getUrl : StorageId → option jsstring) (recipe_id : Id) (st : Backend)
    : result (option Returned) :=
  match auth with
  | None => Ok None
  | Some user =>
      match db_get (scannedRecipes st) recipe_id with
      | Some recipe =>
          if decide (userId (fields recipe) ≠ user) then Ok None
          else Ok (Some (mkReturned recipe_id recipe
                           (getUrl (imageId (fields recipe)))))
      | None => Ok None
      end
  end.

Definition getUserRecipes (auth : option UserId)
    (getUrl : StorageId → option jsstring) (st : Backend) : result (list Returned) :=
  match auth with
  | None => Ok []
  | Some user =>
      let recipes := query_by_user_desc userId (scannedRecipes st) user 20 in
      Ok ((λ recipe : Id * document ScannedRecipe,
             mkReturned recipe.1 recipe.2 (getUrl (imageId (fields recipe.2))))
          <$> recipes)
  end.

Definition deleteRecipe (auth : option UserId) (recipe_id : Id) (st : Backend)
    : result Backend :=
  match auth with
  | None => Throw (Error "Not authenticated")
  | Some user =>
      match db_get (scannedRecipes st) recipe_id with
      | Some recipe =>
          if decide (userId (fields recipe) ≠ user)
          then Throw (Error "Recipe not found or not authorized")
          else tbl ← db_delete (scannedRecipes st) recipe_id;
               Ok (mkBackend tbl (scheduled st))
      | None => Throw (Error "Recipe not found or not authorized")
      end
  end.

End Recipes.

(** ** The deployment *)

Module App.
Import Js Convex.

Record State := mkState {
  fridge : Fridge.Backend;
  recipes : Recipes.Backend
}.

Definition init : State :=
  mkState (Fridge.mkBackend empty_table []) (Recipes.mkBackend empty_table []).

(** What can happen to a deployment: a client calls a public mutation or
    query, or the scheduler runs one of the queued jobs, once, in a world
    of its own. The internal mutations [updateAnalysis] and
    [updateScannedRecipe] are reachable through the jobs only. *)
Inductive op :=
| FridgeGenerateUploadUrl (auth : option UserId) (uploadUrl : jsstring)
| AnalyzeImage (auth : option UserId) (storage_id : StorageId)
| ProcessImage (w : Fridge.World) (i : nat)
| GetAnalysis (auth : option UserId) (getUrl : StorageId → option jsstring) (id : Id)
| GetUserAnalyses (auth : option UserId) (getUrl : StorageId → option jsstring)
| RecipesGenerateUploadUrl (auth : option UserId) (uploadUrl : jsstring)
| ScanRecipe (auth : option UserId) (storage_id : StorageId)
| ProcessRecipeImage (w : Recipes.World) (i : nat)
| GetScannedRecipe (auth : option UserId) (getUrl : StorageId → option jsstring) (id : Id)
| GetUserRecipes (auth : option UserId) (getUrl : StorageId → option jsstring)
| DeleteRecipe (auth : option UserId) (id : Id).

(** What the caller of an operation gets back. *)
Inductive reply :=
| Rejected (e : exn)
| UploadUrl (url : jsstring)
| NewId (id : Id)
| AnalysisOrNull (r : option Fridge.Returned)
| AnalysisList (l : list Fridge.Returned)
| RecipeOrNull (r : option Recipes.Returned)
| RecipeList (l : list Recipes.Returned)
| Done
| NoSuchJob.

Definition reply_of {A : Type} (f : A → reply) (r : result A) : reply :=
  match r with
  | Ok a => f a
  | Throw e => Rejected e
  end.

(** One operation: the deployment it leaves and the reply. A mutation
    that throws is rolled back; a query writes nothing; a job leaves the
    queue when the scheduler runs it. *)
Definition exec (o : op) (s : State) : State * reply :=
  match o with
  | FridgeGenerateUploadUrl auth url =>
      match Fridge.generateUploadUrl auth url (fridge s) with
      | Ok (b, u) => (mkState b (recipes s), UploadUrl u)
      | Throw e => (s, Rejected e)
      end
  | AnalyzeImage auth storage_id =>
      match Fridge.analyzeImage auth storage_id (fridge s) with
      | Ok (b, id) => (mkState b (recipes s), NewId id)
      | Throw e => (s, Rejected e)
      end
  | ProcessImage w i =>
      match Fridge.scheduled (fridge s) !! i with
      | Some job =>
          let b := Fridge.mkBackend (Fridge.fridgeAnalyses (fridge s))
                     (delete i (Fridge.scheduled (fridge s))) in
          let '(b', r) := Fridge.processImage w job b in
          (mkState b' (recipes s), reply_of (λ _, Done) r)
      | None => (s, NoSuchJob)
      end
  | GetAnalysis auth getUrl id =>
      (s, reply_of AnalysisOrNull (Fridge.getAnalysis auth getUrl id (fridge s)))
  | GetUserAnalyses auth getUrl =>
      (s, reply_of AnalysisList (Fridge.getUserAnalyses auth getUrl (fridge s)))
  | RecipesGenerateUploadUrl auth url =>
      match Recipes.generateUploadUrl auth url (recipes s) with
      | Ok (b, u) => (mkState (fridge s) b, UploadUrl u)
      | Throw e => (s, Rejected e)
      end
  | ScanRecipe auth storage_id =>
      match Recipes.scanRecipe auth storage_id (recipes s) with
      | Ok (b, id) => (mkState (fridge s) b, NewId id)
      | Throw e => (s, Rejected e)
      end
  | ProcessRecipeImage w i =>
      match Recipes.scheduled (recipes s) !! i with
      | Some job =>
          let b := Recipes.mkBackend (Recipes.scannedRecipes (recipes s))
                     (delete i (Recipes.scheduled (recipes s))) in
          let '(b', r) := Recipes.processRecipeImage w job b in
          (mkState (fridge s) b', reply_of (λ _, Done) r)
      | None => (s, NoSuchJob)
      end
  | GetScannedRecipe auth getUrl id =>
      (s, reply_of RecipeOrNull (Recipes.getScannedRecipe auth getUrl id (recipes s)))
  | GetUserRecipes auth getUrl =>
      (s, reply_of RecipeList (Recipes.getUserRecipes auth getUrl (recipes s)))
  | DeleteRecipe auth id =>
      match Recipes.deleteRecipe auth id (recipes s) with
      | Ok b => (mkState (fridge s) b, Done)
      | Throw e => (s, Rejected e)
      end
  end.

Definition step (o : op) (s : State) : State := (exec o s).1.

(** The public entry points, and the identity a call is made under. *)
Definition public (o : op) : bool :=
  match o with
  | ProcessImage _ _ | ProcessRecipeImage _ _ => false
  | _ => true
  end.

Definition identity (o : op) : option UserId :=
  match o with
  | FridgeGenerateUploadUrl auth _ | AnalyzeImage auth _
  | GetAnalysis auth _ _ | GetUserAnalyses auth _
  | RecipesGenerateUploadUrl auth _ | ScanRecipe auth _
  | GetScannedRecipe auth _ _ | GetUserRecipes auth _
  | DeleteRecipe auth _ => auth
  | ProcessImage _ _ | ProcessRecipeImage _ _ => None
  end.

(** The deployment after a history of operations, oldest first. *)
Definition run (ops : list op) (s : State) : State :=
  foldl (λ s o, step o s) s ops.

Definition reachable (s : State) : Prop := ∃ ops, s = run ops init.

(** The documents a read finds under an id. *)
Definition analysis (s : State) (id : Id) : option Fridge.Analysis :=
  fields <$> db_get (Fridge.fridgeAnalyses (fridge s)) id.

Definition recipe (s : State) (id : Id) : option Recipes.ScannedRecipe :=
  fields <$> db_get (Recipes.scannedRecipes (recipes s)) id.

(** What every reachable deployment satisfies: an id in use is below the
    counter of its table; a queued job is queued once, and the document it
    is for, if it is there, is still processing. An analysis is never
    deleted, so the document of a queued [processImage] is there. *)
Definition fridge_consistent (b : Fridge.Backend) : Prop :=
  (∀ id d, db_get (Fridge.fridgeAnalyses b) id = Some d →
     id < counter (Fridge.fridgeAnalyses b))
  ∧ (∀ job, job ∈ Fridge.scheduled b →
       ∃ d, db_get (Fridge.fridgeAnalyses b) (Fridge.analysisId job) = Some d
            ∧ Fridge.analysisStatus (fields d) = processing)
  ∧ NoDup (Fridge.analysisId <$> Fridge.scheduled b).

Definition recipes_consistent (b : Recipes.Backend) : Prop :=
  (∀ id d, db_get (Recipes.scannedRecipes b) id = Some d →
     id < counter (Recipes.scannedRecipes b))
  ∧ (∀ job, job ∈ Recipes.scheduled b →
       Recipes.recipeId job < counter (Recipes.scannedRecipes b)
       ∧ ∀ d, db_get (Recipes.scannedRecipes b) (Recipes.recipeId job) = Some d →
              Recipes.scanStatus (fields d) = processing)
  ∧ NoDup (Recipes.recipeId <$> Recipes.scheduled b).

Definition consistent (s : State) : Prop :=
  fridge_consistent (fridge s) ∧ recipes_consistent (recipes s).

End App.

(** ** The wording of the specification, for comparison *)

Module Spec.
Import Js Convex.

(** A string with no white space at either end. *)
Definition trimmed (s : jsstring) : Prop :=
  (∀ c, head s = Some c → is_space c = false)
  ∧ (∀ c, last s = Some c → is_space c = false).

Definition blank (s : jsstring) : Prop := Forall (λ c, is_space c = true) s.

(** Fridge fallback, as the specification words it: "splitting response
    text into lines, stripping leading bullet/number markers, discarding
    empty lines, and capping the result to the first 10 items". The
    markers are those of the recipe scan: digits, bullets, dots and the
    white space between them. *)
Definition fridge_fallback (content : jsstring) : list jsstring :=
  take 10
    (List.filter (λ item, bool_decide (0 < length item))
       ((λ line, trim (Recipes.strip_markers line)) <$> split LF content)).

(** The entry the fridge fallback makes of a line: one bullet at the very
    start of the line goes, with the white space after it; then the white
    space at both ends goes. Digits and dots stay. *)
Inductive entry_of : jsstring → jsstring → Prop :=
| entry_bulleted b ws entry ws' :
    Fridge.is_bullet b = true → blank ws → blank ws' → trimmed entry →
    entry_of (b :: ws ++ entry ++ ws') entry
| entry_plain ws entry ws' :
    (∀ b, head (ws ++ entry ++ ws') = Some b → Fridge.is_bullet b = false) →
    blank ws → blank ws' → trimmed entry →
    entry_of (ws ++ entry ++ ws') entry.

(** [v] is [kw] up to the case of its ASCII letters. *)
Definition same_letters (v kw : jsstring) : Prop :=
  Forall2 (λ c k, c = k ∨ (97 ≤ k ∧ k ≤ 122 ∧ c = k - 32)%N) v kw.

(** [s] contains [sub]. *)
Definition contains (s sub : jsstring) : Prop := ∃ a b, s = a ++ sub ++ b.

(** The matching rules of the recipe scan, as the specification words
    them: "ingredient lines matched by leading bullet/digit markers or unit
    keywords", the keyword in any letter case; "instruction lines matched by
    length > 20 and containing an action verb from a fixed keyword set". *)
Definition unit_keywords : list jsstring := [lit "cup"; lit "tbsp"; lit "tsp"].

Definition action_verbs : list jsstring :=
  [lit "cook"; lit "add"; lit "mix"; lit "heat"; lit "bake"; lit "stir"].

Definition ingredient_rule (line : jsstring) : Prop :=
  (∃ c, head (trim line) = Some c
        ∧ (is_digit c = true ∨ c = bullet ∨ c = dash ∨ c = star))
  ∨ (∃ kw v, kw ∈ unit_keywords ∧ same_letters v kw ∧ contains line v).

Definition instruction_rule (line : jsstring) : Prop :=
  20 < length line ∧ ∃ kw, kw ∈ action_verbs ∧ contains line kw.

(** A verb with its first letter in upper case. *)
Definition capitalized (kw : jsstring) : jsstring :=
  match kw with
  | c :: rest => (c - 32)%N :: rest
  | [] => []
  end.

(** The line has an action verb, and has none written in lower case. *)
Definition only_capitalized (line : jsstring) : Prop :=
  (∃ kw, kw ∈ action_verbs ∧ contains line (capitalized kw))
  ∧ (∀ kw, kw ∈ action_verbs → ¬ contains line kw).

(** The minimal failure record of the recipe scan: the name "Scan Failed",
    no ingredients, no instructions, no optional field, status failed. *)
Definition scan_failure (r : Recipes.ScannedRecipe) : Recipes.ScannedRecipe :=
  Recipes.mkScannedRecipe (Recipes.userId r) (Recipes.imageId r)
    (lit "Scan Failed") [] [] None None None None failed.

(** The failure record of the fridge analysis. *)
Definition analysis_failure (a : Fridge.Analysis) : Fridge.Analysis :=
  Fridge.mkAnalysis (Fridge.userId a) (Fridge.imageId a) [] [] failed.

(** [JSON.parse] on replies that are not JSON: it throws. *)
Definition not_json : jsstring → option value := λ _, None.

End Spec.

(** ** Small deployments to run the handlers on *)

Module Example.
Import Js Convex.

Definition file_url : StorageId → option jsstring :=
  λ _, Some (lit "https://files/0").

(** User 1 has submitted file 0 for a recipe scan; the job is queued. *)
Definition one_scan : Recipes.Backend :=
  match Recipes.scanRecipe (Some 1) 0 (Recipes.mkBackend empty_table []) with
  | Ok (st, _) => st
  | Throw _ => Recipes.mkBackend empty_table []
  end.

Definition scan_job : Recipes.Job := Recipes.mkJob 0 0.

(** The inference client answers a scan with [content], which is not JSON. *)
Definition scan_world (content : jsstring) : Recipes.World :=
  Recipes.mkWorld file_url Spec.not_json (λ _, Ok (Message (Some content))).

(** User 1 has submitted file 0 for a fridge analysis; the job is queued. *)
Definition one_analysis : Fridge.Backend :=
  match Fridge.analyzeImage (Some 1) 0 (Fridge.mkBackend empty_table []) with
  | Ok (st, _) => st
  | Throw _ => Fridge.mkBackend empty_table []
  end.

Definition analysis_job : Fridge.Job := Fridge.mkJob 0 0.

(** The inference client answers the two calls of an analysis with
    [ingredients] and [recipes], neither of them JSON. *)
Definition fridge_world (ingredients recipes : jsstring) : Fridge.World :=
  Fridge.mkWorld file_url Spec.not_json
    (λ _, Ok (Message (Some ingredients)))
    (λ _, Ok (Message (Some recipes))).

Definition pasta_line : jsstring := lit "Cook the pasta until it is al dente.".

End Example.

(** ** The shape of the stored records *)

Module Shape.
Import Js Convex.

(** What the status of an analysis says about its payload: nothing is
    stored before the task ends or when it fails, and a completed analysis
    has an ingredient. *)
Definition analysis_shape (a : Fridge.Analysis) : Prop :=
  match Fridge.analysisStatus a with
  | processing | failed => Fridge.ingredients a = [] ∧ Fridge.recipes a = []
  | completed => Fridge.ingredients a ≠ []
  end.

(** The same for a scanned recipe: as inserted while processing, the
    failure record when failed, an ingredient or an instruction when
    completed. *)
Definition recipe_shape (r : Recipes.ScannedRecipe) : Prop :=
  match Recipes.scanStatus r with
  | processing =>
      r = Recipes.mkScannedRecipe (Recipes.userId r) (Recipes.imageId r)
            [] [] [] None None None None processing
  | failed => r = Spec.scan_failure r
  | completed => Recipes.ingredients r ≠ [] ∨ Recipes.instructions r ≠ []
  end.

(** A document keeps the creation time it was inserted with, has the
    shape of its status and, while processing, its job in the queue; the
    job of a document is for the image of that document. *)
Definition fridge_shaped (b : Fridge.Backend) : Prop :=
  (∀ id d, db_get (Fridge.fridgeAnalyses b) id = Some d →
     _creationTime d = id
     ∧ analysis_shape (fields d)
     ∧ (Fridge.analysisStatus (fields d) = processing →
        Fridge.mkJob id (Fridge.imageId (fields d)) ∈ Fridge.scheduled b))
  ∧ (∀ job d, job ∈ Fridge.scheduled b →
       db_get (Fridge.fridgeAnalyses b) (Fridge.analysisId job) = Some d →
       Fridge.imageId (fields d) = Fridge.storageId job).

Definition recipes_shaped (b : Recipes.Backend) : Prop :=
  (∀ id d, db_get (Recipes.scannedRecipes b) id = Some d →
     _creationTime d = id
     ∧ recipe_shape (fields d)
     ∧ (Recipes.scanStatus (fields d) = processing →
        Recipes.mkJob id (Recipes.imageId (fields d)) ∈ Recipes.scheduled b))
  ∧ (∀ job d, job ∈ Recipes.scheduled b →
       db_get (Recipes.scannedRecipes b) (Recipes.recipeId job) = Some d →
       Recipes.imageId (fields d) = Recipes.storageId job).

Definition shaped (s : App.State) : Prop :=
  fridge_shaped (App.fridge s) ∧ recipes_shaped (App.recipes s).

(** The stored field for a key of the object parsed from a scan reply:
    the parsed value when the object has the key, the default otherwise. *)
Definition merged (k : jsstring) (parsed : list (jsstring * value)) : option value :=
  match obj_get k parsed with
  | Some v => Some v
  | None => obj_get k Recipes.default_recipeData
  end.

(** A case-insensitive occurrence of "recipe", with the colon after it if
    there is one: what [/recipe:?/i] matches at the head of [m ++ rest]. *)
Definition recipe_word (m rest : jsstring) : Prop :=
  ∃ w, Spec.same_letters w (lit "recipe")
       ∧ ((m = w ++ [colon])
          ∨ (m = w ∧ ∀ c, head rest = Some c → c ≠ colon)).

End Shape.

(** ** src/FridgeAnalyzer.tsx and src/RecipeScanner.tsx *)

(** The two components, as far as they call the back end: their event
    handlers, run without another call between their awaits, and the
    conditions under which they render what a query returned. *)
Module Client.
Import Js Convex.

(** A [File]: its MIME type. *)
Record File := mkFile { type : jsstring }.

(** The toasts: "Please select an image file (JPG, PNG, etc.)", the
    success toast of an upload, "Failed to upload ... Please try again.",
    "Recipe deleted successfully", "Failed to delete recipe". *)
Inductive toast := SelectAnImage | Uploaded | UploadFailed | Deleted | DeleteFailed.

(** The state of a component: [isUploading], [currentAnalysisId] or
    [currentRecipeId], and the toasts shown so far. *)
Record State := mkState {
  isUploading : bool;
  currentId : option Id;
  toasts : list toast
}.

Definition setIsUploading (b : bool) (ui : State) : State :=
  mkState b (currentId ui) (toasts ui).

Definition setCurrentId (id : option Id) (ui : State) : State :=
  mkState (isUploading ui) id (toasts ui).

Definition show (t : toast) (ui : State) : State :=
  mkState (isUploading ui) (currentId ui) (toasts ui ++ [t]).

(** What a handler gets from outside: the URL [ctx.storage.generateUploadUrl]
    hands out, the outcome of [fetch] ([None] when its promise rejects,
    else [result.ok] and what [result.json()] settles to), and the storage
    id a value denotes, if any, which is what the validator
    [v.id("_storage")] of the mutation lets through. *)
Record World := mkWorld {
  uploadUrl : jsstring;
  fetch : jsstring → File → option (bool * result value);
  storage_id : value → option StorageId
}.

(** [const { storageId } = v] *)
Definition destructure (k : jsstring) (v : value) : result (option value) :=
  match v with
  | Null => Throw TypeError
  | Obj fs => Ok (obj_get k fs)
  | Bool _ | Num _ | Str _ | Arr _ => Ok None
  end.

(** From [fetch] to the argument of the mutation. *)
Definition upload (w : World) (url : jsstring) (file : File) : result StorageId :=
  match fetch w url file with
  | None => Throw RequestFailed
  | Some (ok, json) =>
      if negb ok then Throw (Error "Upload failed")
      else
        v ← json;
        storageId ← destructure (lit "storageId") v;
        match storageId with
        | Some x =>
            match storage_id w x with
            | Some id => Ok id
            | None => Throw ArgumentValidationError
            end
        | None => Throw ArgumentValidationError
        end
  end.

(** [xs.join(sep)] on strings. *)
Fixpoint join_str (sep : jsstring) (xs : list jsstring) : jsstring :=
  match xs with
  | [] => []
  | [x] => x
  | x :: rest => x ++ sep ++ join_str sep rest
  end.

Module FridgeAnalyzer.

(** The [try] block of [handleFileSelect]: the back end after its calls,
    and the id of the analysis or the exception. *)
Definition submit (w : World) (auth : option UserId) (file : File)
    (b : Fridge.Backend) : Fridge.Backend * result Id :=
  match Fridge.generateUploadUrl auth (uploadUrl w) b with
  | Throw e => (b, Throw e)
  | Ok (b1, url) =>
      match upload w url file with
      | Throw e => (b1, Throw e)
      | Ok storageId =>
          match Fridge.analyzeImage auth storageId b1 with
          | Throw e => (b1, Throw e)
          | Ok (b2, analysisId) => (b2, Ok analysisId)
          end
      end
  end.

Definition handleFileSelect (w : World) (auth : option UserId) (file : File)
    (ui : State) (b : Fridge.Backend) : State * Fridge.Backend :=
  if negb (startsWith (type file) (lit "image/"))
  then (show SelectAnImage ui, b)
  else
    let ui := setIsUploading true ui in
    let '(b', r) := submit w auth file b in
    let ui := match r with
              | Ok analysisId => show Uploaded (setCurrentId (Some analysisId) ui)
              | Throw _ => show UploadFailed ui
              end in
    (setIsUploading false ui, b').

(** [const file = event.target.files?.[0]; if (file) handleFileSelect(file)] *)
Definition handleFileChange (w : World) (auth : option UserId) (files : list File)
    (ui : State) (b : Fridge.Backend) : State * Fridge.Backend :=
  match head files with
  | Some file => handleFileSelect w auth file ui b
  | None => (ui, b)
  end.

(** [useQuery(api.fridge.getAnalysis, currentAnalysisId ? {...} : "skip")]:
    [None] is [undefined] or [null], nothing is rendered for either. *)
Definition currentAnalysis (auth : option UserId)
    (getUrl : StorageId → option jsstring) (ui : State) (b : Fridge.Backend)
    : option Fridge.Returned :=
  match currentId ui with
  | Some id =>
      match Fridge.getAnalysis auth getUrl id b with
      | Ok r => r
      | Throw _ => None
      end
  | None => None
  end.

(** The paragraph "No ingredients were detected in this image.", inside
    the block of a completed analysis. *)
Definition no_ingredients_note (a : Fridge.Analysis) : bool :=
  bool_decide (Fridge.analysisStatus a = completed)
  && bool_decide (length (Fridge.ingredients a) = 0).

(** The rows of "Your Previous Analyses" and the line "Showing 5 most
    recent analyses". *)
Definition history (userAnalyses : list Fridge.Returned) : list Fridge.Returned :=
  slice0 5 userAnalyses.

Definition history_note (userAnalyses : list Fridge.Returned) : bool :=
  bool_decide (5 < length userAnalyses).

(** The first line of a row. *)
Definition row_label (a : Fridge.Analysis) : jsstring :=
  if bool_decide (0 < length (Fridge.ingredients a))
  then join_str (lit ", ") (slice0 3 (Fridge.ingredients a))
       ++ (if bool_decide (3 < length (Fridge.ingredients a)) then lit "..." else [])
  else lit "Analysis in progress...".

End FridgeAnalyzer.

Module RecipeScanner.

Definition submit (w : World) (auth : option UserId) (file : File)
    (b : Recipes.Backend) : Recipes.Backend * result Id :=
  match Recipes.generateUploadUrl auth (uploadUrl w) b with
  | Throw e => (b, Throw e)
  | Ok (b1, url) =>
      match upload w url file with
      | Throw e => (b1, Throw e)
      | Ok storageId =>
          match Recipes.scanRecipe auth storageId b1 with
          | Throw e => (b1, Throw e)
          | Ok (b2, recipeId) => (b2, Ok recipeId)
          end
      end
  end.

Definition handleFileSelect (w : World) (auth : option UserId) (file : File)
    (ui : State) (b : Recipes.Backend) : State * Recipes.Backend :=
  if negb (startsWith (type file) (lit "image/"))
  then (show SelectAnImage ui, b)
  else
    let ui := setIsUploading true ui in
    let '(b', r) := submit w auth file b in
    let ui := match r with
              | Ok recipeId => show Uploaded (setCurrentId (Some recipeId) ui)
              | Throw _ => show UploadFailed ui
              end in
    (setIsUploading false ui, b').

Definition handleFileChange (w : World) (auth : option UserId) (files : list File)
    (ui : State) (b : Recipes.Backend) : State * Recipes.Backend :=
  match head files with
  | Some file => handleFileSelect w auth file ui b
  | None => (ui, b)
  end.

Definition handleDeleteRecipe (auth : option UserId) (recipeId : Id)
    (ui : State) (b : Recipes.Backend) : State * Recipes.Backend :=
  match Recipes.deleteRecipe auth recipeId b with
  | Ok b' =>
      let ui := if decide (currentId ui = Some recipeId)
                then setCurrentId None ui else ui in
      (show Deleted ui, b')
  | Throw _ => (show DeleteFailed ui, b)
  end.

Definition currentRecipe (auth : option UserId)
    (getUrl : StorageId → option jsstring) (ui : State) (b : Recipes.Backend)
    : option Recipes.Returned :=
  match currentId ui with
  | Some id =>
      match Recipes.getScannedRecipe auth getUrl id b with
      | Ok r => r
      | Throw _ => None
      end
  | None => None
  end.

(** The Delete button of the panel: it calls [handleDeleteRecipe] with
    the id of the recipe shown. *)
Definition delete_offered (r : Recipes.ScannedRecipe) : bool :=
  bool_decide (Recipes.scanStatus r = completed).

(** The block "No recipe details could be extracted from this image.",
    inside the block of a completed recipe. *)
Definition no_details_note (r : Recipes.ScannedRecipe) : bool :=
  bool_decide (Recipes.scanStatus r = completed)
  && bool_decide (length (Recipes.ingredients r) = 0)
  && bool_decide (length (Recipes.instructions r) = 0).

(** The rows of "Your Recipe Collection" and the line "Showing 10 most
    recent recipes". *)
Definition collection (userRecipes : list Recipes.Returned) : list Recipes.Returned :=
  slice0 10 userRecipes.

Definition collection_note (userRecipes : list Recipes.Returned) : bool :=
  bool_decide (10 < length userRecipes).

(** [recipe.name || "Untitled Recipe"] *)
Definition row_name (r : Recipes.ScannedRecipe) : jsstring :=
  if truthy (Recipes.name r) then Recipes.name r else lit "Untitled Recipe".

End RecipeScanner.

End Client.

(** ** The page script (tab switching) *)

(** The document as the script sees it: the elements in document order,
    the class tokens of each, and the element an id names. The script
    changes class tokens only, so the two collections it fetched at load
    time, which are live, are read off the document when they are used. *)
Module Page.
Import Js Convex.

Abbreviation Element := nat.

Record Document := mkDocument {
  elements : list Element;
  classList : Element → list jsstring;
  getElementById : jsstring → option Element
}.

(** [document.getElementsByClassName(c)] *)
Definition getElementsByClassName (c : jsstring) (d : Document) : list Element :=
  filter (λ e, c ∈ classList d e) (elements d).

(** [e.classList.remove(c)] *)
Definition classList_remove (c : jsstring) (d : Document) (e : Element) : Document :=
  mkDocument (elements d)
    (λ x, if decide (x = e)
          then filter (λ t, t ≠ c) (classList d x)
          else classList d x)
    (getElementById d).

(** [e.classList.add(c)] *)
Definition classList_add (c : jsstring) (d : Document) (e : Element) : Document :=
  mkDocument (elements d)
    (λ x, if decide (x = e)
          then if decide (c ∈ classList d x) then classList d x
               else classList d x ++ [c]
          else classList d x)
    (getElementById d).

Definition tabLinks : Document → list Element :=
  getElementsByClassName (lit "tab-links").

Definition tabContents : Document → list Element :=
  getElementsByClassName (lit "tab-contents").

(** [opentab(tabname)], called from the handler of [currentTarget]: the
    document it leaves, and whether it returned or threw. *)
Definition opentab (currentTarget : Element) (tabname : jsstring) (d : Document)
    : Document * result unit :=
  let d := foldl (classList_remove (lit "active-link")) d (tabLinks d) in
  let d := foldl (classList_remove (lit "active-tab")) d (tabContents d) in
  let d := classList_add (lit "active-link") d currentTarget in
  match getElementById d tabname with
  | Some tab => (classList_add (lit "active-tab") d tab, Ok tt)
  | None => (d, Throw TypeError)
  end.

End Page.

(** ** Replies in JSON, for the examples *)

Module Sample.
Import Js Convex.

Definition quoted (s : jsstring) : jsstring := 34%N :: s ++ [34%N].

(** The text of the array with the one string eggs. *)
Definition eggs_text : jsstring := lit "[" ++ quoted (lit "eggs") ++ lit "]".

(** The text of an object with the one key ingredients, bound to that
    array. *)
Definition card_text : jsstring :=
  lit "{" ++ quoted (lit "ingredients") ++ lit ":" ++ eggs_text ++ lit "}".

(** The same with a second key, notes, bound to [null]. *)
Definition noted_card_text : jsstring :=
  lit "{" ++ quoted (lit "ingredients") ++ lit ":" ++ eggs_text ++ lit ","
  ++ quoted (lit "notes") ++ lit ":null}".

(** [JSON.parse] on these texts and on three more; it throws on every
    other text. *)
Definition parse (s : jsstring) : option value :=
  if decide (s = eggs_text) then Some (Arr [Str (lit "eggs")])
  else if decide (s = card_text)
  then Some (Obj [(lit "ingredients", Arr [Str (lit "eggs")])])
  else if decide (s = noted_card_text)
  then Some (Obj [(lit "ingredients", Arr [Str (lit "eggs")]); (lit "notes", Null)])
  else if decide (s = lit "[]") then Some (Arr [])
  else if decide (s = lit "{}") then Some (Obj [])
  else if decide (s = lit "null") then Some Null
  else None.

(** The inference client answers the two calls of an analysis with the
    texts [ingredients] and [recipes]. *)
Definition fridge_world (ingredients recipes : jsstring) : Fridge.World :=
  Fridge.mkWorld Example.file_url parse
    (λ _, Ok (Message (Some ingredients)))
    (λ _, Ok (Message (Some recipes))).

(** The second call is answered by [reply]. *)
Definition fridge_world_with (ingredients : jsstring) (reply : completion)
    : Fridge.World :=
  Fridge.mkWorld Example.file_url parse
    (λ _, Ok (Message (Some ingredients))) (λ _, Ok reply).

(** The inference client answers a scan with the text [content]. *)
Definition scan_world (content : jsstring) : Recipes.World :=
  Recipes.mkWorld Example.file_url parse (λ _, Ok (Message (Some content))).

(** The first call is answered with the text of the array with the one
    number 1, which [JSON.parse] reads; the second with a text that is
    not JSON. *)
Definition number_world : Fridge.World :=
  Fridge.mkWorld Example.file_url
    (λ s, if decide (s = lit "[1]") then Some (Arr [Num 1%Q]) else None)
    (λ _, Ok (Message (Some (lit "[1]"))))
    (λ _, Ok (Message (Some (lit "?")))).

(** An upload that succeeds and yields the storage id 7. *)
Definition upload_world : Client.World :=
  Client.mkWorld (lit "https://upload")
    (λ _ _, Some (true, Ok (Obj [(lit "storageId", Str (lit "7"))])))
    (λ _, Some 7).

(** A page with two tab links, 1 and 2, and two tab contents, 3 and 4,
    named a and b; the first link and the first content are active. *)
Definition page : Page.Document :=
  Page.mkDocument [1; 2; 3; 4]
    (λ e, match e with
          | 1 => [lit "tab-links"; lit "active-link"]
          | 2 => [lit "tab-links"]
          | 3 => [lit "tab-contents"; lit "active-tab"]
          | 4 => [lit "tab-contents"]
          | _ => []
          end)
    (λ id, if decide (id = lit "a") then Some 3
           else if decide (id = lit "b") then Some 4 else None).

End Sample.

(** * Proofs *)

(** ** Strings *)

Section StringFacts.
Import Js Spec.

Lemma drop_while_split {A} (p : A → bool) (l : list A) :
  ∃ pre, l = pre ++ drop_while p l ∧ Forall (λ x, p x = true) pre.
Proof.
  induction l as [|x l [pre [Hl Hpre]]]; simpl.
  - by exists [].
  - destruct (p x) eqn:Hx.
    + exists (x :: pre). split; [by rewrite Hl at 1 | by constructor].
    + by exists [].
Qed.

Lemma drop_while_head {A} (p : A → bool) (l : list A) x :
  head (drop_while p l) = Some x → p x = false.
Proof.
  induction l as [|y l IH]; simpl; [done|].
  destruct (p y) eqn:Hy; [done|]. simpl. by intros [= <-].
Qed.

Lemma drop_while_all {A} (p : A → bool) (l : list A) :
  Forall (λ x, p x = true) l → drop_while p l = [].
Proof. induction 1 as [|x l Hx _ IH]; simpl; [done|]. by rewrite Hx. Qed.

Lemma drop_while_nil_inv {A} (p : A → bool) (l : list A) :
  drop_while p l = [] → Forall (λ x, p x = true) l.
Proof.
  induction l as [|x l IH]; simpl; [constructor|].
  destruct (p x) eqn:Hx; [|done]. intros. constructor; auto.
Qed.

Lemma drop_while_app_all {A} (p : A → bool) (pre l : list A) :
  Forall (λ x, p x = true) pre → drop_while p (pre ++ l) = drop_while p l.
Proof. induction 1 as [|x pre Hx _ IH]; simpl; [done|]. by rewrite Hx. Qed.

Lemma drop_while_stop {A} (p : A → bool) (l : list A) :
  (∀ x, head l = Some x → p x = false) → drop_while p l = l.
Proof. destruct l as [|x l]; simpl; [done|]. intros H. by rewrite (H x). Qed.

(** [trim] removes white space at both ends and nothing else. *)
Lemma trim_decompose s :
  ∃ pre post, s = pre ++ trim s ++ post ∧ blank pre ∧ blank post
              ∧ trimmed (trim s).
Proof.
  unfold trim, trimEnd, trimStart.
  destruct (drop_while_split is_space s) as [pre [Hs Hpre]].
  set (t := drop_while is_space s) in *.
  destruct (drop_while_split is_space (reverse t)) as [post [Ht Hpost]].
  set (u := drop_while is_space (reverse t)) in *.
  assert (Htu : t = reverse u ++ reverse post).
  { rewrite <- reverse_app, <- Ht. by rewrite reverse_involutive. }
  exists pre, (reverse post). repeat split.
  - by rewrite <- Htu.
  - done.
  - unfold blank. by apply Forall_reverse.
  - intros c Hc. apply (drop_while_head is_space s). fold t.
    rewrite Htu. destruct (reverse u); [done|]. done.
  - intros c Hc. apply (drop_while_head is_space (reverse t)). fold u.
    rewrite last_reverse in Hc. done.
Qed.

Lemma trim_blank s : blank s → trim s = [].
Proof.
  intros H. unfold trim, trimStart, trimEnd.
  by rewrite (drop_while_all _ _ H).
Qed.

Lemma trim_nil_inv s : trim s = [] → blank s.
Proof.
  intros H. destruct (trim_decompose s) as (pre & post & Hs & Hpre & Hpost & _).
  rewrite H in Hs. rewrite Hs. simpl. unfold blank. by apply Forall_app.
Qed.

(** A trimmed string between two blank ones is what [trim] returns. *)
Lemma trim_unique pre entry post :
  blank pre → blank post → trimmed entry → trim (pre ++ entry ++ post) = entry.
Proof.
  intros Hpre Hpost [Hh Hl]. unfold trim, trimStart, trimEnd.
  rewrite drop_while_app_all by done.
  destruct entry as [|c entry].
  - simpl. rewrite (drop_while_all is_space post Hpost). done.
  - rewrite (drop_while_stop is_space ((c :: entry) ++ post)).
    2:{ simpl. intros x [= <-]. by apply Hh. }
    rewrite reverse_app. rewrite drop_while_app_all.
    2:{ by apply Forall_reverse. }
    rewrite drop_while_stop; [by rewrite reverse_involutive|].
    intros x Hx. apply Hl. by rewrite <- last_reverse, reverse_involutive in Hx.
Qed.
End StringFacts.

(** Case analysis on the comparisons of code units in the goal. *)
Ltac N_cases :=
  repeat (match goal with
          | |- context [N.leb ?a ?b] => destruct (N.leb_spec a b)
          | |- context [N.eqb ?a ?b] => destruct (N.eqb_spec a b)
          end; simpl; try lia).

Section SearchFacts.
Import Js Spec.

Lemma startsWith_spec s p : startsWith s p = true ↔ ∃ b, s = p ++ b.
Proof.
  revert s. induction p as [|a p IH]; intros s; simpl.
  - split; [intros _; by exists s | done].
  - destruct s as [|c s]; simpl.
    + split; [done | by intros [b ?]].
    + rewrite andb_true_iff, N.eqb_eq, IH. split.
      * intros [-> [b ->]]. by exists b.
      * intros [b [= -> ->]]. split; [done | by exists b].
Qed.

Lemma includes_spec s sub : includes s sub = true ↔ contains s sub.
Proof.
  unfold contains. induction s as [|c s IH]; simpl.
  - rewrite orb_false_r, startsWith_spec. split.
    + intros [b Hb]. by exists [], b.
    + intros (a & b & H). symmetry in H.
      apply app_eq_nil in H as [-> H]. apply app_eq_nil in H as [-> ->].
      by exists [].
  - rewrite orb_true_iff, IH, startsWith_spec. split.
    + intros [[b Hb] | (a & b & ->)].
      * by exists [], b.
      * by exists (c :: a), b.
    + intros ([|x a] & b & H); simpl in H.
      * left. by exists b.
      * right. injection H as -> ->. by exists a, b.
Qed.

Lemma includes_elem s k kw : includes s (k :: kw) = true → k ∈ s.
Proof.
  rewrite includes_spec. intros (a & b & ->). set_solver.
Qed.

Lemma toLowerCase_app a b : toLowerCase (a ++ b) = toLowerCase a ++ toLowerCase b.
Proof. unfold toLowerCase. apply bind_app. Qed.

(** A keyword of lower-case ASCII letters is found by
    [toLowerCase().includes] in whatever case it is written. *)
Lemma toLowerCase_same_letters v kw :
  Forall (λ k, 97 ≤ k ∧ k ≤ 122)%N kw → same_letters v kw → toLowerCase v = kw.
Proof.
  intros Hkw Hv. revert Hkw.
  induction Hv as [|c k v kw Hc _ IH]; intros Hkw; [done|].
  apply Forall_cons in Hkw as [Hk Hkw].
  change (toLowerCase (c :: v)) with (lower_unit c ++ toLowerCase v).
  rewrite IH by done. unfold lower_unit.
  destruct Hc as [-> | (_ & _ & ->)]; N_cases; try done.
  f_equal. f_equal. lia.
Qed.

Lemma includes_toLowerCase line v kw :
  Forall (λ k, 97 ≤ k ∧ k ≤ 122)%N kw → same_letters v kw →
  contains line v → includes (toLowerCase line) kw = true.
Proof.
  intros Hkw Hv (a & b & ->). apply includes_spec.
  exists (toLowerCase a), (toLowerCase b).
  by rewrite !toLowerCase_app, (toLowerCase_same_letters v kw).
Qed.

Lemma lower_unit_space c : is_space c = true → lower_unit c = [c].
Proof.
  unfold lower_unit. N_cases; try done; unfold is_space; N_cases; done.
Qed.

Lemma toLowerCase_blank s : blank s → toLowerCase s = s.
Proof.
  induction 1 as [|c s Hc _ IH]; [done|].
  change (toLowerCase (c :: s)) with (lower_unit c ++ toLowerCase s).
  by rewrite IH, lower_unit_space.
Qed.

(** A blank line holds none of the letters a search looks for. *)
Lemma blank_includes s kw k :
  blank s → head kw = Some k → is_space k = false → includes s kw = false.
Proof.
  intros Hs Hh Hk. destruct kw as [|k' kw]; [done|]. injection Hh as ->.
  destruct (includes s (k :: kw)) eqn:E; [|done].
  apply includes_elem in E. unfold blank in Hs.
  rewrite Forall_forall in Hs. apply Hs in E. congruence.
Qed.

(** The lines of [split] have no separator in them, and joined by the
    separator they give the text back. *)
Lemma split_nonempty sep s : split sep s ≠ [].
Proof.
  destruct s as [|c s]; simpl; [done|].
  destruct (c =? sep)%N; [done|]. by destruct (split sep s).
Qed.

Lemma split_no_sep sep s line : line ∈ split sep s → sep ∉ line.
Proof.
  revert line. induction s as [|c s IH]; intros line; simpl.
  - intros H%list_elem_of_singleton. subst. apply not_elem_of_nil.
  - destruct (N.eqb_spec c sep) as [->|Hne].
    + intros [->|H]%elem_of_cons; [apply not_elem_of_nil | by apply IH].
    + destruct (split sep s) as [|l ls] eqn:E.
      * intros H%list_elem_of_singleton. subst.
        intros Hin%list_elem_of_singleton. congruence.
      * intros [->|H]%elem_of_cons.
        -- intros [?|?]%elem_of_cons; [done|].
           eapply IH; [|done]. by left.
        -- apply IH. by right.
Qed.

Lemma join_split sep s : join sep (split sep s) = s.
Proof.
  induction s as [|c s IH]; simpl; [done|].
  destruct (N.eqb_spec c sep) as [->|Hne].
  - pose proof (split_nonempty sep s).
    destruct (split sep s) as [|l ls] eqn:E; [done|].
    simpl in *. by rewrite IH.
  - pose proof (split_nonempty sep s).
    destruct (split sep s) as [|l ls] eqn:E; [done|].
    destruct ls; simpl in *; by rewrite <- IH.
Qed.
End SearchFacts.

(** ** The string methods on small inputs *)

Example split_example :
  Js.split Js.LF (Js.lit "a" ++ [Js.LF] ++ Js.lit "b" ++ [Js.LF])
  = [Js.lit "a"; Js.lit "b"; []].
Proof. reflexivity. Qed.

Example trim_example : Js.trim (Js.lit "  2 cups flour ") = Js.lit "2 cups flour".
Proof. reflexivity. Qed.

Example toLowerCase_example : Js.toLowerCase (Js.lit "1 TBSP Sugar") = Js.lit "1 tbsp sugar".
Proof. reflexivity. Qed.

Example includes_example :
  Js.includes (Js.lit "Cook the pasta") (Js.lit "cook") = false
  ∧ Js.includes (Js.lit "then cook it") (Js.lit "cook") = true.
Proof. split; reflexivity. Qed.

Example fallback_ingredients_example :
  Fridge.fallback_ingredients
    (Js.lit "- eggs" ++ [Js.LF] ++ Js.lit "*" ++ [Js.LF] ++ [Js.bullet]
     ++ Js.lit "  milk " ++ [Js.LF] ++ Js.lit "  - bread" ++ [Js.LF]
     ++ Js.lit "2) jam")
  = [Js.lit "eggs"; Js.lit "milk"; Js.lit "- bread"; Js.lit "2) jam"].
Proof. reflexivity. Qed.

Example heuristic_ingredients_example :
  Recipes.heuristic_ingredients
    (Recipes.nonblank_lines
       (Js.lit "Pancakes" ++ [Js.LF] ++ Js.lit "1. 2 cups flour" ++ [Js.LF]
        ++ Js.lit "a Cup of milk" ++ [Js.LF] ++ Js.lit "-"))
  = [Js.lit "cups flour"; Js.lit "a Cup of milk"; []].
Proof. reflexivity. Qed.

Example remove_recipe_example :
  Js.trim (Recipes.remove_recipe (Js.lit "Pancake RECIPE: the best"))
  = Js.lit "Pancake  the best".
Proof. reflexivity. Qed.

(** ** The fridge fallback for a reply that is not JSON *)

Section FridgeFallback.
Import Js Convex Spec.

Lemma List_filter_stdpp {A} (f : A → bool) (P : A → Prop)
    `{∀ x, Decision (P x)} (l : list A) :
  (∀ x, f x = true ↔ P x) → List.filter f l = filter P l.
Proof.
  intros Hf. induction l as [|x l IH]; [done|].
  simpl. rewrite filter_cons, IH.
  destruct (f x) eqn:E; destruct (decide (P x)) as [HP|HP]; try done.
  - apply Hf in E. done.
  - apply Hf in HP. congruence.
Qed.

Lemma trim_trimStart s : trim (trimStart s) = trim s.
Proof.
  unfold trim, trimStart at 2. f_equal.
  unfold trimStart. destruct (drop_while is_space s) as [|c t] eqn:E; [done|].
  apply drop_while_stop. intros x [= <-].
  apply (drop_while_head is_space s). by rewrite E.
Qed.

(** The entry of a line is the one [entry_of] describes. *)
Lemma entry_of_line line :
  entry_of line (trim (Fridge.strip_bullet line)).
Proof.
  destruct line as [|b rest].
  - apply (entry_plain [] [] []); try done; try by constructor.
  - simpl. destruct (Fridge.is_bullet b) eqn:Hb.
    + change (drop_while is_space rest) with (trimStart rest).
      rewrite trim_trimStart.
      destruct (trim_decompose rest) as (pre & post & Hr & Hpre & Hpost & Ht).
      rewrite Hr at 1. by constructor.
    + destruct (trim_decompose (b :: rest)) as (pre & post & Hr & Hpre & Hpost & Ht).
      rewrite Hr at 1. constructor; try done.
      rewrite <- Hr. simpl. by intros ? [= <-].
Qed.

(** ... and no other. *)
Lemma entry_of_fun line entry :
  entry_of line entry → entry = trim (Fridge.strip_bullet line).
Proof.
  destruct 1 as [b ws entry ws' Hb Hws Hws' Ht | ws entry ws' Hh Hws Hws' Ht].
  - simpl. rewrite Hb. change (drop_while is_space ?s) with (trimStart s).
    by rewrite trim_trimStart, trim_unique.
  - assert (Fridge.strip_bullet (ws ++ entry ++ ws') = ws ++ entry ++ ws') as ->.
    { destruct (ws ++ entry ++ ws') as [|c l]; [done|].
      simpl. by rewrite (Hh c). }
    by rewrite trim_unique.
Qed.

Lemma entries_of_lines lines :
  Forall2 entry_of lines ((λ line, trim (Fridge.strip_bullet line)) <$> lines).
Proof. induction lines; constructor; [apply entry_of_line | done]. Qed.

Lemma entries_of_lines_fun lines entries :
  Forall2 entry_of lines entries →
  entries = (λ line, trim (Fridge.strip_bullet line)) <$> lines.
Proof.
  induction 1 as [|line entry lines entries H _ IH]; [done|].
  rewrite fmap_cons. f_equal; [by apply entry_of_fun | done].
Qed.

(** A line with a number marker keeps it. *)
Lemma numbered_line_kept line d :
  head line = Some d → is_digit d = true →
  trim (Fridge.strip_bullet line) = trim line ∧ head (trim line) = Some d.
Proof.
  intros Hd Hdig. destruct line as [|c rest]; [done|].
  injection Hd as ->.
  assert (Fridge.is_bullet d = false) as Hb.
  { revert Hdig. unfold is_digit, Fridge.is_bullet, dash, star, bullet.
    N_cases; done. }
  assert (is_space d = false) as Hs.
  { revert Hdig. unfold is_digit. N_cases; try done. intros _. unfold is_space. N_cases; done. }
  simpl. rewrite Hb. split; [done|].
  unfold trim, trimStart, trimEnd. simpl. rewrite Hs.
  rewrite reverse_cons.
  destruct (drop_while_split is_space (reverse rest ++ [d])) as [pre [E Hpre]].
  destruct (drop_while is_space (reverse rest ++ [d])) as [|x u] eqn:Eu.
  - rewrite app_nil_r in E. rewrite <- E in Hpre.
    rewrite Forall_app, Forall_singleton in Hpre. destruct Hpre as [_ Hd].
    congruence.
  - rewrite <- (reverse_involutive (x :: u)) at 1.
    rewrite head_reverse.
    assert (last (reverse rest ++ [d]) = Some d) as Hl by apply last_snoc.
    rewrite E in Hl. rewrite last_app in Hl. rewrite reverse_involutive.
    destruct (last (x :: u)) eqn:El; [done|]. by apply last_None in El.
Qed.
End FridgeFallback.

(** C3, as stated, fails: the fridge fallback strips a bullet, not a number
    marker. For the reply [1. eggs] the specification's wording gives the
    entry [eggs]; the handler keeps [1. eggs]. *)
Lemma fallback_keeps_number_marker :
  Fridge.fallback_ingredients (Js.lit "1. eggs") = [Js.lit "1. eggs"]
  ∧ Spec.fridge_fallback (Js.lit "1. eggs") = [Js.lit "eggs"]
  ∧ Fridge.fallback_ingredients (Js.lit "1. eggs")
    ≠ Spec.fridge_fallback (Js.lit "1. eggs").
Proof. split; [|split]; [vm_compute; reflexivity .. | by vm_compute]. Qed.

(** C3, amended: for a reply that is not JSON, the ingredients are the
    entries of the lines of the reply, the empty ones left out, up to the
    tenth; the entry of a line is the line without one bullet (-, *, •) at
    its very start and the white space after it, and without the white
    space at its ends. A number marker stays: the entry of a line that
    starts with a digit starts with that digit. *)
Theorem fallback_ingredients_entries (w : Fridge.World) (content : Js.jsstring) :
  Js.truthy content = true →
  Fridge.JSON_parse w content = None →
  ∃ entries,
    Fridge.parse_ingredients w (Convex.Message (Some content))
      = Convex.Ok (Js.Arr (Js.Str <$> Fridge.fallback_ingredients content))
    ∧ Forall2 Spec.entry_of (Js.split Js.LF content) entries
    ∧ (∀ entries', Forall2 Spec.entry_of (Js.split Js.LF content) entries' →
         entries' = entries)
    ∧ Fridge.fallback_ingredients content = take 10 (filter (λ e, e ≠ []) entries)
    ∧ length (Fridge.fallback_ingredients content) ≤ 10
    ∧ (∀ i line d, Js.split Js.LF content !! i = Some line →
         head line = Some d → Js.is_digit d = true →
         entries !! i = Some (Js.trim line) ∧ head (Js.trim line) = Some d).
Proof.
  intros Hc Hp.
  exists ((λ line, Js.trim (Fridge.strip_bullet line)) <$> Js.split Js.LF content).
  split; [|split; [|split; [|split; [|split]]]].
  - unfold Fridge.parse_ingredients. simpl. rewrite Hc. simpl. by rewrite Hp.
  - apply entries_of_lines.
  - apply entries_of_lines_fun.
  - unfold Fridge.fallback_ingredients, Js.slice0. f_equal.
    apply List_filter_stdpp. intros x. rewrite bool_decide_eq_true.
    destruct x; simpl; [split; [lia | done] | split; [done | lia]].
  - unfold Fridge.fallback_ingredients, Js.slice0. rewrite length_take. lia.
  - intros i line d Hi Hd Hdig.
    destruct (numbered_line_kept line d Hd Hdig) as [E Hh].
    split; [|done]. rewrite list_lookup_fmap, Hi. simpl. by rewrite E.
Qed.

Lemma fallback_ingredients_entries_witness :
  ∃ entries,
    Fridge.parse_ingredients (Example.fridge_world (Js.lit "- eggs") (Js.lit "?"))
      (Convex.Message (Some (Js.lit "- eggs")))
      = Convex.Ok (Js.Arr (Js.Str <$> Fridge.fallback_ingredients (Js.lit "- eggs")))
    ∧ Forall2 Spec.entry_of (Js.split Js.LF (Js.lit "- eggs")) entries.
Proof.
  destruct (fallback_ingredients_entries
              (Example.fridge_world (Js.lit "- eggs") (Js.lit "?"))
              (Js.lit "- eggs") eq_refl eq_refl)
    as (entries & H1 & H2 & _).
  exists entries. split; assumption.
Defined.

(** ** Objects and validators *)

Section ObjectFacts.
Import Js Convex.

Lemma obj_get_set k v fs : obj_get k (obj_set k v fs) = Some v.
Proof.
  induction fs as [|[k' v'] fs IH]; simpl.
  - by rewrite decide_True.
  - destruct (decide (k' = k)) as [->|Hne]; simpl.
    + by rewrite decide_True.
    + by rewrite decide_False.
Qed.

Lemma obj_get_set_ne k k' v fs :
  k ≠ k' → obj_get k' (obj_set k v fs) = obj_get k' fs.
Proof.
  intros Hne. induction fs as [|[k0 v0] fs IH]; simpl.
  - by rewrite decide_False.
  - destruct (decide (k0 = k)) as [->|Hne0]; simpl.
    + by rewrite !decide_False.
    + destruct (decide (k0 = k')); [done | apply IH].
Qed.

Lemma only_fields_set declared k v fs :
  k ∈ declared → only_fields declared (obj_set k v fs) = only_fields declared fs.
Proof.
  intros Hk. unfold only_fields.
  induction fs as [|[k0 v0] fs IH]; simpl.
  - by rewrite bool_decide_eq_true_2.
  - destruct (decide (k0 = k)) as [->|Hne]; simpl.
    + by rewrite !bool_decide_eq_true_2.
    + by rewrite IH.
Qed.

Lemma as_string_array_Str l : as_string_array (Arr (Str <$> l)) = Some l.
Proof.
  simpl. apply mapM_Some. induction l; constructor; done.
Qed.

Lemma as_string_array_inv v l :
  as_string_array v = Some l → v = Arr (Str <$> l).
Proof.
  destruct v as [| | | |xs|]; simpl; try done.
  intros H%mapM_Some. f_equal.
  induction H as [|x y xs l Hx _ IH]; [done|].
  rewrite fmap_cons, <- IH. f_equal. by destruct x; simplify_eq/=.
Qed.

Lemma is_zero_length n :
  is_zero (Some (Num (inject_Z (Z.of_nat n)))) = bool_decide (n = 0).
Proof. by destruct n. Qed.

Lemma length_of_strings l :
  length_of (Arr (Str <$> l)) = Ok (Some (Num (inject_Z (Z.of_nat (length l))))).
Proof. simpl. by rewrite length_fmap. Qed.
End ObjectFacts.

(** ** The recipe scan for a reply that is not JSON *)

Section RecipeHeuristics.
Import Js Convex Spec Recipes.

(** The object the heuristics build on the default skeleton. *)
Lemma heuristic_recipe_object content :
  ∃ name,
    heuristic_recipe content default_recipeData =
    [(lit "name", Str name);
     (lit "ingredients",
      Arr (Str <$> take 15 (heuristic_ingredients (nonblank_lines content))));
     (lit "instructions",
      Arr (Str <$> take 10 (heuristic_instructions (nonblank_lines content))));
     (lit "cookingTime", Str (lit "Unknown"));
     (lit "servings", Str (lit "Unknown"));
     (lit "difficulty", Str (lit "Medium"));
     (lit "category", Str (lit "Other"))].
Proof.
  unfold heuristic_recipe, slice0.
  set (lines := nonblank_lines content).
  destruct (heuristic_ingredients lines) as [|i1 il] eqn:Ei;
    destruct (heuristic_instructions lines) as [|s1 sl] eqn:Es;
    destruct (List.find is_name_line lines) as [nameMatch|];
    try destruct (truthy nameMatch);
    eexists; reflexivity.
Qed.

Lemma as_recipeData_heuristic name ingredients instructions :
  as_recipeData
    [(lit "name", Str name);
     (lit "ingredients", Arr (Str <$> ingredients));
     (lit "instructions", Arr (Str <$> instructions));
     (lit "cookingTime", Str (lit "Unknown"));
     (lit "servings", Str (lit "Unknown"));
     (lit "difficulty", Str (lit "Medium"));
     (lit "category", Str (lit "Other"))]
  = Some (RecipeData.mk name ingredients instructions
            (Some (lit "Unknown")) (Some (lit "Unknown"))
            (Some (lit "Medium")) (Some (lit "Other"))).
Proof.
  unfold as_recipeData.
  change (only_fields recipeData_fields _) with true. cbv iota.
  change (obj_get (lit "name") _) with (Some (Str name)).
  change (obj_get (lit "ingredients") _) with (Some (Arr (Str <$> ingredients))).
  change (obj_get (lit "instructions") _) with (Some (Arr (Str <$> instructions))).
  change (obj_get (lit "cookingTime") _) with (Some (Str (lit "Unknown"))).
  change (obj_get (lit "servings") _) with (Some (Str (lit "Unknown"))).
  change (obj_get (lit "difficulty") _) with (Some (Str (lit "Medium"))).
  change (obj_get (lit "category") _) with (Some (Str (lit "Other"))).
  cbn [mbind option_bind as_string as_optional_string fmap option_fmap option_map].
  rewrite !as_string_array_Str. reflexivity.
Qed.
End RecipeHeuristics.

(** One goal for each keyword of the list [H] says a keyword is in. *)
Ltac each_keyword H :=
  unfold Spec.unit_keywords, Spec.action_verbs in H;
  repeat (apply elem_of_cons in H as [->|H]);
  [.. | by apply elem_of_nil in H].

Section RecipeRules.
Import Js Convex Spec Recipes.

Lemma is_marker_spec c :
  is_marker c = true ↔ is_digit c = true ∨ c = bullet ∨ c = dash ∨ c = star.
Proof.
  unfold is_marker. rewrite !orb_true_iff, !N.eqb_eq. tauto.
Qed.

(** The callback of the ingredient filter decides the rule of the
    specification from left to right. *)
Lemma ingredient_rule_matches line :
  ingredient_rule line → is_ingredient_line line = true.
Proof.
  unfold is_ingredient_line.
  intros [(c & Hc & Hm) | (kw & v & Hkw & Hv & Hin)].
  - destruct (trim line) as [|c' t]; [done|]. injection Hc as ->.
    simpl. apply is_marker_spec in Hm. by rewrite Hm.
  - assert (Forall (λ k, 97 ≤ k ∧ k ≤ 122)%N kw) as Hlow.
    { each_keyword Hkw; cbn; repeat constructor; lia. }
    pose proof (includes_toLowerCase line v kw Hlow Hv Hin) as Hi.
    each_keyword Hkw; rewrite Hi; by rewrite ?orb_true_r.
Qed.

Lemma instruction_rule_matches line :
  instruction_rule line ↔ is_instruction_line line = true.
Proof.
  unfold instruction_rule, is_instruction_line, action_verbs.
  rewrite andb_true_iff, bool_decide_eq_true, !orb_true_iff, !includes_spec.
  split.
  - intros [Hlen (kw & Hkw & Hin)]. split; [done|].
    each_keyword Hkw; tauto.
  - intros [Hlen H]. split; [done|].
    destruct H as [[[[[H|H]|H]|H]|H]|H];
      eexists; (split; [|exact H]); set_solver.
Qed.

(** A line either filter keeps is not blank, so it is one of [lines]. *)
Lemma ingredient_line_nonblank line :
  is_ingredient_line line = true → truthy (trim line) = true.
Proof.
  unfold is_ingredient_line. intros H.
  destruct (trim line) as [|c t] eqn:E; [|done].
  apply trim_nil_inv in E.
  rewrite (toLowerCase_blank line E) in H.
  repeat match type of H with
         | context [includes line ?kw] =>
             rewrite (blank_includes line kw _ E eq_refl eq_refl) in H
         end.
  done.
Qed.

Lemma instruction_line_nonblank line :
  is_instruction_line line = true → truthy (trim line) = true.
Proof.
  unfold is_instruction_line. intros H.
  destruct (trim line) as [|c t] eqn:E; [|done].
  apply trim_nil_inv in E.
  repeat match type of H with
         | context [includes line ?kw] =>
             rewrite (blank_includes line kw _ E eq_refl eq_refl) in H
         end.
  by rewrite andb_false_r in H.
Qed.

Lemma ingredient_line_extracted content line :
  line ∈ split LF content → is_ingredient_line line = true →
  trim (strip_markers line) ∈ heuristic_ingredients (nonblank_lines content).
Proof.
  intros Hin Hm. unfold heuristic_ingredients, nonblank_lines.
  apply (list_elem_of_fmap_2 (λ l, trim (strip_markers l))).
  apply list_elem_of_In, filter_In. split; [|done].
  apply filter_In. split; [by apply list_elem_of_In|].
  by apply ingredient_line_nonblank.
Qed.

Lemma instruction_line_extracted content line :
  line ∈ split LF content →
  is_instruction_line line = true ↔
  line ∈ heuristic_instructions (nonblank_lines content).
Proof.
  intros Hin. unfold heuristic_instructions, nonblank_lines.
  rewrite list_elem_of_In, !filter_In, <- list_elem_of_In. split.
  - intros Hm. split; [|done]. split; [done|].
    by apply instruction_line_nonblank.
  - by intros [_ ?].
Qed.

Lemma take_nonempty {A} n (l : list A) x : x ∈ l → 0 < n → take n l ≠ [].
Proof. intros Hx Hn. destruct l; [by apply elem_of_nil in Hx|]. by destruct n; [lia|]. Qed.

Lemma nothing_extracted_heuristic name ingredients instructions :
  nothing_extracted
    [(lit "name", Str name);
     (lit "ingredients", Arr (Str <$> ingredients));
     (lit "instructions", Arr (Str <$> instructions));
     (lit "cookingTime", Str (lit "Unknown"));
     (lit "servings", Str (lit "Unknown"));
     (lit "difficulty", Str (lit "Medium"));
     (lit "category", Str (lit "Other"))]
  = Ok (bool_decide (ingredients = []) && bool_decide (instructions = [])).
Proof.
  unfold nothing_extracted, property_length.
  change (obj_get (lit "ingredients") _) with (Some (Arr (Str <$> ingredients))).
  change (obj_get (lit "instructions") _) with (Some (Arr (Str <$> instructions))).
  cbv iota. rewrite !length_of_strings. cbn [mbind result_bind].
  rewrite is_zero_length.
  destruct ingredients; [|reflexivity].
  cbn [length bool_decide decide_rel]. rewrite bool_decide_eq_true_2 by done.
  cbn [mbind result_bind]. rewrite is_zero_length.
  destruct instructions; reflexivity.
Qed.
End RecipeRules.

(** ** The document store *)

Section DatabaseFacts.
Import Convex.
Context {D : Type}.
Implicit Types (t : table D) (id : Id) (upd : D → D).

Lemma db_patch_Some t id upd d :
  db_get t id = Some d →
  db_patch t id upd
  = Ok (Table (<[id := Document (_creationTime d) (upd (fields d))]> (docs t))
          (counter t)).
Proof. unfold db_get, db_patch. by intros ->. Qed.

Lemma db_patch_None t id upd :
  db_get t id = None → db_patch t id upd = Throw DocumentNotFound.
Proof. unfold db_get, db_patch. by intros ->. Qed.

(** A patch writes one document, keeps its creation time, and neither
    adds nor removes an id. *)
Lemma db_patch_get t t' id upd id' :
  db_patch t id upd = Ok t' →
  db_get t' id' =
    if decide (id' = id)
    then (λ d, Document (_creationTime d) (upd (fields d))) <$> db_get t id
    else db_get t id'.
Proof.
  unfold db_patch, db_get. destruct (docs t !! id) as [d|] eqn:E; [|done].
  intros [= <-]. simpl. destruct (decide (id' = id)) as [->|Hne].
  - by rewrite lookup_insert_eq.
  - by rewrite lookup_insert_ne.
Qed.

Lemma db_patch_counter t t' id upd :
  db_patch t id upd = Ok t' → counter t' = counter t.
Proof.
  unfold db_patch. destruct (docs t !! id); [|done]. by intros [= <-].
Qed.
End DatabaseFacts.

(** ** The recipe scan task *)

Section RecipeTask.
Import Js Convex Spec Recipes.

Lemma processRecipeImage_catch_eq args st :
  processRecipeImage_catch args st
  = updateScannedRecipe (recipeId args)
      (RecipeData.mk (lit "Scan Failed") [] [] None None None None) failed st.
Proof. reflexivity. Qed.

(** With the document in the table, the [catch] block stores the failure
    record and returns. *)
Lemma processRecipeImage_catch_Some args st d :
  db_get (scannedRecipes st) (recipeId args) = Some d →
  processRecipeImage_catch args st
  = Ok (mkBackend
          (Table (<[recipeId args :=
                      Document (_creationTime d) (scan_failure (fields d))]>
                    (docs (scannedRecipes st)))
                 (counter (scannedRecipes st)))
          (scheduled st)).
Proof.
  intros Hd. rewrite processRecipeImage_catch_eq. unfold updateScannedRecipe.
  by rewrite (db_patch_Some _ _ _ d Hd).
Qed.

(** The [try] block on a reply that is not JSON. *)
Lemma scan_heuristic w args url content :
  getUrl w (storageId args) = Some url → truthy url = true →
  recipe_completion w url = Ok (Message (Some content)) →
  truthy content = true → JSON_parse w content = None →
  let ingredients := take 15 (heuristic_ingredients (nonblank_lines content)) in
  let instructions := take 10 (heuristic_instructions (nonblank_lines content)) in
  ∃ name,
    scan w args =
      (if bool_decide (ingredients = []) && bool_decide (instructions = [])
       then Throw (Error "No recipe information could be extracted from the image")
       else Ok (heuristic_recipe content default_recipeData))
    ∧ as_recipeData (heuristic_recipe content default_recipeData)
      = Some (RecipeData.mk name ingredients instructions
                (Some (lit "Unknown")) (Some (lit "Unknown"))
                (Some (lit "Medium")) (Some (lit "Other"))).
Proof.
  intros Hu Hut Hr Hc Hp ingredients instructions.
  destruct (heuristic_recipe_object content) as [name E].
  exists name. split.
  - unfold scan. rewrite Hu, Hut. cbn [mbind result_bind]. rewrite Hr.
    cbn [mbind result_bind]. unfold parse_recipe.
    cbn [content_of mbind result_bind truthy_opt default from_option id].
    rewrite Hc, Hp. cbn [try_catch mbind result_bind].
    rewrite E at 1. rewrite nothing_extracted_heuristic.
    cbn [mbind result_bind]. fold ingredients instructions.
    by destruct (bool_decide (ingredients = []) && bool_decide (instructions = [])).
  - rewrite E. apply as_recipeData_heuristic.
Qed.
End RecipeTask.

Section RecipeHeuristicScan.
Import Js Convex Spec Recipes.

(** What a scan stores for a reply that is not JSON. *)
Lemma processRecipeImage_heuristic w args st d url content :
  db_get (scannedRecipes st) (recipeId args) = Some d →
  getUrl w (storageId args) = Some url → truthy url = true →
  recipe_completion w url = Ok (Message (Some content)) →
  truthy content = true → JSON_parse w content = None →
  let ingredients := take 15 (heuristic_ingredients (nonblank_lines content)) in
  let instructions := take 10 (heuristic_instructions (nonblank_lines content)) in
  ∃ name,
    fields <$> db_get (scannedRecipes (processRecipeImage w args st).1) (recipeId args)
    = Some (if bool_decide (ingredients = []) && bool_decide (instructions = [])
            then scan_failure (fields d)
            else mkScannedRecipe (userId (fields d)) (imageId (fields d))
                   name ingredients instructions
                   (Some (lit "Unknown")) (Some (lit "Unknown"))
                   (Some (lit "Medium")) (Some (lit "Other")) completed).
Proof.
  intros Hd Hu Hut Hr Hc Hp ingredients instructions.
  destruct (scan_heuristic w args url content Hu Hut Hr Hc Hp)
    as (name & Hscan & Hvalid).
  fold ingredients instructions in Hscan, Hvalid.
  exists name. unfold processRecipeImage, processRecipeImage_try.
  rewrite Hscan.
  destruct (bool_decide (ingredients = []) && bool_decide (instructions = [])).
  - cbn [mbind result_bind].
    rewrite (processRecipeImage_catch_Some args st d Hd).
    unfold db_get. simpl. by rewrite lookup_insert_eq.
  - cbn [mbind result_bind]. unfold run_updateScannedRecipe.
    rewrite Hvalid. unfold updateScannedRecipe.
    rewrite (db_patch_Some _ _ _ d Hd). cbn [mbind result_bind].
    unfold db_get. simpl. by rewrite lookup_insert_eq.
Qed.

Lemma two_cups_flour :
  is_ingredient_line (lit "2 cups flour") = true
  ∧ includes (toLowerCase (lit "2 cups flour")) (lit "cup") = true
  ∧ trim (strip_markers (lit "2 cups flour")) = lit "cups flour".
Proof. by vm_compute. Qed.
End RecipeHeuristicScan.

(** C4, as stated, fails in its example: the scan of the reply
    [2 cups flour] stores the ingredient [cups flour]; the line
    [2 cups flour] itself is not among the stored ingredients, its leading
    digit and the space after it are stripped as a marker. *)
Lemma two_cups_flour_stripped :
  let w := Example.scan_world (Js.lit "2 cups flour") in
  let st' := (Recipes.processRecipeImage w Example.scan_job Example.one_scan).1 in
  (Recipes.ingredients ∘ Convex.fields)
    <$> Convex.db_get (Recipes.scannedRecipes st') 0
  = Some [Js.lit "cups flour"]
  ∧ Js.lit "2 cups flour" ∉ [Js.lit "cups flour"].
Proof.
  split; [by vm_compute|].
  intros H%list_elem_of_singleton. vm_compute in H. discriminate.
Qed.

(** C4, amended: for a reply that is not JSON, a line under the ingredient
    rule (a leading digit, bullet, dash or star, or one of cup, tbsp, tsp
    in any letter case) makes the stored ingredients non-empty, and a line
    under the instruction rule (longer than 20, with one of the six verbs
    in lower case) makes the stored instructions non-empty; at most 15
    ingredients and 10 instructions are stored. The line [2 cups flour] is
    matched by the unit-keyword rule and is extracted with its leading
    marker stripped, as [cups flour], which is stored when no more than 15
    ingredient lines were extracted. *)
Theorem heuristic_scan_nonempty (w : Recipes.World) (args : Recipes.Job)
    (st : Recipes.Backend) (d : Convex.document Recipes.ScannedRecipe)
    (url content : Js.jsstring) :
  Convex.db_get (Recipes.scannedRecipes st) (Recipes.recipeId args) = Some d →
  Recipes.getUrl w (Recipes.storageId args) = Some url → Js.truthy url = true →
  Recipes.recipe_completion w url = Convex.Ok (Convex.Message (Some content)) →
  Js.truthy content = true → Recipes.JSON_parse w content = None →
  ∃ r,
    Convex.fields
      <$> Convex.db_get
            (Recipes.scannedRecipes (Recipes.processRecipeImage w args st).1)
            (Recipes.recipeId args) = Some r
    ∧ length (Recipes.ingredients r) ≤ 15
    ∧ length (Recipes.instructions r) ≤ 10
    ∧ (∀ line, line ∈ Js.split Js.LF content → Spec.ingredient_rule line →
         Recipes.ingredients r ≠ [] ∧ Recipes.scanStatus r = Convex.completed)
    ∧ (∀ line, line ∈ Js.split Js.LF content → Spec.instruction_rule line →
         Recipes.instructions r ≠ [] ∧ Recipes.scanStatus r = Convex.completed)
    ∧ (Js.lit "2 cups flour" ∈ Js.split Js.LF content →
         Js.includes (Js.toLowerCase (Js.lit "2 cups flour")) (Js.lit "cup") = true
         ∧ Js.lit "cups flour"
             ∈ Recipes.heuristic_ingredients (Recipes.nonblank_lines content)
         ∧ (length (Recipes.heuristic_ingredients (Recipes.nonblank_lines content)) ≤ 15 →
            Js.lit "cups flour" ∈ Recipes.ingredients r)).
Proof.
  intros Hd Hu Hut Hr Hc Hp.
  destruct (processRecipeImage_heuristic w args st d url content Hd Hu Hut Hr Hc Hp)
    as [name Hst].
  set (extracted := Recipes.heuristic_ingredients (Recipes.nonblank_lines content)) in *.
  set (steps := Recipes.heuristic_instructions (Recipes.nonblank_lines content)) in *.
  assert (Hing : ∀ line, line ∈ Js.split Js.LF content → Spec.ingredient_rule line →
                 take 15 extracted ≠ []).
  { intros line Hin Hrule. apply ingredient_rule_matches in Hrule.
    eapply take_nonempty; [by apply ingredient_line_extracted | lia]. }
  assert (Hins : ∀ line, line ∈ Js.split Js.LF content → Spec.instruction_rule line →
                 take 10 steps ≠ []).
  { intros line Hin Hrule. apply instruction_rule_matches in Hrule.
    eapply take_nonempty; [by apply instruction_line_extracted | lia]. }
  eexists. split; [exact Hst|].
  destruct (decide (take 15 extracted = [])) as [E1|E1];
    destruct (decide (take 10 steps = [])) as [E2|E2];
    rewrite ?(bool_decide_eq_true_2 _ E1), ?(bool_decide_eq_false_2 _ E1),
            ?(bool_decide_eq_true_2 _ E2), ?(bool_decide_eq_false_2 _ E2);
    cbn [andb Recipes.ingredients Recipes.instructions Recipes.scanStatus
         Spec.scan_failure length];
    rewrite ?length_take;
    (split; [lia|]); (split; [lia|]);
    (split; [intros line Hin Hrule; try (by destruct (Hing line Hin Hrule)); done|]);
    (split; [intros line Hin Hrule; try (by destruct (Hins line Hin Hrule)); done|]);
    intros Hin; destruct two_cups_flour as (Hm & Hcup & Hstrip);
    pose proof (ingredient_line_extracted content _ Hin Hm) as Hex;
    rewrite Hstrip in Hex; fold extracted in Hex;
    (split; [done|]); (split; [done|]); intros Hlen;
    try (by rewrite take_ge in E1 by done; rewrite E1 in Hex; apply elem_of_nil in Hex);
    by rewrite take_ge by done.
Qed.

Lemma heuristic_scan_nonempty_witness :
  ∃ r,
    Convex.fields
      <$> Convex.db_get
            (Recipes.scannedRecipes
               (Recipes.processRecipeImage (Example.scan_world (Js.lit "2 cups flour"))
                  Example.scan_job Example.one_scan).1) 0 = Some r
    ∧ length (Recipes.ingredients r) ≤ 15.
Proof.
  destruct (heuristic_scan_nonempty (Example.scan_world (Js.lit "2 cups flour"))
              Example.scan_job Example.one_scan
              (Convex.Document 0
                 (Recipes.mkScannedRecipe 1 0 [] [] [] None None None None
                    Convex.processing))
              (Js.lit "https://files/0") (Js.lit "2 cups flour")
              eq_refl eq_refl eq_refl eq_refl eq_refl eq_refl)
    as (r & H1 & H2 & _).
  exists r. split; assumption.
Defined.

(** ** Letter case in the recipe heuristics *)

Section LetterCase.
Import Js Convex Spec Recipes.

Lemma pasta_line_only_capitalized :
  20 < length Example.pasta_line ∧ only_capitalized Example.pasta_line.
Proof.
  split; [vm_compute; lia|]. split.
  - exists (lit "cook"). split; [by left|].
    by exists [], (lit " the pasta until it is al dente.").
  - intros kw Hkw Hin. apply includes_spec in Hin.
    each_keyword Hkw; by vm_compute in Hin.
Qed.
End LetterCase.

(** C10: in the heuristics of the recipe scan the action verbs are looked
    for as written, in lower case, and the unit keywords in any letter
    case. A line whose action verbs are all capitalized, however long, is
    not extracted as an instruction, and is in no stored instruction list;
    "Cook the pasta until it is al dente." is such a line. A line with cup,
    tbsp or tsp in any letter case is matched by the ingredient filter and
    extracted. *)
Theorem keyword_letter_case (content line : Js.jsstring) :
  line ∈ Js.split Js.LF content →
  (Spec.only_capitalized line →
     Recipes.is_instruction_line line = false
     ∧ (line ∉ Recipes.heuristic_instructions (Recipes.nonblank_lines content))
     ∧ (∀ w args st d url r,
         Convex.db_get (Recipes.scannedRecipes st) (Recipes.recipeId args) = Some d →
         Recipes.getUrl w (Recipes.storageId args) = Some url → Js.truthy url = true →
         Recipes.recipe_completion w url = Convex.Ok (Convex.Message (Some content)) →
         Js.truthy content = true → Recipes.JSON_parse w content = None →
         Convex.fields
           <$> Convex.db_get
                 (Recipes.scannedRecipes (Recipes.processRecipeImage w args st).1)
                 (Recipes.recipeId args) = Some r →
         line ∉ Recipes.instructions r))
  ∧ (∀ kw v, kw ∈ Spec.unit_keywords → Spec.same_letters v kw →
       Spec.contains line v →
       Recipes.is_ingredient_line line = true
       ∧ Js.trim (Recipes.strip_markers line)
           ∈ Recipes.heuristic_ingredients (Recipes.nonblank_lines content))
  ∧ 20 < length Example.pasta_line
  ∧ Spec.only_capitalized Example.pasta_line.
Proof.
  intros Hline. split; [|split; [|apply pasta_line_only_capitalized]].
  - intros [_ Hnone].
    assert (Recipes.is_instruction_line line = false) as Hno.
    { destruct (Recipes.is_instruction_line line) eqn:E; [|done].
      apply instruction_rule_matches in E as [_ (kw & Hkw & Hin)].
      by destruct (Hnone kw Hkw). }
    assert (line ∉ Recipes.heuristic_instructions (Recipes.nonblank_lines content)) as Hout.
    { intros Hin. apply instruction_line_extracted in Hin; [congruence | done]. }
    split; [done|]. split; [done|].
    intros w args st d url r Hd Hu Hut Hr Hc Hp Hst.
    destruct (processRecipeImage_heuristic w args st d url content Hd Hu Hut Hr Hc Hp)
      as [name Hst'].
    rewrite Hst' in Hst. injection Hst as <-.
    destruct (_ && _); simpl; [apply not_elem_of_nil|].
    intros Hin. apply Hout. eapply subseteq_take, Hin.
  - intros kw v Hkw Hv Hin.
    assert (Recipes.is_ingredient_line line = true) as Hm.
    { apply ingredient_rule_matches. right. by exists kw, v. }
    split; [done|]. by apply ingredient_line_extracted.
Qed.

Lemma keyword_letter_case_witness :
  Recipes.is_instruction_line Example.pasta_line = false
  ∧ Recipes.is_ingredient_line (Js.lit "1 TBSP butter") = true.
Proof.
  destruct (keyword_letter_case Example.pasta_line Example.pasta_line
              ltac:(vm_compute; by left)) as (H1 & _ & H3 & H4).
  destruct (keyword_letter_case (Js.lit "1 TBSP butter") (Js.lit "1 TBSP butter")
              ltac:(vm_compute; by left)) as (_ & H2 & _).
  split.
  - exact (proj1 (H1 H4)).
  - refine (proj1 (H2 (Js.lit "tbsp") (Js.lit "TBSP") _ _ _)).
    + apply elem_of_cons. right. apply elem_of_cons. by left.
    + change (Forall2 (λ c k, c = k ∨ (97 ≤ k ∧ k ≤ 122 ∧ c = k - 32)%N)
                [84; 66; 83; 80]%N [116; 98; 115; 112]%N).
      repeat (constructor; [right; lia|]). constructor.
    + by exists (Js.lit "1 "), (Js.lit " butter").
Defined.

(** ** The fridge analysis task *)

Section FridgeTask.
Import Js Convex Spec Fridge.

Lemma processImage_catch_eq args st :
  processImage_catch args st = updateAnalysis (analysisId args) [] [] failed st.
Proof. reflexivity. Qed.

Lemma updateAnalysis_Some id ingredients recipes status st d :
  db_get (fridgeAnalyses st) id = Some d →
  updateAnalysis id ingredients recipes status st
  = Ok (mkBackend
          (Table (<[id := Document (_creationTime d)
                            (mkAnalysis (userId (fields d)) (imageId (fields d))
                               ingredients recipes status)]>
                    (docs (fridgeAnalyses st)))
                 (counter (fridgeAnalyses st)))
          (scheduled st)).
Proof.
  intros Hd. unfold updateAnalysis. by rewrite (db_patch_Some _ _ _ d Hd).
Qed.

Lemma updateAnalysis_None id ingredients recipes status st :
  db_get (fridgeAnalyses st) id = None →
  updateAnalysis id ingredients recipes status st = Throw DocumentNotFound.
Proof.
  intros Hd. unfold updateAnalysis. by rewrite (db_patch_None _ _ _ Hd).
Qed.

(** Every path of the action ends in at most one write: the document of
    the job, with a terminal status. *)
Lemma processImage_effect w args st :
  let st' := (processImage w args st).1 in
  st' = st
  ∨ ∃ d ingredients recipes status,
      db_get (fridgeAnalyses st) (analysisId args) = Some d
      ∧ terminal status = true
      ∧ st' = mkBackend
                (Table (<[analysisId args :=
                            Document (_creationTime d)
                              (mkAnalysis (userId (fields d)) (imageId (fields d))
                                 ingredients recipes status)]>
                          (docs (fridgeAnalyses st)))
                       (counter (fridgeAnalyses st)))
                (scheduled st).
Proof.
  destruct (db_get (fridgeAnalyses st) (analysisId args)) as [d|] eqn:Hd.
  - right. exists d. unfold processImage, processImage_try.
    destruct (analyse w args) as [[ingredients recipes]|e]; cbn [mbind result_bind].
    + unfold run_updateAnalysis.
      destruct (as_string_array ingredients) as [ings|];
        [destruct (as_recipe_array recipes) as [recs|]|].
      * rewrite (updateAnalysis_Some _ _ _ _ _ d Hd). by exists ings, recs, completed.
      * rewrite processImage_catch_eq, (updateAnalysis_Some _ _ _ _ _ d Hd).
        by exists [], [], failed.
      * rewrite processImage_catch_eq, (updateAnalysis_Some _ _ _ _ _ d Hd).
        by exists [], [], failed.
    + rewrite processImage_catch_eq, (updateAnalysis_Some _ _ _ _ _ d Hd).
      by exists [], [], failed.
  - left. unfold processImage, processImage_try.
    rewrite processImage_catch_eq, (updateAnalysis_None _ _ _ _ _ Hd).
    destruct (analyse w args) as [[ingredients recipes]|e]; cbn [mbind result_bind];
      [|done].
    unfold run_updateAnalysis.
    destruct (as_string_array ingredients) as [ings|];
      [destruct (as_recipe_array recipes) as [recs|]|]; try done.
    by rewrite (updateAnalysis_None _ _ _ _ _ Hd).
Qed.


End FridgeTask.

Section RecipeTaskEffect.
Import Js Convex Spec Recipes.

Lemma updateScannedRecipe_Some id recipeData status st d :
  db_get (scannedRecipes st) id = Some d →
  updateScannedRecipe id recipeData status st
  = Ok (mkBackend
          (Table (<[id := Document (_creationTime d)
                            (mkScannedRecipe (userId (fields d)) (imageId (fields d))
                               (RecipeData.name recipeData)
                               (RecipeData.ingredients recipeData)
                               (RecipeData.instructions recipeData)
                               (RecipeData.cookingTime recipeData)
                               (RecipeData.servings recipeData)
                               (RecipeData.difficulty recipeData)
                               (RecipeData.category recipeData) status)]>
                    (docs (scannedRecipes st)))
                 (counter (scannedRecipes st)))
          (scheduled st)).
Proof.
  intros Hd. unfold updateScannedRecipe. by rewrite (db_patch_Some _ _ _ d Hd).
Qed.

Lemma updateScannedRecipe_None id recipeData status st :
  db_get (scannedRecipes st) id = None →
  updateScannedRecipe id recipeData status st = Throw DocumentNotFound.
Proof.
  intros Hd. unfold updateScannedRecipe. by rewrite (db_patch_None _ _ _ Hd).
Qed.

(** Every path of the action ends in at most one write: the document of
    the job, with a terminal status; none when the document is gone. *)
Lemma processRecipeImage_effect w args st :
  let st' := (processRecipeImage w args st).1 in
  st' = st
  ∨ ∃ d r,
      db_get (scannedRecipes st) (recipeId args) = Some d
      ∧ terminal (scanStatus r) = true
      ∧ userId r = userId (fields d) ∧ imageId r = imageId (fields d)
      ∧ st' = mkBackend
                (Table (<[recipeId args := Document (_creationTime d) r]>
                          (docs (scannedRecipes st)))
                       (counter (scannedRecipes st)))
                (scheduled st).
Proof.
  destruct (db_get (scannedRecipes st) (recipeId args)) as [d|] eqn:Hd.
  - right. exists d. unfold processRecipeImage, processRecipeImage_try.
    destruct (scan w args) as [recipeData|e]; cbn [mbind result_bind].
    + unfold run_updateScannedRecipe.
      destruct (as_recipeData recipeData) as [rd|].
      * rewrite (updateScannedRecipe_Some _ _ _ _ d Hd). eexists.
        split; [done|]. refine (conj _ (conj _ (conj _ eq_refl))); reflexivity.
      * rewrite (processRecipeImage_catch_Some args st d Hd). eexists.
        split; [done|]. refine (conj _ (conj _ (conj _ eq_refl))); reflexivity.
    + rewrite (processRecipeImage_catch_Some args st d Hd). eexists.
      split; [done|]. refine (conj _ (conj _ (conj _ eq_refl))); reflexivity.
  - left. unfold processRecipeImage, processRecipeImage_try.
    rewrite processRecipeImage_catch_eq, (updateScannedRecipe_None _ _ _ _ Hd).
    destruct (scan w args) as [recipeData|e]; cbn [mbind result_bind]; [|done].
    unfold run_updateScannedRecipe.
    destruct (as_recipeData recipeData) as [rd|]; [|done].
    by rewrite (updateScannedRecipe_None _ _ _ _ Hd).
Qed.

(** With the document in the table the action returns; when its [try]
    block throws, the failure record is stored. *)
Lemma processRecipeImage_caught w args st d :
  db_get (scannedRecipes st) (recipeId args) = Some d →
  (processRecipeImage w args st).2 = Ok tt
  ∧ (∀ e, processRecipeImage_try w args st = Throw e →
       processRecipeImage w args st
       = (mkBackend
            (Table (<[recipeId args :=
                        Document (_creationTime d) (scan_failure (fields d))]>
                      (docs (scannedRecipes st)))
                   (counter (scannedRecipes st)))
            (scheduled st), Ok tt)).
Proof.
  intros Hd. unfold processRecipeImage. split.
  - destruct (processRecipeImage_try w args st); [done|].
    by rewrite (processRecipeImage_catch_Some args st d Hd).
  - intros e ->. by rewrite (processRecipeImage_catch_Some args st d Hd).
Qed.
End RecipeTaskEffect.

(** ** Reachable deployments *)

Section Consistency.
Import Js Convex Spec App.

(** The other jobs of a queue without duplicates are for other ids. *)
Lemma other_jobs {J} (f : J → Id) (l : list J) i x y :
  NoDup (f <$> l) → l !! i = Some x → y ∈ delete i l → f y ≠ f x.
Proof.
  intros Hnd Hi Hy.
  rewrite <- (take_drop_middle l i x Hi) in Hnd.
  rewrite fmap_app, fmap_cons in Hnd.
  apply NoDup_app in Hnd as (_ & Hl & Hr). apply NoDup_cons in Hr as [Hr _].
  rewrite delete_take_drop in Hy. apply elem_of_app in Hy as [Hy|Hy].
  - intros E. apply (Hl (f y)); [by apply list_elem_of_fmap_2|].
    rewrite E. by left.
  - intros E. apply Hr. rewrite <- E. by apply list_elem_of_fmap_2.
Qed.

Lemma elem_of_delete {J} (l : list J) i y : y ∈ delete i l → y ∈ l.
Proof.
  rewrite delete_take_drop. intros [H|H]%elem_of_app.
  - by eapply subseteq_take.
  - by eapply subseteq_drop.
Qed.

Lemma NoDup_fmap_delete {J} (f : J → Id) (l : list J) i :
  NoDup (f <$> l) → NoDup (f <$> delete i l).
Proof.
  intros H. eapply sublist_NoDup; [exact H|].
  rewrite list_fmap_delete. apply sublist_delete.
Qed.

Lemma consistent_init : consistent init.
Proof.
  split; (split; [|split]); simpl; try done; try apply NoDup_nil_2;
    by intros ? ?%elem_of_nil.
Qed.

Lemma fridge_consistent_analyzeImage user storage_id b b' id :
  fridge_consistent b →
  Fridge.analyzeImage (Some user) storage_id b = Ok (b', id) →
  fridge_consistent b'.
Proof.
  intros (Hid & Hjobs & Hnd) [= <- <-].
  set (c := counter (Fridge.fridgeAnalyses b)) in *.
  split; [|split]; simpl.
  - intros id d. unfold db_get. simpl. fold c.
    destruct (decide (id = c)) as [->|Hne]; [lia|].
    rewrite lookup_insert_ne by done. intros H%Hid. fold c in H. lia.
  - intros job [Hjob|Hjob%list_elem_of_singleton]%elem_of_app.
    + destruct (Hjobs job Hjob) as (d & Hd & Hst). exists d. split; [|done].
      unfold db_get. simpl. fold c. rewrite lookup_insert_ne; [done|].
      apply Hid in Hd. fold c in Hd. lia.
    + subst job. eexists. unfold db_get. simpl. fold c.
      rewrite lookup_insert_eq. by split.
  - rewrite fmap_app. apply NoDup_app. split; [done|]. split.
    + intros x Hx ->%list_elem_of_singleton.
      apply list_elem_of_fmap in Hx as (job & E & Hjob).
      destruct (Hjobs job Hjob) as (d & Hd & _). apply Hid in Hd.
      fold c in Hd. simpl in E. lia.
    + apply NoDup_singleton.
Qed.

Lemma fridge_consistent_processImage w i job b :
  fridge_consistent b → Fridge.scheduled b !! i = Some job →
  fridge_consistent
    (Fridge.processImage w job
       (Fridge.mkBackend (Fridge.fridgeAnalyses b) (delete i (Fridge.scheduled b)))).1.
Proof.
  intros (Hid & Hjobs & Hnd) Hi.
  destruct (processImage_effect w job
              (Fridge.mkBackend (Fridge.fridgeAnalyses b)
                 (delete i (Fridge.scheduled b))))
    as [-> | (d & ings & recs & status & Hd & Hterm & ->)]; simpl in *.
  - split; [done|]. split; simpl.
    + intros job' Hjob'. apply Hjobs. by eapply elem_of_delete.
    + by apply NoDup_fmap_delete.
  - split; [|split]; simpl.
    + intros id d'. unfold db_get. simpl.
      destruct (decide (id = Fridge.analysisId job)) as [->|Hne].
      * intros _. by apply (Hid _ d).
      * rewrite lookup_insert_ne by done. apply Hid.
    + intros job' Hjob'.
      destruct (Hjobs job' (elem_of_delete _ _ _ Hjob')) as (d' & Hd' & Hst).
      exists d'. split; [|done]. unfold db_get. simpl.
      rewrite lookup_insert_ne; [done|].
      apply not_eq_sym. by eapply (other_jobs Fridge.analysisId).
    + by apply NoDup_fmap_delete.
Qed.

Lemma recipes_consistent_scanRecipe user storage_id b b' id :
  recipes_consistent b →
  Recipes.scanRecipe (Some user) storage_id b = Ok (b', id) →
  recipes_consistent b'.
Proof.
  intros (Hid & Hjobs & Hnd) [= <- <-].
  set (c := counter (Recipes.scannedRecipes b)) in *.
  split; [|split]; simpl.
  - intros id d. unfold db_get. simpl. fold c.
    destruct (decide (id = c)) as [->|Hne]; [lia|].
    rewrite lookup_insert_ne by done. intros H%Hid. fold c in H. lia.
  - intros job [Hjob|Hjob%list_elem_of_singleton]%elem_of_app.
    + destruct (Hjobs job Hjob) as [Hlt Hst]. fold c in Hlt. split; [lia|].
      intros d. unfold db_get. simpl. fold c.
      rewrite lookup_insert_ne by lia. apply Hst.
    + subst job. simpl. split; [lia|]. intros d. unfold db_get. simpl. fold c.
      rewrite lookup_insert_eq. by intros [= <-].
  - rewrite fmap_app. apply NoDup_app. split; [done|]. split.
    + intros x Hx ->%list_elem_of_singleton.
      apply list_elem_of_fmap in Hx as (job & E & Hjob).
      destruct (Hjobs job Hjob) as [Hlt _]. fold c in Hlt. simpl in E. lia.
    + apply NoDup_singleton.
Qed.

Lemma recipes_consistent_processRecipeImage w i job b :
  recipes_consistent b → Recipes.scheduled b !! i = Some job →
  recipes_consistent
    (Recipes.processRecipeImage w job
       (Recipes.mkBackend (Recipes.scannedRecipes b) (delete i (Recipes.scheduled b)))).1.
Proof.
  intros (Hid & Hjobs & Hnd) Hi.
  destruct (processRecipeImage_effect w job
              (Recipes.mkBackend (Recipes.scannedRecipes b)
                 (delete i (Recipes.scheduled b))))
    as [-> | (d & r & Hd & Hterm & _ & _ & ->)]; simpl in *.
  - split; [done|]. split; simpl.
    + intros job' Hjob'. apply Hjobs. by eapply elem_of_delete.
    + by apply NoDup_fmap_delete.
  - split; [|split]; simpl.
    + intros id d'. unfold db_get. simpl.
      destruct (decide (id = Recipes.recipeId job)) as [->|Hne].
      * intros _. by apply (Hid _ d).
      * rewrite lookup_insert_ne by done. apply Hid.
    + intros job' Hjob'.
      destruct (Hjobs job' (elem_of_delete _ _ _ Hjob')) as [Hlt Hst].
      split; [done|]. intros d'. unfold db_get. simpl.
      rewrite lookup_insert_ne; [apply Hst|].
      apply not_eq_sym. by eapply (other_jobs Recipes.recipeId).
    + by apply NoDup_fmap_delete.
Qed.

Lemma recipes_consistent_deleteRecipe auth id b b' :
  recipes_consistent b → Recipes.deleteRecipe auth id b = Ok b' →
  recipes_consistent b'.
Proof.
  intros (Hid & Hjobs & Hnd). unfold Recipes.deleteRecipe.
  destruct auth as [user|]; [|done].
  destruct (db_get (Recipes.scannedRecipes b) id) as [d|] eqn:Hd; [|done].
  destruct (decide _); [done|].
  unfold db_delete. unfold db_get in Hd. rewrite Hd.
  cbn [mbind result_bind]. intros [= <-].
  split; [|split]; simpl; [| |done].
  - intros id' d'. unfold db_get. simpl.
    intros [_ H]%lookup_delete_Some. by apply (Hid _ d').
  - intros job Hjob. destruct (Hjobs job Hjob) as [Hlt Hst]. split; [done|].
    intros d'. unfold db_get. simpl. intros [_ H]%lookup_delete_Some.
    by apply Hst.
Qed.

Lemma consistent_step o s : consistent s → consistent (step o s).
Proof.
  intros [Hf Hr]. unfold step, exec.
  destruct o as [auth url|auth sid|w i|auth g id|auth g|auth url|auth sid|w i
                |auth g id|auth g|auth id]; try done.
  - by destruct auth.
  - destruct auth as [user|]; [|done].
    destruct (Fridge.analyzeImage (Some user) sid (fridge s)) as [[b id]|e] eqn:E;
      [|done].
    split; [|done]. by eapply fridge_consistent_analyzeImage.
  - destruct (Fridge.scheduled (fridge s) !! i) as [job|] eqn:E; [|done].
    pose proof (fridge_consistent_processImage w i job (fridge s) Hf E) as H.
    destruct (Fridge.processImage w job _) as [b' r]. by split.
  - by destruct auth.
  - destruct auth as [user|]; [|done].
    destruct (Recipes.scanRecipe (Some user) sid (recipes s)) as [[b id]|e] eqn:E;
      [|done].
    split; [done|]. by eapply recipes_consistent_scanRecipe.
  - destruct (Recipes.scheduled (recipes s) !! i) as [job|] eqn:E; [|done].
    pose proof (recipes_consistent_processRecipeImage w i job (recipes s) Hr E) as H.
    destruct (Recipes.processRecipeImage w job _) as [b' r]. by split.
  - destruct (Recipes.deleteRecipe auth id (recipes s)) as [b|e] eqn:E; [|done].
    split; [done|]. by eapply recipes_consistent_deleteRecipe.
Qed.

Lemma consistent_run ops s : consistent s → consistent (run ops s).
Proof.
  revert s. induction ops as [|o ops IH]; intros s Hs; [done|].
  apply IH. by apply consistent_step.
Qed.

Lemma reachable_consistent s : reachable s → consistent s.
Proof. intros [ops ->]. apply consistent_run, consistent_init. Qed.
End Consistency.

(** ** One operation, seen from one document *)

Section Transitions.
Import Js Convex Spec App.

(** An analysis is left as it is, or goes from processing to a terminal
    status. *)
Lemma step_analysis o s id a :
  consistent s → analysis s id = Some a →
  analysis (step o s) id = Some a
  ∨ (Fridge.analysisStatus a = processing
     ∧ ∃ a', analysis (step o s) id = Some a'
             ∧ terminal (Fridge.analysisStatus a') = true).
Proof.
  intros [(Hid & Hjobs & Hnd) _] Ha. unfold analysis in *.
  destruct (db_get (Fridge.fridgeAnalyses (fridge s)) id) as [d|] eqn:Hd;
    [|done].
  injection Ha as <-. unfold step, exec.
  destruct o as [auth url|auth sid|w i|auth g id'|auth g|auth url|auth sid|w i
                |auth g id'|auth g|auth id']; simpl;
    try (left; by rewrite Hd).
  - left. destruct auth; simpl; by rewrite Hd.
  - left. destruct auth as [user|]; simpl; [|by rewrite Hd].
    unfold db_get in *. simpl. rewrite lookup_insert_ne; [by rewrite Hd|].
    apply Hid in Hd. lia.
  - destruct (Fridge.scheduled (fridge s) !! i) as [job|] eqn:Hi;
      [|left; simpl; by rewrite Hd].
    pose proof (processImage_effect w job
                  (Fridge.mkBackend (Fridge.fridgeAnalyses (fridge s))
                     (delete i (Fridge.scheduled (fridge s))))) as He.
    destruct (Fridge.processImage w job _) as [b' r]. simpl in *.
    destruct He as [-> | (d0 & ings & recs & status & Hd0 & Hterm & ->)];
      simpl; [left; by rewrite Hd|].
    unfold db_get in *. simpl.
    destruct (decide (id = Fridge.analysisId job)) as [->|Hne].
    + right. rewrite lookup_insert_eq. simpl.
      destruct (Hjobs job) as (d1 & Hd1 & Hst); [by eapply list_elem_of_lookup_2|].
      unfold db_get in Hd1. rewrite Hd in Hd1. injection Hd1 as <-.
      split; [done|]. by eexists.
    + left. rewrite lookup_insert_ne by done. by rewrite Hd.
  - left. destruct auth; simpl; by rewrite Hd.
  - left. destruct (Recipes.scanRecipe auth sid (recipes s)) as [[b i]|e];
      simpl; by rewrite Hd.
  - left. destruct (Recipes.scheduled (recipes s) !! i); [|simpl; by rewrite Hd].
    destruct (Recipes.processRecipeImage w _ _). simpl. by rewrite Hd.
  - left. destruct (Recipes.deleteRecipe auth id' (recipes s)); simpl;
      by rewrite Hd.
Qed.

(** A scanned recipe is left as it is, or deleted, or goes from
    processing to a terminal status. *)
Lemma step_recipe o s id r :
  consistent s → recipe s id = Some r →
  recipe (step o s) id = Some r
  ∨ recipe (step o s) id = None
  ∨ (Recipes.scanStatus r = processing
     ∧ ∃ r', recipe (step o s) id = Some r'
             ∧ terminal (Recipes.scanStatus r') = true).
Proof.
  intros [_ (Hid & Hjobs & Hnd)] Hr. unfold recipe in *.
  destruct (db_get (Recipes.scannedRecipes (recipes s)) id) as [d|] eqn:Hd;
    [|done].
  injection Hr as <-. unfold step, exec.
  destruct o as [auth url|auth sid|w i|auth g id'|auth g|auth url|auth sid|w i
                |auth g id'|auth g|auth id']; simpl;
    try (left; by rewrite Hd).
  - left. destruct auth; simpl; by rewrite Hd.
  - left. destruct (Fridge.analyzeImage auth sid (fridge s)) as [[b i]|e];
      simpl; by rewrite Hd.
  - left. destruct (Fridge.scheduled (fridge s) !! i); [|simpl; by rewrite Hd].
    destruct (Fridge.processImage w _ _). simpl. by rewrite Hd.
  - left. destruct auth; simpl; by rewrite Hd.
  - left. destruct auth as [user|]; simpl; [|by rewrite Hd].
    unfold db_get in *. simpl. rewrite lookup_insert_ne; [by rewrite Hd|].
    apply Hid in Hd. lia.
  - destruct (Recipes.scheduled (recipes s) !! i) as [job|] eqn:Hi;
      [|left; simpl; by rewrite Hd].
    pose proof (processRecipeImage_effect w job
                  (Recipes.mkBackend (Recipes.scannedRecipes (recipes s))
                     (delete i (Recipes.scheduled (recipes s))))) as He.
    destruct (Recipes.processRecipeImage w job _) as [b' res]. simpl in *.
    destruct He as [-> | (d0 & r' & Hd0 & Hterm & _ & _ & ->)];
      simpl; [left; by rewrite Hd|].
    unfold db_get in *. simpl.
    destruct (decide (id = Recipes.recipeId job)) as [->|Hne].
    + right. right. rewrite lookup_insert_eq. simpl.
      destruct (Hjobs job) as [_ Hst]; [by eapply list_elem_of_lookup_2|].
      split; [by apply Hst|]. by eexists.
    + left. rewrite lookup_insert_ne by done. by rewrite Hd.
  - destruct (Recipes.deleteRecipe auth id' (recipes s)) as [b|e] eqn:E;
      simpl; [|left; simpl; by rewrite Hd].
    unfold Recipes.deleteRecipe in E. destruct auth as [user|]; [|done].
    destruct (db_get (Recipes.scannedRecipes (recipes s)) id') as [d'|] eqn:Hd';
      [|done].
    destruct (decide _); [done|].
    unfold db_delete in E. unfold db_get in Hd'. rewrite Hd' in E.
    injection E as <-. unfold db_get in *. simpl.
    destruct (decide (id = id')) as [->|Hne].
    + right. left. by rewrite lookup_delete_eq.
    + left. rewrite lookup_delete_ne by done. by rewrite Hd.
Qed.

(** An id that was given out and has no document any more gets none:
    ids are not used twice. *)
Lemma step_recipe_gone o s id :
  consistent s →
  id < counter (Recipes.scannedRecipes (recipes s)) → recipe s id = None →
  id < counter (Recipes.scannedRecipes (recipes (step o s)))
  ∧ recipe (step o s) id = None.
Proof.
  intros [_ (Hid & Hjobs & Hnd)] Hlt Hr. unfold recipe in *.
  destruct (db_get (Recipes.scannedRecipes (recipes s)) id) as [d|] eqn:Hd;
    [done|].
  unfold step, exec.
  destruct o as [auth url|auth sid|w i|auth g id'|auth g|auth url|auth sid|w i
                |auth g id'|auth g|auth id']; simpl;
    try (by rewrite Hd).
  - destruct auth; simpl; by rewrite Hd.
  - destruct (Fridge.analyzeImage auth sid (fridge s)) as [[b i]|e];
      simpl; by rewrite Hd.
  - destruct (Fridge.scheduled (fridge s) !! i); [|simpl; by rewrite Hd].
    destruct (Fridge.processImage w _ _). simpl. by rewrite Hd.
  - destruct auth; simpl; by rewrite Hd.
  - destruct auth as [user|]; simpl; [|by rewrite Hd].
    unfold db_get in *. simpl. rewrite lookup_insert_ne by lia.
    rewrite Hd. split; [lia|done].
  - destruct (Recipes.scheduled (recipes s) !! i) as [job|] eqn:Hi;
      [|simpl; by rewrite Hd].
    pose proof (processRecipeImage_effect w job
                  (Recipes.mkBackend (Recipes.scannedRecipes (recipes s))
                     (delete i (Recipes.scheduled (recipes s))))) as He.
    destruct (Recipes.processRecipeImage w job _) as [b' res]. simpl in *.
    destruct He as [-> | (d0 & r' & Hd0 & Hterm & _ & _ & ->)];
      simpl; [by rewrite Hd|].
    unfold db_get in *. simpl. split; [done|].
    rewrite lookup_insert_ne; [by rewrite Hd|]. intros <-. congruence.
  - destruct (Recipes.deleteRecipe auth id' (recipes s)) as [b|e] eqn:E;
      simpl; [|by rewrite Hd].
    unfold Recipes.deleteRecipe in E. destruct auth as [user|]; [|done].
    destruct (db_get (Recipes.scannedRecipes (recipes s)) id') as [d'|] eqn:Hd';
      [|done].
    destruct (decide _); [done|].
    unfold db_delete in E. unfold db_get in Hd'. rewrite Hd' in E.
    injection E as <-. unfold db_get in *. simpl. split; [done|].
    destruct (decide (id = id')) as [->|Hne].
    + by rewrite lookup_delete_eq.
    + rewrite lookup_delete_ne by done. by rewrite Hd.
Qed.
End Transitions.

(** ** The query by owner *)

Section QueryFacts.
Import Convex.
Context {D : Type} (owner : D → UserId).
Implicit Types (t : table D) (x y : Id * document D).

#[local] Instance newer_total : Total (@newer D).
Proof. intros x y. unfold newer. lia. Qed.

#[local] Instance newer_trans : Transitive (@newer D).
Proof. intros x y z. unfold newer. lia. Qed.

Lemma newer_time x y : newer x y → _creationTime y.2 ≤ _creationTime x.2.
Proof. unfold newer. lia. Qed.

Lemma elem_of_by_user_desc t u id d :
  (id, d) ∈ by_user_desc owner t u ↔ db_get t id = Some d ∧ owner (fields d) = u.
Proof.
  unfold by_user_desc, db_get. rewrite merge_sort_Permutation.
  rewrite list_elem_of_In, filter_In, <- list_elem_of_In.
  rewrite elem_of_map_to_list, bool_decide_eq_true. done.
Qed.

Lemma by_user_desc_sorted t u : StronglySorted newer (by_user_desc owner t u).
Proof. apply StronglySorted_merge_sort; apply _. Qed.

Lemma by_user_desc_NoDup t u : NoDup (by_user_desc owner t u).
Proof.
  unfold by_user_desc. rewrite merge_sort_Permutation.
  rewrite (List_filter_stdpp _ (λ kd, owner (fields kd.2) = u))
    by (intros; apply bool_decide_eq_true).
  apply NoDup_filter, NoDup_map_to_list.
Qed.

(** The query returns documents of the table that belong to the user,
    newest first, no more than asked for, each once; a document of the
    user it leaves out is no newer than any it returns, and none is left
    out unless the limit is reached. *)
Lemma query_by_user_desc_spec t u n :
  let rs := query_by_user_desc owner t u n in
  (∀ id d, (id, d) ∈ rs → db_get t id = Some d ∧ owner (fields d) = u)
  ∧ length rs ≤ n
  ∧ StronglySorted newer rs
  ∧ NoDup rs
  ∧ (∀ id d, db_get t id = Some d → owner (fields d) = u →
       (id, d) ∈ rs ∨ (length rs = n ∧ ∀ x, x ∈ rs → newer x (id, d))).
Proof.
  intros rs. unfold rs, query_by_user_desc.
  pose proof (by_user_desc_sorted t u) as Hs.
  pose proof (by_user_desc_NoDup t u) as Hnd.
  rewrite <- (take_drop n (by_user_desc owner t u)) in Hs, Hnd.
  split; [|split; [|split; [|split]]].
  - intros id d Hin. apply elem_of_by_user_desc. by eapply subseteq_take.
  - rewrite length_take. lia.
  - by eapply StronglySorted_app_1_l.
  - by apply NoDup_app in Hnd as [? _].
  - intros id d Hd Ho.
    assert ((id, d) ∈ by_user_desc owner t u) as Hin by by apply elem_of_by_user_desc.
    rewrite <- (take_drop n (by_user_desc owner t u)) in Hin.
    apply elem_of_app in Hin as [Hin|Hin]; [by left|]. right. split.
    + rewrite length_take. apply Nat.min_l.
      destruct (decide (n ≤ length (by_user_desc owner t u))); [done|].
      rewrite drop_ge in Hin by lia. by apply elem_of_nil in Hin.
    + intros x Hx. by eapply StronglySorted_app_1_elem_of.
Qed.
End QueryFacts.

Section ListQueries.
Import Js Convex.

Lemma fridge_list user getUrl (st : Fridge.Backend) :
  ∃ rs,
    Fridge.getUserAnalyses (Some user) getUrl st = Ok rs
    ∧ length rs ≤ 20
    ∧ (∀ r, r ∈ rs →
         Fridge.userId (fields (Fridge.doc r)) = user
         ∧ db_get (Fridge.fridgeAnalyses st) (Fridge._id r) = Some (Fridge.doc r)
         ∧ Fridge.imageUrl r = getUrl (Fridge.imageId (fields (Fridge.doc r))))
    ∧ StronglySorted
        (λ a b, _creationTime (Fridge.doc b) ≤ _creationTime (Fridge.doc a)) rs
    ∧ (∀ id d, db_get (Fridge.fridgeAnalyses st) id = Some d →
         Fridge.userId (fields d) = user →
         (∃ r, r ∈ rs ∧ Fridge._id r = id ∧ Fridge.doc r = d)
         ∨ (length rs = 20
            ∧ ∀ r, r ∈ rs → _creationTime d ≤ _creationTime (Fridge.doc r))).
Proof.
  eexists. split; [reflexivity|].
  destruct (query_by_user_desc_spec Fridge.userId (Fridge.fridgeAnalyses st) user 20)
    as (Hin & Hlen & Hs & _ & Hall).
  split; [by rewrite length_fmap|]. split; [|split].
  - intros r ([id d] & -> & Hr)%list_elem_of_fmap. simpl.
    destruct (Hin id d Hr). done.
  - eapply StronglySorted_fmap, Hs. intros x y. apply newer_time.
  - intros id d Hd Ho. destruct (Hall id d Hd Ho) as [Hr | [Hl Hn]].
    + left. eexists. split; [by apply list_elem_of_fmap_2|done].
    + right. split; [by rewrite length_fmap|].
      intros r (x & -> & Hr)%list_elem_of_fmap. simpl.
      apply (newer_time x (id, d)). by apply Hn.
Qed.

Lemma recipes_list user getUrl (st : Recipes.Backend) :
  ∃ rs,
    Recipes.getUserRecipes (Some user) getUrl st = Ok rs
    ∧ length rs ≤ 20
    ∧ (∀ r, r ∈ rs →
         Recipes.userId (fields (Recipes.doc r)) = user
         ∧ db_get (Recipes.scannedRecipes st) (Recipes._id r) = Some (Recipes.doc r)
         ∧ Recipes.imageUrl r = getUrl (Recipes.imageId (fields (Recipes.doc r))))
    ∧ StronglySorted
        (λ a b, _creationTime (Recipes.doc b) ≤ _creationTime (Recipes.doc a)) rs
    ∧ (∀ id d, db_get (Recipes.scannedRecipes st) id = Some d →
         Recipes.userId (fields d) = user →
         (∃ r, r ∈ rs ∧ Recipes._id r = id ∧ Recipes.doc r = d)
         ∨ (length rs = 20
            ∧ ∀ r, r ∈ rs → _creationTime d ≤ _creationTime (Recipes.doc r))).
Proof.
  eexists. split; [reflexivity|].
  destruct (query_by_user_desc_spec Recipes.userId (Recipes.scannedRecipes st) user 20)
    as (Hin & Hlen & Hs & _ & Hall).
  split; [by rewrite length_fmap|]. split; [|split].
  - intros r ([id d] & -> & Hr)%list_elem_of_fmap. simpl.
    destruct (Hin id d Hr). done.
  - eapply StronglySorted_fmap, Hs. intros x y. apply newer_time.
  - intros id d Hd Ho. destruct (Hall id d Hd Ho) as [Hr | [Hl Hn]].
    + left. eexists. split; [by apply list_elem_of_fmap_2|done].
    + right. split; [by rewrite length_fmap|].
      intros r (x & -> & Hr)%list_elem_of_fmap. simpl.
      apply (newer_time x (id, d)). by apply Hn.
Qed.
End ListQueries.

(** C7: a point lookup by an authenticated user answers [null] when the id
    has no document and when the document belongs to someone else, the same
    answer in both cases, and the document with its image URL otherwise. A
    list query answers with documents of the table that belong to the user,
    newest first, at most 20, each with the URL the storage gives for its
    image at the time of the query; a document of the user it leaves out is
    no newer than those it returns. *)
Theorem lookup_and_list (user : nat) (getUrl : nat → option (list N)) (id : nat)
    (fb : Fridge.Backend) (rb : Recipes.Backend) :
  (Convex.db_get (Fridge.fridgeAnalyses fb) id = None
   ∨ (∃ d, Convex.db_get (Fridge.fridgeAnalyses fb) id = Some d
           ∧ Fridge.userId (Convex.fields d) ≠ user) →
   Fridge.getAnalysis (Some user) getUrl id fb = Convex.Ok None)
  ∧ (∀ d, Convex.db_get (Fridge.fridgeAnalyses fb) id = Some d →
       Fridge.userId (Convex.fields d) = user →
       Fridge.getAnalysis (Some user) getUrl id fb
       = Convex.Ok (Some (Fridge.mkReturned id d
                            (getUrl (Fridge.imageId (Convex.fields d))))))
  ∧ (Convex.db_get (Recipes.scannedRecipes rb) id = None
     ∨ (∃ d, Convex.db_get (Recipes.scannedRecipes rb) id = Some d
             ∧ Recipes.userId (Convex.fields d) ≠ user) →
     Recipes.getScannedRecipe (Some user) getUrl id rb = Convex.Ok None)
  ∧ (∀ d, Convex.db_get (Recipes.scannedRecipes rb) id = Some d →
       Recipes.userId (Convex.fields d) = user →
       Recipes.getScannedRecipe (Some user) getUrl id rb
       = Convex.Ok (Some (Recipes.mkReturned id d
                            (getUrl (Recipes.imageId (Convex.fields d))))))
  ∧ (∃ rs,
       Fridge.getUserAnalyses (Some user) getUrl fb = Convex.Ok rs
       ∧ length rs ≤ 20
       ∧ (∀ r, r ∈ rs →
            Fridge.userId (Convex.fields (Fridge.doc r)) = user
            ∧ Convex.db_get (Fridge.fridgeAnalyses fb) (Fridge._id r)
              = Some (Fridge.doc r)
            ∧ Fridge.imageUrl r
              = getUrl (Fridge.imageId (Convex.fields (Fridge.doc r))))
       ∧ StronglySorted
           (λ a b, Convex._creationTime (Fridge.doc b)
                   ≤ Convex._creationTime (Fridge.doc a)) rs
       ∧ (∀ id d, Convex.db_get (Fridge.fridgeAnalyses fb) id = Some d →
            Fridge.userId (Convex.fields d) = user →
            (∃ r, r ∈ rs ∧ Fridge._id r = id ∧ Fridge.doc r = d)
            ∨ (length rs = 20
               ∧ ∀ r, r ∈ rs →
                   Convex._creationTime d ≤ Convex._creationTime (Fridge.doc r))))
  ∧ (∃ rs,
       Recipes.getUserRecipes (Some user) getUrl rb = Convex.Ok rs
       ∧ length rs ≤ 20
       ∧ (∀ r, r ∈ rs →
            Recipes.userId (Convex.fields (Recipes.doc r)) = user
            ∧ Convex.db_get (Recipes.scannedRecipes rb) (Recipes._id r)
              = Some (Recipes.doc r)
            ∧ Recipes.imageUrl r
              = getUrl (Recipes.imageId (Convex.fields (Recipes.doc r))))
       ∧ StronglySorted
           (λ a b, Convex._creationTime (Recipes.doc b)
                   ≤ Convex._creationTime (Recipes.doc a)) rs
       ∧ (∀ id d, Convex.db_get (Recipes.scannedRecipes rb) id = Some d →
            Recipes.userId (Convex.fields d) = user →
            (∃ r, r ∈ rs ∧ Recipes._id r = id ∧ Recipes.doc r = d)
            ∨ (length rs = 20
               ∧ ∀ r, r ∈ rs →
                   Convex._creationTime d ≤ Convex._creationTime (Recipes.doc r)))).
Proof.
  split; [|split; [|split; [|split; [|split]]]].
  - unfold Fridge.getAnalysis. intros [-> | (d & -> & Hne)]; [done|].
    by rewrite decide_True.
  - unfold Fridge.getAnalysis. intros d -> Ho. rewrite decide_False; [done|].
    by intros ?.
  - unfold Recipes.getScannedRecipe. intros [-> | (d & -> & Hne)]; [done|].
    by rewrite decide_True.
  - unfold Recipes.getScannedRecipe. intros d -> Ho. rewrite decide_False; [done|].
    by intros ?.
  - apply fridge_list.
  - apply recipes_list.
Qed.

Lemma lookup_and_list_witness :
  Fridge.getAnalysis (Some 2) Example.file_url 0 Example.one_analysis = Convex.Ok None
  ∧ Fridge.getAnalysis (Some 1) Example.file_url 0 Example.one_analysis
    = Convex.Ok
        (Some (Fridge.mkReturned 0
                 (Convex.Document 0 (Fridge.mkAnalysis 1 0 [] [] Convex.processing))
                 (Some (Js.lit "https://files/0")))).
Proof.
  destruct (lookup_and_list 2 Example.file_url 0 Example.one_analysis Example.one_scan)
    as (H1 & _).
  destruct (lookup_and_list 1 Example.file_url 0 Example.one_analysis Example.one_scan)
    as (_ & H2 & _).
  split.
  - apply H1. right.
    exists (Convex.Document 0 (Fridge.mkAnalysis 1 0 [] [] Convex.processing)).
    split; [reflexivity | simpl; lia].
  - apply (H2 (Convex.Document 0 (Fridge.mkAnalysis 1 0 [] [] Convex.processing)));
      reflexivity.
Defined.

(** C8: [deleteRecipe] by a user for an id with no document, or with a
    document of someone else, is rejected with "Recipe not found or not
    authorized" and leaves the deployment as it was; without a user it is
    rejected with "Not authenticated", the deployment as it was; for a
    document of the caller it removes that document and no other, and a
    lookup of the id then answers [null]. *)
Theorem deleteRecipe_spec (auth : option nat) (id : nat) (s : App.State) :
  (∀ user, auth = Some user →
     (App.recipe s id = None
      ∨ ∃ r, App.recipe s id = Some r ∧ Recipes.userId r ≠ user) →
     App.exec (App.DeleteRecipe auth id) s
     = (s, App.Rejected (Convex.Error "Recipe not found or not authorized")))
  ∧ (auth = None →
     App.exec (App.DeleteRecipe auth id) s
     = (s, App.Rejected (Convex.Error "Not authenticated")))
  ∧ (∀ user r, auth = Some user → App.recipe s id = Some r →
       Recipes.userId r = user →
       ∃ s', App.exec (App.DeleteRecipe auth id) s = (s', App.Done)
             ∧ App.recipe s' id = None
             ∧ (∀ id', id' ≠ id → App.recipe s' id' = App.recipe s id')
             ∧ App.fridge s' = App.fridge s
             ∧ Recipes.scheduled (App.recipes s') = Recipes.scheduled (App.recipes s)
             ∧ (∀ auth' getUrl,
                  (App.exec (App.GetScannedRecipe auth' getUrl id) s').2
                  = App.RecipeOrNull None)).
Proof.
  unfold App.recipe, App.exec, Recipes.deleteRecipe, Recipes.getScannedRecipe.
  split; [|split].
  - intros user -> H.
    destruct (Convex.db_get (Recipes.scannedRecipes (App.recipes s)) id) as [d|];
      [|done].
    destruct H as [H | (r & [= <-] & Hne)]; [done|]. by rewrite decide_True.
  - by intros ->.
  - intros user r -> Hr Ho.
    destruct (Convex.db_get (Recipes.scannedRecipes (App.recipes s)) id) as [d|] eqn:Hd;
      [|done].
    injection Hr as <-. rewrite decide_False by (by intros ?).
    unfold Convex.db_delete. unfold Convex.db_get in Hd. rewrite Hd.
    eexists. split; [reflexivity|]. unfold Convex.db_get. simpl.
    split; [by rewrite lookup_delete_eq|]. split; [|split; [done|split; [done|]]].
    + intros id' Hne. by rewrite lookup_delete_ne.
    + intros auth' getUrl. rewrite lookup_delete_eq. by destruct auth'.
Qed.

Lemma deleteRecipe_spec_witness :
  ∃ s', App.exec (App.DeleteRecipe (Some 1) 0)
          (App.mkState Example.one_analysis Example.one_scan) = (s', App.Done)
        ∧ App.recipe s' 0 = None.
Proof.
  destruct (deleteRecipe_spec (Some 1) 0
              (App.mkState Example.one_analysis Example.one_scan))
    as (_ & _ & H).
  destruct (H 1 (Recipes.mkScannedRecipe 1 0 [] [] [] None None None None
                   Convex.processing) eq_refl eq_refl eq_refl)
    as (s' & H1 & H2 & _).
  exists s'. split; assumption.
Defined.

(** C9, as stated, fails: without a user the queries do not raise. The
    point lookups answer [null] and the list queries the empty list. *)
Lemma unauthenticated_query_returns :
  App.exec (App.GetAnalysis None Example.file_url 0) App.init
  = (App.init, App.AnalysisOrNull None)
  ∧ ¬ (∀ o s, App.public o = true → App.identity o = None →
         ∃ e, (App.exec o s).2 = App.Rejected e).
Proof.
  split; [reflexivity|]. intros H.
  destruct (H (App.GetAnalysis None Example.file_url 0) App.init eq_refl eq_refl)
    as [e He].
  discriminate He.
Qed.

(** C9, amended: called without a user, a public mutation
    (generateUploadUrl of either module, analyzeImage, scanRecipe,
    deleteRecipe) is rejected with "Not authenticated", a point lookup
    (getAnalysis, getScannedRecipe) answers [null] and a list query
    (getUserAnalyses, getUserRecipes) the empty list; in every case
    nothing is written and no job is queued. *)
Theorem unauthenticated_call (o : App.op) (s : App.State) :
  App.public o = true → App.identity o = None →
  (App.exec o s).1 = s
  ∧ (App.exec o s).2 =
    match o with
    | App.GetAnalysis _ _ _ => App.AnalysisOrNull None
    | App.GetScannedRecipe _ _ _ => App.RecipeOrNull None
    | App.GetUserAnalyses _ _ => App.AnalysisList []
    | App.GetUserRecipes _ _ => App.RecipeList []
    | _ => App.Rejected (Convex.Error "Not authenticated")
    end.
Proof.
  destruct o; simpl; try done; intros _ ->; done.
Qed.

Lemma unauthenticated_call_witness :
  (App.exec (App.AnalyzeImage None 0) App.init).1 = App.init
  ∧ (App.exec (App.AnalyzeImage None 0) App.init).2
    = App.Rejected (Convex.Error "Not authenticated").
Proof.
  exact (unauthenticated_call (App.AnalyzeImage None 0) App.init eq_refl eq_refl).
Defined.



Section FallbackRecipe.
Import Js Convex Spec Fridge.

Lemma as_recipe_fallback ings :
  as_recipe (fallback_recipe (Arr (Str <$> ings)))
  = Some (Recipe.mk (lit "Simple Stir Fry") ings fallback_instructions
            (lit "15 minutes") (lit "Easy")).
Proof.
  unfold as_recipe, fallback_recipe.
  change (only_fields recipe_fields _) with true. cbv iota.
  change (obj_get (lit "name") _) with (Some (Str (lit "Simple Stir Fry"))).
  change (obj_get (lit "ingredients") _) with (Some (Arr (Str <$> ings))).
  change (obj_get (lit "instructions") _)
    with (Some (Arr (Str <$> fallback_instructions))).
  change (obj_get (lit "cookingTime") _) with (Some (Str (lit "15 minutes"))).
  change (obj_get (lit "difficulty") _) with (Some (Str (lit "Easy"))).
  cbn [mbind option_bind as_string].
  rewrite !as_string_array_Str. reflexivity.
Qed.

(** The [try] block when the ingredients are strings, at least one, and
    the second reply is not JSON. *)
Lemma analyse_fallback_recipe w args url response ings response' content :
  getUrl w (storageId args) = Some url → truthy url = true →
  ingredients_completion w url = Ok response →
  parse_ingredients w response = Ok (Arr (Str <$> ings)) → ings ≠ [] →
  recipes_completion w (Arr (Str <$> ings)) = Ok response' →
  response' = Message (Some content) → truthy content = true →
  JSON_parse w content = None →
  analyse w args
  = Ok (Arr (Str <$> ings), Arr [fallback_recipe (Arr (Str <$> take 4 ings))]).
Proof.
  intros Hu Hut Hr Hp Hne Hr' -> Hc Hj. unfold analyse.
  rewrite Hu, Hut. cbn [mbind result_bind]. rewrite Hr. cbn [mbind result_bind].
  rewrite Hp. cbn [mbind result_bind]. rewrite length_of_strings.
  cbn [mbind result_bind]. rewrite is_zero_length.
  rewrite bool_decide_eq_false_2 by (by destruct ings).
  cbn [join_check mbind result_bind]. rewrite Hr'. cbn [mbind result_bind].
  unfold parse_recipes.
  cbn [content_of mbind result_bind truthy_opt default from_option id].
  rewrite Hc, Hj. cbn [try_catch value_slice0 mbind result_bind].
  unfold slice0. by rewrite fmap_take.
Qed.
End FallbackRecipe.

(** C5, as stated, fails: a list extracted from the first reply that is
    not empty need not be a list of strings. For the reply [[1]], which is
    JSON, the list has one element; the reply to the recipe prompt is not
    JSON, so the [try] block builds the fallback recipe from that element;
    the validator of [updateAnalysis] refuses the number, and the record
    stored is the failure record, with no recipe at all. *)
Lemma number_ingredients_fail :
  let w := Sample.number_world in
  let s := App.run [App.AnalyzeImage (Some 1) 0] App.init in
  Fridge.parse_ingredients w (Convex.Message (Some (Js.lit "[1]")))
  = Convex.Ok (Js.Arr [Js.Num 1%Q])
  ∧ Convex.length_of (Js.Arr [Js.Num 1%Q]) = Convex.Ok (Some (Js.Num 1%Q))
  ∧ Fridge.JSON_parse w (Js.lit "?") = None
  ∧ Fridge.analyse w Example.analysis_job
    = Convex.Ok (Js.Arr [Js.Num 1%Q],
                 Js.Arr [Fridge.fallback_recipe (Js.Arr [Js.Num 1%Q])])
  ∧ App.analysis (App.step (App.ProcessImage w 0) s) 0
    = Some (Fridge.mkAnalysis 1 0 [] [] Convex.failed).
Proof. repeat split; vm_compute; reflexivity. Qed.

(** C5, amended: when the scheduler runs a queued [processImage], the
    ingredients extracted are strings, [n] of them with [n] at least 1, and
    the reply to the recipe prompt is not JSON, the stored record is
    completed, with those ingredients and exactly one recipe: "Simple Stir
    Fry", the first [min 4 n] ingredients, the four fixed steps, "15
    minutes", "Easy". *)
Theorem fallback_recipe_persisted (ops : list App.op) (w : Fridge.World) (i : nat)
    (job : Fridge.Job) (url : list N) (response response' : Convex.completion)
    (ings : list (list N)) (content : list N) :
  let s := App.run ops App.init in
  let s' := App.step (App.ProcessImage w i) s in
  Fridge.scheduled (App.fridge s) !! i = Some job →
  Fridge.getUrl w (Fridge.storageId job) = Some url → Js.truthy url = true →
  Fridge.ingredients_completion w url = Convex.Ok response →
  Fridge.parse_ingredients w response = Convex.Ok (Js.Arr (Js.Str <$> ings)) →
  ings ≠ [] →
  Fridge.recipes_completion w (Js.Arr (Js.Str <$> ings)) = Convex.Ok response' →
  response' = Convex.Message (Some content) → Js.truthy content = true →
  Fridge.JSON_parse w content = None →
  ∃ a,
    App.analysis s (Fridge.analysisId job) = Some a
    ∧ App.analysis s' (Fridge.analysisId job)
      = Some (Fridge.mkAnalysis (Fridge.userId a) (Fridge.imageId a) ings
                [Fridge.Recipe.mk (Js.lit "Simple Stir Fry") (take 4 ings)
                   [Js.lit "Heat oil in pan"; Js.lit "Add ingredients";
                    Js.lit "Stir fry for 5-7 minutes"; Js.lit "Season and serve"]
                   (Js.lit "15 minutes") (Js.lit "Easy")]
                Convex.completed)
    ∧ length (take 4 ings) = Nat.min 4 (length ings).
Proof.
  intros s s' Hi Hu Hut Hr Hp Hne Hr' Hm Hc Hj.
  assert (App.consistent s) as [(Hid & Hjobs & Hnd) _].
  { apply reachable_consistent. by exists ops. }
  destruct (Hjobs job) as (d & Hd & Hst); [by eapply list_elem_of_lookup_2|].
  exists (Convex.fields d). split; [|split].
  - unfold App.analysis. by rewrite Hd.
  - unfold s', App.step, App.exec. rewrite Hi.
    unfold Fridge.processImage, Fridge.processImage_try.
    rewrite (analyse_fallback_recipe w job url response ings response' content)
      by done.
    cbn [mbind Convex.result_bind]. unfold Fridge.run_updateAnalysis.
    rewrite as_string_array_Str. unfold Fridge.as_recipe_array.
    cbn [mapM mbind option_bind mret option_ret]. rewrite as_recipe_fallback.
    cbn [mapM mbind option_bind mret option_ret fmap option_fmap option_map].
    erewrite updateAnalysis_Some by exact Hd.
    unfold App.analysis, Convex.db_get. simpl. by rewrite lookup_insert_eq.
  - apply length_take.
Qed.

Lemma fallback_recipe_persisted_witness :
  ∃ a,
    App.analysis (App.run [App.AnalyzeImage (Some 1) 0] App.init) 0 = Some a
    ∧ App.analysis
        (App.step (App.ProcessImage
                     (Example.fridge_world (Js.lit "- eggs") (Js.lit "?")) 0)
           (App.run [App.AnalyzeImage (Some 1) 0] App.init)) 0
      = Some (Fridge.mkAnalysis (Fridge.userId a) (Fridge.imageId a) [Js.lit "eggs"]
                [Fridge.Recipe.mk (Js.lit "Simple Stir Fry") [Js.lit "eggs"]
                   [Js.lit "Heat oil in pan"; Js.lit "Add ingredients";
                    Js.lit "Stir fry for 5-7 minutes"; Js.lit "Season and serve"]
                   (Js.lit "15 minutes") (Js.lit "Easy")]
                Convex.completed).
Proof.
  destruct (fallback_recipe_persisted [App.AnalyzeImage (Some 1) 0]
              (Example.fridge_world (Js.lit "- eggs") (Js.lit "?")) 0
              Example.analysis_job (Js.lit "https://files/0")
              (Convex.Message (Some (Js.lit "- eggs")))
              (Convex.Message (Some (Js.lit "?")))
              [Js.lit "eggs"] (Js.lit "?")
              eq_refl eq_refl eq_refl eq_refl eq_refl
              ltac:(discriminate) eq_refl eq_refl eq_refl eq_refl)
    as (a & H1 & H2 & _).
  exists a. split; assumption.
Defined.

Section ScanFailure.
Import Js Convex Spec Recipes.

Lemma scan_nothing_extracted w args url response recipeData :
  getUrl w (storageId args) = Some url → truthy url = true →
  recipe_completion w url = Ok response →
  parse_recipe w response = Ok recipeData →
  obj_get (lit "ingredients") recipeData = Some (Arr []) →
  obj_get (lit "instructions") recipeData = Some (Arr []) →
  scan w args
  = Throw (Error "No recipe information could be extracted from the image").
Proof.
  intros Hu Hut Hr Hp Hi Hs. unfold scan.
  rewrite Hu, Hut. cbn [mbind result_bind]. rewrite Hr. cbn [mbind result_bind].
  rewrite Hp. cbn [mbind result_bind].
  unfold nothing_extracted, property_length. by rewrite Hi, Hs.
Qed.

(** When the user has deleted the recipe before its job runs, neither
    write of the action finds the document: nothing is stored and the
    action itself throws. *)
Lemma processRecipeImage_deleted w args st :
  db_get (scannedRecipes st) (recipeId args) = None →
  processRecipeImage w args st = (st, Throw DocumentNotFound).
Proof.
  intros Hd. unfold processRecipeImage, processRecipeImage_try.
  rewrite processRecipeImage_catch_eq, (updateScannedRecipe_None _ _ _ _ Hd).
  destruct (scan w args) as [recipeData|e]; cbn [mbind result_bind]; [|done].
  unfold run_updateScannedRecipe.
  destruct (as_recipeData recipeData) as [rd|]; [|done].
  by rewrite (updateScannedRecipe_None _ _ _ _ Hd).
Qed.
End ScanFailure.

(** C6, as stated, fails for a run whose recipe was deleted by its owner
    before the job ran: the job is still queued, its [try] block throws
    (nothing can be extracted from the reply), the [catch] block finds no
    document to patch and throws as well; no failure record is persisted
    and the action itself throws. *)
Lemma deleted_recipe_not_recorded :
  let w := Example.scan_world (Js.lit "hello") in
  let s := App.run [App.ScanRecipe (Some 1) 0; App.DeleteRecipe (Some 1) 0] App.init in
  Recipes.scheduled (App.recipes s) !! 0 = Some Example.scan_job
  ∧ Recipes.scan w Example.scan_job
    = Convex.Throw
        (Convex.Error "No recipe information could be extracted from the image")
  ∧ (App.exec (App.ProcessRecipeImage w 0) s).2 = App.Rejected Convex.DocumentNotFound
  ∧ App.recipe (App.step (App.ProcessRecipeImage w 0) s) 0 = None.
Proof. repeat split; vm_compute; reflexivity. Qed.

(** C6, amended: when the scheduler runs a queued [processRecipeImage] and
    the document of the job is in the table, the action returns; an object
    parsed from the reply (as JSON or by the heuristics) with no ingredient
    and no instruction makes the [try] block throw; and whenever the [try]
    block throws, the stored record is the minimal failure record: name
    "Scan Failed", no ingredients, no instructions, no optional field,
    status failed. The record the action leaves is that failure record or a
    completed one. *)
Theorem processRecipeImage_failure (s : App.State) (w : Recipes.World) (i : nat)
    (job : Recipes.Job) (r : Recipes.ScannedRecipe) :
  let b := Recipes.mkBackend (Recipes.scannedRecipes (App.recipes s))
             (delete i (Recipes.scheduled (App.recipes s))) in
  let s' := App.step (App.ProcessRecipeImage w i) s in
  Recipes.scheduled (App.recipes s) !! i = Some job →
  App.recipe s (Recipes.recipeId job) = Some r →
  (App.exec (App.ProcessRecipeImage w i) s).2 = App.Done
  ∧ (∀ url response recipeData,
       Recipes.getUrl w (Recipes.storageId job) = Some url → Js.truthy url = true →
       Recipes.recipe_completion w url = Convex.Ok response →
       Recipes.parse_recipe w response = Convex.Ok recipeData →
       Js.obj_get (Js.lit "ingredients") recipeData = Some (Js.Arr []) →
       Js.obj_get (Js.lit "instructions") recipeData = Some (Js.Arr []) →
       Recipes.processRecipeImage_try w job b
       = Convex.Throw
           (Convex.Error "No recipe information could be extracted from the image"))
  ∧ (∀ e, Recipes.processRecipeImage_try w job b = Convex.Throw e →
       App.recipe s' (Recipes.recipeId job) = Some (Spec.scan_failure r)
       ∧ Spec.scan_failure r
         = Recipes.mkScannedRecipe (Recipes.userId r) (Recipes.imageId r)
             (Js.lit "Scan Failed") [] [] None None None None Convex.failed)
  ∧ (∃ r', App.recipe s' (Recipes.recipeId job) = Some r'
           ∧ (r' = Spec.scan_failure r
              ∨ Recipes.scanStatus r' = Convex.completed)).
Proof.
  intros b s' Hi Hr. unfold App.recipe in Hr.
  destruct (Convex.db_get (Recipes.scannedRecipes (App.recipes s))
              (Recipes.recipeId job)) as [d|] eqn:Hd; [|done].
  injection Hr as <-.
  assert (Hdb : Convex.db_get (Recipes.scannedRecipes b) (Recipes.recipeId job) = Some d)
    by done.
  destruct (processRecipeImage_caught w job b d Hdb) as [Hret Hcatch].
  assert (Hfail : ∀ e, Recipes.processRecipeImage_try w job b = Convex.Throw e →
            App.recipe s' (Recipes.recipeId job)
            = Some (Spec.scan_failure (Convex.fields d))).
  { intros e He. unfold s', App.step, App.exec. rewrite Hi. fold b.
    rewrite (Hcatch e He). unfold App.recipe, Convex.db_get. simpl.
    by rewrite lookup_insert_eq. }
  split; [|split; [|split]].
  - unfold App.exec. rewrite Hi. fold b.
    destruct (Recipes.processRecipeImage w job b) as [b' res]. simpl in Hret.
    by subst res.
  - intros url response recipeData Hu Hut Hre Hp Hing Hins.
    unfold Recipes.processRecipeImage_try.
    by rewrite (scan_nothing_extracted w job url response recipeData).
  - intros e He. split; [by eapply Hfail | reflexivity].
  - destruct (Recipes.processRecipeImage_try w job b) as [b'|e] eqn:Htry.
    + unfold s', App.step, App.exec. rewrite Hi. fold b.
      unfold Recipes.processRecipeImage. rewrite Htry. simpl.
      unfold Recipes.processRecipeImage_try in Htry.
      destruct (Recipes.scan w job) as [recipeData|]; [|done].
      cbn [mbind Convex.result_bind] in Htry.
      unfold Recipes.run_updateScannedRecipe in Htry.
      destruct (Recipes.as_recipeData recipeData); [|done].
      rewrite (updateScannedRecipe_Some _ _ _ _ d Hdb) in Htry. injection Htry as <-.
      unfold App.recipe, Convex.db_get. simpl. rewrite lookup_insert_eq.
      eexists. split; [reflexivity|]. by right.
    + eexists. split; [by eapply Hfail|]. by left.
Qed.

Lemma processRecipeImage_failure_witness :
  (App.exec (App.ProcessRecipeImage (Example.scan_world (Js.lit "hello")) 0)
     (App.mkState Example.one_analysis Example.one_scan)).2 = App.Done
  ∧ App.recipe
      (App.step (App.ProcessRecipeImage (Example.scan_world (Js.lit "hello")) 0)
         (App.mkState Example.one_analysis Example.one_scan)) 0
    = Some (Recipes.mkScannedRecipe 1 0 (Js.lit "Scan Failed") [] [] None None None
              None Convex.failed).
Proof.
  destruct (processRecipeImage_failure
              (App.mkState Example.one_analysis Example.one_scan)
              (Example.scan_world (Js.lit "hello")) 0 Example.scan_job
              (Recipes.mkScannedRecipe 1 0 [] [] [] None None None None
                 Convex.processing) eq_refl eq_refl)
    as (H1 & _ & H3 & _).
  split; [exact H1|].
  exact (proj1 (H3 (Convex.Error
                      "No recipe information could be extracted from the image")
                  eq_refl)).
Defined.

(** ** Histories *)

Section Histories.
Import Js Convex Spec App.

Lemma run_app ops ops' s : run (ops ++ ops') s = run ops' (run ops s).
Proof. apply foldl_app. Qed.

(** A terminal analysis stays as it is. *)
Lemma run_analysis_terminal later s id a :
  consistent s → analysis s id = Some a →
  terminal (Fridge.analysisStatus a) = true →
  analysis (run later s) id = Some a.
Proof.
  revert s. induction later as [|o later IH]; intros s Hs Ha Ht; [done|].
  simpl. apply IH; [by apply consistent_step| |done].
  destruct (step_analysis o s id a Hs Ha) as [H | [Hp _]]; [done|].
  rewrite Hp in Ht. done.
Qed.

Lemma run_recipe_gone later s id :
  consistent s →
  id < counter (Recipes.scannedRecipes (recipes s)) → recipe s id = None →
  recipe (run later s) id = None.
Proof.
  revert s. induction later as [|o later IH]; intros s Hs Hlt Hr; [done|].
  simpl. destruct (step_recipe_gone o s id Hs Hlt Hr) as [Hlt' Hr'].
  apply IH; [by apply consistent_step|done..].
Qed.

(** A terminal recipe stays as it is until it is deleted, and once
    deleted it stays deleted. *)
Lemma run_recipe_terminal later s id r :
  consistent s → recipe s id = Some r →
  terminal (Recipes.scanStatus r) = true →
  recipe (run later s) id = Some r ∨ recipe (run later s) id = None.
Proof.
  revert s. induction later as [|o later IH]; intros s Hs Hr Ht; [by left|].
  simpl.
  assert (id < counter (Recipes.scannedRecipes (recipes s))) as Hlt.
  { destruct Hs as [_ (Hid & _)]. unfold recipe in Hr.
    destruct (db_get (Recipes.scannedRecipes (recipes s)) id) as [d|] eqn:Hd;
      [|done].
    by apply (Hid id d). }
  destruct (step_recipe o s id r Hs Hr) as [H | [H | [Hp _]]].
  - apply IH; [by apply consistent_step|done..].
  - right. apply run_recipe_gone; [by apply consistent_step| |done].
    clear -Hlt Hs. unfold step, exec.
    destruct o as [auth url|auth sid|w i|auth g id'|auth g|auth url|auth sid|w i
                  |auth g id'|auth g|auth id']; simpl; try done.
    + by destruct auth.
    + by destruct (Fridge.analyzeImage auth sid (fridge s)) as [[? ?]|].
    + destruct (Fridge.scheduled (fridge s) !! i); [|done].
      by destruct (Fridge.processImage w _ _).
    + by destruct auth.
    + destruct auth; simpl; [lia|done].
    + destruct (Recipes.scheduled (recipes s) !! i) as [job|]; [|done].
      pose proof (processRecipeImage_effect w job
                    (Recipes.mkBackend (Recipes.scannedRecipes (recipes s))
                       (delete i (Recipes.scheduled (recipes s))))) as He.
      destruct (Recipes.processRecipeImage w job _) as [b' res]. simpl in *.
      by destruct He as [-> | (d0 & r' & _ & _ & _ & _ & ->)].
    + destruct (Recipes.deleteRecipe auth id' (recipes s)) as [b|e] eqn:E;
        simpl; [|done].
      unfold Recipes.deleteRecipe in E. destruct auth as [user|]; [|done].
      destruct (db_get (Recipes.scannedRecipes (recipes s)) id') as [d'|] eqn:Hd';
        [|done].
      destruct (decide _); [done|].
      unfold db_delete in E. unfold db_get in Hd'. rewrite Hd' in E.
      by injection E as <-.
  - rewrite Hp in Ht. done.
Qed.
End Histories.

(** C1: in a reachable deployment, one operation leaves a record as it is,
    or takes it from processing to completed or failed, or, for a scanned
    recipe, deletes it. Hence a record found completed or failed is found
    unchanged after any further operations, status and payload alike,
    unless it is a scanned recipe that has been deleted, which is then not
    found at all; and what a point lookup or a list query returns under its
    id after any further operations is that same record, never a
    processing one. *)
Theorem status_monotonic (ops later : list App.op) (o : App.op) (id : nat) :
  let s := App.run ops App.init in
  (∀ a, App.analysis s id = Some a →
     App.analysis (App.step o s) id = Some a
     ∨ (Fridge.analysisStatus a = Convex.processing
        ∧ ∃ a', App.analysis (App.step o s) id = Some a'
                ∧ Convex.terminal (Fridge.analysisStatus a') = true))
  ∧ (∀ r, App.recipe s id = Some r →
       App.recipe (App.step o s) id = Some r
       ∨ App.recipe (App.step o s) id = None
       ∨ (Recipes.scanStatus r = Convex.processing
          ∧ ∃ r', App.recipe (App.step o s) id = Some r'
                  ∧ Convex.terminal (Recipes.scanStatus r') = true))
  ∧ (∀ a, App.analysis s id = Some a →
       Convex.terminal (Fridge.analysisStatus a) = true →
       App.analysis (App.run later s) id = Some a
       ∧ (∀ auth getUrl ret,
            Fridge.getAnalysis auth getUrl id (App.fridge (App.run later s))
            = Convex.Ok (Some ret) →
            Convex.fields (Fridge.doc ret) = a)
       ∧ (∀ auth getUrl rs ret,
            Fridge.getUserAnalyses auth getUrl (App.fridge (App.run later s))
            = Convex.Ok rs →
            ret ∈ rs → Fridge._id ret = id →
            Convex.fields (Fridge.doc ret) = a))
  ∧ (∀ r, App.recipe s id = Some r →
       Convex.terminal (Recipes.scanStatus r) = true →
       (App.recipe (App.run later s) id = Some r
        ∨ App.recipe (App.run later s) id = None)
       ∧ (∀ auth getUrl ret,
            Recipes.getScannedRecipe auth getUrl id (App.recipes (App.run later s))
            = Convex.Ok (Some ret) →
            Convex.fields (Recipes.doc ret) = r)
       ∧ (∀ auth getUrl rs ret,
            Recipes.getUserRecipes auth getUrl (App.recipes (App.run later s))
            = Convex.Ok rs →
            ret ∈ rs → Recipes._id ret = id →
            Convex.fields (Recipes.doc ret) = r)).
Proof.
  intros s.
  assert (App.consistent s) as Hs by (apply reachable_consistent; by exists ops).
  split; [|split; [|split]].
  - intros a. by apply step_analysis.
  - intros r. by apply step_recipe.
  - intros a Ha Ht.
    pose proof (run_analysis_terminal later s id a Hs Ha Ht) as H.
    split; [done|]. unfold App.analysis in H. split.
    + intros auth getUrl ret. unfold Fridge.getAnalysis.
      destruct auth as [user|]; [|done].
      destruct (Convex.db_get _ id) as [d|]; [|done].
      destruct (decide _); [done|]. intros [= <-]. simpl. by injection H.
    + intros auth getUrl rs ret Hq Hret Hid.
      destruct auth as [user|].
      * destruct (fridge_list user getUrl (App.fridge (App.run later s)))
          as (rs' & Hq' & _ & Hin & _).
        rewrite Hq in Hq'. injection Hq' as <-.
        destruct (Hin ret Hret) as (_ & Hd & _). rewrite Hid in Hd.
        rewrite Hd in H. by injection H.
      * injection Hq as <-. by apply elem_of_nil in Hret.
  - intros r Hr Ht.
    pose proof (run_recipe_terminal later s id r Hs Hr Ht) as H.
    split; [done|]. unfold App.recipe in H. split.
    + intros auth getUrl ret. unfold Recipes.getScannedRecipe.
      destruct auth as [user|]; [|done].
      destruct (Convex.db_get _ id) as [d|]; [|done].
      destruct (decide _); [done|]. intros [= <-]. simpl.
      destruct H as [H|H]; [by injection H | done].
    + intros auth getUrl rs ret Hq Hret Hid.
      destruct auth as [user|].
      * destruct (recipes_list user getUrl (App.recipes (App.run later s)))
          as (rs' & Hq' & _ & Hin & _).
        rewrite Hq in Hq'. injection Hq' as <-.
        destruct (Hin ret Hret) as (_ & Hd & _). rewrite Hid in Hd.
        rewrite Hd in H. destruct H as [H|H]; [by injection H | done].
      * injection Hq as <-. by apply elem_of_nil in Hret.
Qed.

Lemma status_monotonic_witness :
  App.analysis
    (App.run [App.AnalyzeImage (Some 2) 5;
              App.ProcessImage (Example.fridge_world (Js.lit "a") (Js.lit "b")) 0]
       (App.run [App.AnalyzeImage (Some 1) 0;
                 App.ProcessImage (Example.fridge_world (Js.lit " ") (Js.lit "?")) 0]
          App.init)) 0
  = Some (Fridge.mkAnalysis 1 0 [] [] Convex.failed).
Proof.
  destruct (status_monotonic
              [App.AnalyzeImage (Some 1) 0;
               App.ProcessImage (Example.fridge_world (Js.lit " ") (Js.lit "?")) 0]
              [App.AnalyzeImage (Some 2) 5;
               App.ProcessImage (Example.fridge_world (Js.lit "a") (Js.lit "b")) 0]
              (App.GetUserAnalyses None Example.file_url) 0)
    as (_ & _ & H & _).
  exact (proj1 (H (Fridge.mkAnalysis 1 0 [] [] Convex.failed) eq_refl eq_refl)).
Defined.

(** * Further properties of the handlers *)

(** ** What a task stores *)

Section TaskOutcome.
Import Js Convex Spec Shape.

Lemma analyse_Ok_inv w args iv rv :
  Fridge.analyse w args = Ok (iv, rv) →
  ∃ n, length_of iv = Ok n ∧ is_zero n = false.
Proof.
  unfold Fridge.analyse.
  destruct (match Fridge.getUrl w (Fridge.storageId args) with
            | Some url => if truthy url then Ok url
                          else Throw (Error "Image not found")
            | None => Throw (Error "Image not found")
            end) as [url|]; [|done].
  cbn [mbind result_bind].
  destruct (Fridge.ingredients_completion w url) as [r1|]; [|done].
  cbn [mbind result_bind].
  destruct (Fridge.parse_ingredients w r1) as [v|]; [|done].
  cbn [mbind result_bind].
  destruct (length_of v) as [n|] eqn:Hn; [|done]. cbn [mbind result_bind].
  destruct (is_zero n) eqn:Hz; [done|].
  destruct (Fridge.join_check v); [|done]. cbn [mbind result_bind].
  destruct (Fridge.recipes_completion w v) as [r2|]; [|done].
  cbn [mbind result_bind].
  destruct (Fridge.parse_recipes w v r2); [|done]. cbn [mbind result_bind].
  intros [= <- <-]. by exists n.
Qed.

Lemma validated_ingredients_nonempty iv n ings :
  length_of iv = Ok n → is_zero n = false →
  as_string_array iv = Some ings → ings ≠ [].
Proof.
  intros Hl Hz Hv. apply as_string_array_inv in Hv. subst iv.
  rewrite length_of_strings in Hl. injection Hl as <-.
  rewrite is_zero_length in Hz. intros ->. done.
Qed.

(** The record a run of [processImage] leaves for a document that is in
    the table: same owner, same image, a terminal status, and the payload
    that goes with the status. *)
Lemma processImage_outcome w args st d :
  db_get (Fridge.fridgeAnalyses st) (Fridge.analysisId args) = Some d →
  ∃ a',
    (Fridge.processImage w args st).1
    = Fridge.mkBackend
        (Table (<[Fridge.analysisId args := Document (_creationTime d) a']>
                  (docs (Fridge.fridgeAnalyses st)))
               (counter (Fridge.fridgeAnalyses st)))
        (Fridge.scheduled st)
    ∧ Fridge.userId a' = Fridge.userId (fields d)
    ∧ Fridge.imageId a' = Fridge.imageId (fields d)
    ∧ terminal (Fridge.analysisStatus a') = true
    ∧ analysis_shape a'.
Proof.
  intros Hd. unfold Fridge.processImage, Fridge.processImage_try.
  destruct (Fridge.analyse w args) as [[iv rv]|e] eqn:Ha; cbn [mbind result_bind].
  - unfold Fridge.run_updateAnalysis.
    destruct (as_string_array iv) as [ings|] eqn:Hi;
      [destruct (Fridge.as_recipe_array rv) as [recs|]|].
    + rewrite (updateAnalysis_Some _ _ _ _ _ d Hd). eexists.
      split; [reflexivity|]. repeat split.
      destruct (analyse_Ok_inv w args iv rv Ha) as (n & Hl & Hz).
      by eapply validated_ingredients_nonempty.
    + rewrite processImage_catch_eq, (updateAnalysis_Some _ _ _ _ _ d Hd).
      eexists. split; [reflexivity|]. by repeat split.
    + rewrite processImage_catch_eq, (updateAnalysis_Some _ _ _ _ _ d Hd).
      eexists. split; [reflexivity|]. by repeat split.
  - rewrite processImage_catch_eq, (updateAnalysis_Some _ _ _ _ _ d Hd).
    eexists. split; [reflexivity|]. by repeat split.
Qed.

Lemma processImage_missing w args st :
  db_get (Fridge.fridgeAnalyses st) (Fridge.analysisId args) = None →
  (Fridge.processImage w args st).1 = st.
Proof.
  intros Hd. destruct (processImage_effect w args st)
    as [H | (d & ? & ? & ? & Hd' & _)]; [done | congruence].
Qed.

Lemma scan_Ok_inv w args recipeData :
  Recipes.scan w args = Ok recipeData →
  Recipes.nothing_extracted recipeData = Ok false.
Proof.
  unfold Recipes.scan.
  destruct (match Recipes.getUrl w (Recipes.storageId args) with
            | Some url => if truthy url then Ok url
                          else Throw (Error "Image not found")
            | None => Throw (Error "Image not found")
            end) as [url|]; [|done].
  cbn [mbind result_bind].
  destruct (Recipes.recipe_completion w url) as [r1|]; [|done].
  cbn [mbind result_bind].
  destruct (Recipes.parse_recipe w r1) as [rd|]; [|done].
  cbn [mbind result_bind].
  destruct (Recipes.nothing_extracted rd) as [[|]|] eqn:Hn; try done.
  cbn [mbind result_bind]. by intros [= <-].
Qed.

(** A validated object in which something was extracted has an ingredient
    or an instruction. *)
Lemma validated_recipe_nonempty recipeData rd :
  Recipes.nothing_extracted recipeData = Ok false →
  Recipes.as_recipeData recipeData = Some rd →
  Recipes.RecipeData.ingredients rd ≠ [] ∨ Recipes.RecipeData.instructions rd ≠ [].
Proof.
  intros Hz Hrd. unfold Recipes.as_recipeData in Hrd.
  destruct (only_fields _ _); [|done].
  destruct (obj_get (lit "name") recipeData ≫= as_string) as [name|]; [|done].
  destruct (obj_get (lit "ingredients") recipeData) as [vi|] eqn:Hvi; [|done].
  destruct (obj_get (lit "instructions") recipeData) as [vs|] eqn:Hvs;
    [|simpl in Hrd; by destruct (as_string_array vi)].
  cbn [mbind option_bind] in Hrd.
  destruct (as_string_array vi) as [ings|] eqn:Hi; [|done].
  destruct (as_string_array vs) as [steps|] eqn:Hs; [|done].
  cbn [mbind option_bind] in Hrd.
  destruct (as_optional_string (obj_get (lit "cookingTime") recipeData));
    cbn [mbind option_bind] in Hrd; [|done].
  destruct (as_optional_string (obj_get (lit "servings") recipeData));
    cbn [mbind option_bind] in Hrd; [|done].
  destruct (as_optional_string (obj_get (lit "difficulty") recipeData));
    cbn [mbind option_bind] in Hrd; [|done].
  destruct (as_optional_string (obj_get (lit "category") recipeData));
    cbn [mbind option_bind] in Hrd; [|done].
  injection Hrd as <-. simpl.
  apply as_string_array_inv in Hi, Hs. subst vi vs.
  unfold Recipes.nothing_extracted, Recipes.property_length in Hz.
  rewrite Hvi, Hvs, !length_of_strings in Hz. cbn [mbind result_bind] in Hz.
  rewrite is_zero_length in Hz.
  destruct ings; [|by left]. right.
  rewrite bool_decide_eq_true_2 in Hz by done. cbn [mbind result_bind] in Hz.
  rewrite is_zero_length in Hz. intros ->. done.
Qed.

Lemma processRecipeImage_outcome w args st d :
  db_get (Recipes.scannedRecipes st) (Recipes.recipeId args) = Some d →
  ∃ r',
    (Recipes.processRecipeImage w args st).1
    = Recipes.mkBackend
        (Table (<[Recipes.recipeId args := Document (_creationTime d) r']>
                  (docs (Recipes.scannedRecipes st)))
               (counter (Recipes.scannedRecipes st)))
        (Recipes.scheduled st)
    ∧ Recipes.userId r' = Recipes.userId (fields d)
    ∧ Recipes.imageId r' = Recipes.imageId (fields d)
    ∧ terminal (Recipes.scanStatus r') = true
    ∧ recipe_shape r'.
Proof.
  intros Hd. unfold Recipes.processRecipeImage, Recipes.processRecipeImage_try.
  destruct (Recipes.scan w args) as [recipeData|e] eqn:Ha; cbn [mbind result_bind].
  - unfold Recipes.run_updateScannedRecipe.
    destruct (Recipes.as_recipeData recipeData) as [rd|] eqn:Hv.
    + rewrite (updateScannedRecipe_Some _ _ _ _ d Hd). eexists.
      split; [reflexivity|]. repeat split.
      apply (validated_recipe_nonempty recipeData rd); [|done].
      by eapply scan_Ok_inv.
    + rewrite (processRecipeImage_catch_Some args st d Hd).
      eexists. split; [reflexivity|]. by repeat split.
  - rewrite (processRecipeImage_catch_Some args st d Hd).
    eexists. split; [reflexivity|]. by repeat split.
Qed.
End TaskOutcome.

(** ** The shape is kept *)

Section ShapeKept.
Import Js Convex Spec App Shape.

Lemma elem_of_delete_other {J} (l : list J) i x y :
  x ∈ l → l !! i = Some y → x ≠ y → x ∈ delete i l.
Proof.
  intros [j Hj]%list_elem_of_lookup Hi Hne.
  destruct (decide (j < i)) as [Hlt|Hge].
  - apply (list_elem_of_lookup_2 _ j). by rewrite list_lookup_delete_lt.
  - assert (j ≠ i) by (intros ->; congruence).
    apply (list_elem_of_lookup_2 _ (pred j)).
    rewrite list_lookup_delete_ge by lia.
    by replace (S (pred j)) with j by lia.
Qed.

Lemma shaped_init : shaped init.
Proof. split; (split; [done|]); by intros ? ? ?%elem_of_nil. Qed.

Lemma fridge_shaped_analyzeImage user storage_id b b' id :
  fridge_consistent b → fridge_shaped b →
  Fridge.analyzeImage (Some user) storage_id b = Ok (b', id) →
  fridge_shaped b'.
Proof.
  intros (Hid & Hjobs & _) [Hdocs Himg] [= <- <-].
  set (c := counter (Fridge.fridgeAnalyses b)) in *.
  split; simpl.
  - intros id d. unfold db_get. simpl. fold c.
    destruct (decide (id = c)) as [->|Hne].
    + rewrite lookup_insert_eq. intros [= <-]. simpl.
      repeat split. intros _. apply elem_of_app. right. by left.
    + rewrite lookup_insert_ne by done. intros Hd.
      destruct (Hdocs id d Hd) as (Ht & Hs & Hq). repeat split; [done..|].
      intros Hp. apply elem_of_app. left. by apply Hq.
  - intros job d [Hjob|Hjob%list_elem_of_singleton]%elem_of_app.
    + unfold db_get. simpl. fold c. rewrite lookup_insert_ne; [by apply Himg|].
      destruct (Hjobs job Hjob) as (d' & Hd' & _). apply Hid in Hd'.
      fold c in Hd'. lia.
    + subst job. unfold db_get. simpl. fold c. rewrite lookup_insert_eq.
      by intros [= <-].
Qed.

Lemma fridge_shaped_processImage w i job b :
  fridge_consistent b → fridge_shaped b → Fridge.scheduled b !! i = Some job →
  fridge_shaped
    (Fridge.processImage w job
       (Fridge.mkBackend (Fridge.fridgeAnalyses b) (delete i (Fridge.scheduled b)))).1.
Proof.
  intros (Hid & Hjobs & Hnd) [Hdocs Himg] Hi.
  destruct (Hjobs job) as (d & Hd & Hst); [by eapply list_elem_of_lookup_2|].
  destruct (processImage_outcome w job
              (Fridge.mkBackend (Fridge.fridgeAnalyses b)
                 (delete i (Fridge.scheduled b))) d Hd)
    as (a' & -> & Hu & Him & Hterm & Hshape).
  destruct (Hdocs _ d Hd) as (Ht & _ & _).
  split; simpl.
  - intros id d'. unfold db_get. simpl.
    destruct (decide (id = Fridge.analysisId job)) as [->|Hne].
    + rewrite lookup_insert_eq. intros [= <-]. simpl. repeat split; [done..|].
      intros Hp. rewrite Hp in Hterm. done.
    + rewrite lookup_insert_ne by done. intros Hd'.
      destruct (Hdocs id d' Hd') as (Ht' & Hs' & Hq'). repeat split; [done..|].
      intros Hp. eapply elem_of_delete_other; [by apply Hq'|done|].
      intros E. apply Hne. by rewrite <- E.
  - intros job' d' Hjob'. unfold db_get. simpl.
    rewrite lookup_insert_ne.
    + apply Himg. by eapply elem_of_delete.
    + apply not_eq_sym. by eapply (other_jobs Fridge.analysisId).
Qed.

Lemma recipes_shaped_scanRecipe user storage_id b b' id :
  recipes_consistent b → recipes_shaped b →
  Recipes.scanRecipe (Some user) storage_id b = Ok (b', id) →
  recipes_shaped b'.
Proof.
  intros (Hid & Hjobs & _) [Hdocs Himg] [= <- <-].
  set (c := counter (Recipes.scannedRecipes b)) in *.
  split; simpl.
  - intros id d. unfold db_get. simpl. fold c.
    destruct (decide (id = c)) as [->|Hne].
    + rewrite lookup_insert_eq. intros [= <-]. simpl.
      repeat split. intros _. apply elem_of_app. right. by left.
    + rewrite lookup_insert_ne by done. intros Hd.
      destruct (Hdocs id d Hd) as (Ht & Hs & Hq). repeat split; [done..|].
      intros Hp. apply elem_of_app. left. by apply Hq.
  - intros job d [Hjob|Hjob%list_elem_of_singleton]%elem_of_app.
    + unfold db_get. simpl. fold c. rewrite lookup_insert_ne; [by apply Himg|].
      destruct (Hjobs job Hjob) as [Hlt _]. fold c in Hlt. lia.
    + subst job. unfold db_get. simpl. fold c. rewrite lookup_insert_eq.
      by intros [= <-].
Qed.

Lemma recipes_shaped_processRecipeImage w i job b :
  recipes_consistent b → recipes_shaped b → Recipes.scheduled b !! i = Some job →
  recipes_shaped
    (Recipes.processRecipeImage w job
       (Recipes.mkBackend (Recipes.scannedRecipes b) (delete i (Recipes.scheduled b)))).1.
Proof.
  intros (Hid & Hjobs & Hnd) [Hdocs Himg] Hi.
  destruct (db_get (Recipes.scannedRecipes b) (Recipes.recipeId job)) as [d|] eqn:Hd.
  - destruct (processRecipeImage_outcome w job
                (Recipes.mkBackend (Recipes.scannedRecipes b)
                   (delete i (Recipes.scheduled b))) d Hd)
      as (r' & -> & Hu & Him & Hterm & Hshape).
    destruct (Hdocs _ d Hd) as (Ht & _ & _).
    split; simpl.
    + intros id d'. unfold db_get. simpl.
      destruct (decide (id = Recipes.recipeId job)) as [->|Hne].
      * rewrite lookup_insert_eq. intros [= <-]. simpl. repeat split; [done..|].
        intros Hp. rewrite Hp in Hterm. done.
      * rewrite lookup_insert_ne by done. intros Hd'.
        destruct (Hdocs id d' Hd') as (Ht' & Hs' & Hq'). repeat split; [done..|].
        intros Hp. eapply elem_of_delete_other; [by apply Hq'|done|].
        intros E. apply Hne. by rewrite <- E.
    + intros job' d' Hjob'. unfold db_get. simpl.
      rewrite lookup_insert_ne.
      * apply Himg. by eapply elem_of_delete.
      * apply not_eq_sym. by eapply (other_jobs Recipes.recipeId).
  - rewrite (processRecipeImage_deleted w job
               (Recipes.mkBackend (Recipes.scannedRecipes b)
                  (delete i (Recipes.scheduled b))) Hd).
    split; simpl.
    + intros id d' Hd'.
      destruct (Hdocs id d' Hd') as (Ht' & Hs' & Hq'). repeat split; [done..|].
      intros Hp. eapply elem_of_delete_other; [by apply Hq'|done|].
      intros E. rewrite <- E in Hd. simpl in Hd. congruence.
    + intros job' d' Hjob'. apply Himg. by eapply elem_of_delete.
Qed.

Lemma recipes_shaped_deleteRecipe auth id b b' :
  recipes_shaped b → Recipes.deleteRecipe auth id b = Ok b' → recipes_shaped b'.
Proof.
  intros [Hdocs Himg]. unfold Recipes.deleteRecipe.
  destruct auth as [user|]; [|done].
  destruct (db_get (Recipes.scannedRecipes b) id) as [d|] eqn:Hd; [|done].
  destruct (decide _); [done|].
  unfold db_delete. unfold db_get in Hd. rewrite Hd.
  cbn [mbind result_bind]. intros [= <-]. split; simpl.
  - intros id' d'. unfold db_get. simpl. intros [_ H]%lookup_delete_Some.
    by apply (Hdocs id' d').
  - intros job d' Hjob. unfold db_get. simpl. intros [_ H]%lookup_delete_Some.
    by apply (Himg job d').
Qed.

Lemma shaped_step o s : consistent s → shaped s → shaped (step o s).
Proof.
  intros [Hcf Hcr] [Hf Hr]. unfold step, exec.
  destruct o as [auth url|auth sid|w i|auth g id|auth g|auth url|auth sid|w i
                |auth g id|auth g|auth id]; try done.
  - by destruct auth.
  - destruct auth as [user|]; [|done].
    destruct (Fridge.analyzeImage (Some user) sid (fridge s)) as [[b id]|e] eqn:E;
      [|done].
    split; [|done]. by eapply fridge_shaped_analyzeImage.
  - destruct (Fridge.scheduled (fridge s) !! i) as [job|] eqn:E; [|done].
    pose proof (fridge_shaped_processImage w i job (fridge s) Hcf Hf E) as H.
    destruct (Fridge.processImage w job _) as [b' r]. by split.
  - by destruct auth.
  - destruct auth as [user|]; [|done].
    destruct (Recipes.scanRecipe (Some user) sid (recipes s)) as [[b id]|e] eqn:E;
      [|done].
    split; [done|]. by eapply recipes_shaped_scanRecipe.
  - destruct (Recipes.scheduled (recipes s) !! i) as [job|] eqn:E; [|done].
    pose proof (recipes_shaped_processRecipeImage w i job (recipes s) Hcr Hr E) as H.
    destruct (Recipes.processRecipeImage w job _) as [b' r]. by split.
  - destruct (Recipes.deleteRecipe auth id (recipes s)) as [b|e] eqn:E; [|done].
    split; [done|]. by eapply recipes_shaped_deleteRecipe.
Qed.

Lemma shaped_run ops s : consistent s → shaped s → shaped (run ops s).
Proof.
  revert s. induction ops as [|o ops IH]; intros s Hc Hs; [done|].
  apply IH; [by apply consistent_step | by apply shaped_step].
Qed.

Lemma reachable_shaped s : reachable s → shaped s.
Proof. intros [ops ->]. apply shaped_run; [apply consistent_init | apply shaped_init]. Qed.
End ShapeKept.

(** ** Owner and image of a record *)

Section Ownership.
Import Js Convex Spec App Shape.

(** One operation keeps every analysis, with its owner and its image. *)
Lemma step_analysis_owner o s id a :
  consistent s → analysis s id = Some a →
  ∃ a', analysis (step o s) id = Some a'
        ∧ Fridge.userId a' = Fridge.userId a
        ∧ Fridge.imageId a' = Fridge.imageId a.
Proof.
  intros [(Hid & Hjobs & Hnd) _] Ha. unfold analysis in *.
  destruct (db_get (Fridge.fridgeAnalyses (fridge s)) id) as [d|] eqn:Hd; [|done].
  injection Ha as <-. unfold step, exec.
  destruct o as [auth url|auth sid|w i|auth g id'|auth g|auth url|auth sid|w i
                |auth g id'|auth g|auth id']; simpl;
    try (exists (fields d); by rewrite Hd).
  - exists (fields d). destruct auth; simpl; by rewrite Hd.
  - exists (fields d). destruct auth as [user|]; simpl; [|by rewrite Hd].
    unfold db_get in *. simpl. rewrite lookup_insert_ne; [by rewrite Hd|].
    apply Hid in Hd. lia.
  - destruct (Fridge.scheduled (fridge s) !! i) as [job|] eqn:Hi;
      [|exists (fields d); simpl; by rewrite Hd].
    pose proof (processImage_effect w job
                  (Fridge.mkBackend (Fridge.fridgeAnalyses (fridge s))
                     (delete i (Fridge.scheduled (fridge s))))) as He.
    destruct (Fridge.processImage w job _) as [b' r]. simpl in *.
    destruct He as [-> | (d0 & ings & recs & status & Hd0 & Hterm & ->)];
      simpl; [exists (fields d); by rewrite Hd|].
    unfold db_get in *. simpl.
    destruct (decide (id = Fridge.analysisId job)) as [->|Hne].
    + rewrite lookup_insert_eq. simpl. rewrite Hd in Hd0. injection Hd0 as <-.
      by eexists.
    + exists (fields d). rewrite lookup_insert_ne by done. by rewrite Hd.
  - exists (fields d). destruct auth; simpl; by rewrite Hd.
  - exists (fields d).
    destruct (Recipes.scanRecipe auth sid (recipes s)) as [[b i]|e];
      simpl; by rewrite Hd.
  - exists (fields d).
    destruct (Recipes.scheduled (recipes s) !! i); [|simpl; by rewrite Hd].
    destruct (Recipes.processRecipeImage w _ _). simpl. by rewrite Hd.
  - exists (fields d).
    destruct (Recipes.deleteRecipe auth id' (recipes s)); simpl; by rewrite Hd.
Qed.

(** One operation keeps the owner and the image of a scanned recipe it
    does not delete. *)
Lemma step_recipe_owner o s id r r' :
  consistent s → recipe s id = Some r → recipe (step o s) id = Some r' →
  Recipes.userId r' = Recipes.userId r ∧ Recipes.imageId r' = Recipes.imageId r.
Proof.
  intros [_ (Hid & Hjobs & Hnd)] Hr. unfold recipe in *.
  destruct (db_get (Recipes.scannedRecipes (recipes s)) id) as [d|] eqn:Hd; [|done].
  injection Hr as <-. unfold step, exec.
  destruct o as [auth url|auth sid|w i|auth g id'|auth g|auth url|auth sid|w i
                |auth g id'|auth g|auth id']; simpl;
    try (rewrite Hd; by intros [= <-]).
  - destruct auth; simpl; rewrite Hd; by intros [= <-].
  - destruct (Fridge.analyzeImage auth sid (fridge s)) as [[b i]|e];
      simpl; rewrite Hd; by intros [= <-].
  - destruct (Fridge.scheduled (fridge s) !! i);
      [|simpl; rewrite Hd; by intros [= <-]].
    destruct (Fridge.processImage w _ _). simpl. rewrite Hd. by intros [= <-].
  - destruct auth; simpl; rewrite Hd; by intros [= <-].
  - destruct auth as [user|]; simpl; [|rewrite Hd; by intros [= <-]].
    unfold db_get in *. simpl. rewrite lookup_insert_ne.
    + rewrite Hd. by intros [= <-].
    + apply Hid in Hd. lia.
  - destruct (Recipes.scheduled (recipes s) !! i) as [job|] eqn:Hi;
      [|simpl; rewrite Hd; by intros [= <-]].
    pose proof (processRecipeImage_effect w job
                  (Recipes.mkBackend (Recipes.scannedRecipes (recipes s))
                     (delete i (Recipes.scheduled (recipes s))))) as He.
    destruct (Recipes.processRecipeImage w job _) as [b' res]. simpl in *.
    destruct He as [-> | (d0 & r0 & Hd0 & Hterm & Hu & Him & ->)];
      simpl; [rewrite Hd; by intros [= <-]|].
    unfold db_get in *. simpl.
    destruct (decide (id = Recipes.recipeId job)) as [->|Hne].
    + rewrite lookup_insert_eq. simpl. rewrite Hd in Hd0. injection Hd0 as <-.
      by intros [= <-].
    + rewrite lookup_insert_ne by done. rewrite Hd. by intros [= <-].
  - destruct (Recipes.deleteRecipe auth id' (recipes s)) as [b|e] eqn:E;
      simpl; [|rewrite Hd; by intros [= <-]].
    unfold Recipes.deleteRecipe in E. destruct auth as [user|]; [|done].
    destruct (db_get (Recipes.scannedRecipes (recipes s)) id') as [d'|] eqn:Hd';
      [|done].
    destruct (decide _); [done|].
    unfold db_delete in E. unfold db_get in Hd'. rewrite Hd' in E.
    injection E as <-. unfold db_get in *. simpl.
    intros [Hne H]%fmap_Some_1. destruct H as [Hl ->].
    apply lookup_delete_Some in Hl as [_ Hl]. rewrite Hd in Hl.
    by injection Hl as <-.
Qed.

Lemma run_analysis_owner later s id a :
  consistent s → analysis s id = Some a →
  ∃ a', analysis (run later s) id = Some a'
        ∧ Fridge.userId a' = Fridge.userId a
        ∧ Fridge.imageId a' = Fridge.imageId a.
Proof.
  revert s a. induction later as [|o later IH]; intros s a Hs Ha; [by exists a|].
  destruct (step_analysis_owner o s id a Hs Ha) as (a1 & Ha1 & Hu1 & Hi1).
  destruct (IH (step o s) a1 (consistent_step o s Hs) Ha1) as (a' & Ha' & Hu & Hi).
  exists a'. simpl. split; [done|]. split; congruence.
Qed.
End Ownership.

Section OwnershipHistory.
Import Js Convex Spec App Shape.

Lemma step_recipes_counter o s :
  counter (Recipes.scannedRecipes (recipes s))
  ≤ counter (Recipes.scannedRecipes (recipes (step o s))).
Proof.
  unfold step, exec.
  destruct o as [auth url|auth sid|w i|auth g id'|auth g|auth url|auth sid|w i
                |auth g id'|auth g|auth id']; simpl; try done.
  - by destruct auth.
  - by destruct (Fridge.analyzeImage auth sid (fridge s)) as [[? ?]|].
  - destruct (Fridge.scheduled (fridge s) !! i); [|done].
    by destruct (Fridge.processImage w _ _).
  - by destruct auth.
  - destruct auth; simpl; [lia|done].
  - destruct (Recipes.scheduled (recipes s) !! i) as [job|]; [|done].
    pose proof (processRecipeImage_effect w job
                  (Recipes.mkBackend (Recipes.scannedRecipes (recipes s))
                     (delete i (Recipes.scheduled (recipes s))))) as He.
    destruct (Recipes.processRecipeImage w job _) as [b' res]. simpl in *.
    by destruct He as [-> | (d0 & r' & _ & _ & _ & _ & ->)].
  - destruct (Recipes.deleteRecipe auth id' (recipes s)) as [b|e] eqn:E;
      simpl; [|done].
    unfold Recipes.deleteRecipe in E. destruct auth as [user|]; [|done].
    destruct (db_get (Recipes.scannedRecipes (recipes s)) id') as [d'|] eqn:Hd';
      [|done].
    destruct (decide _); [done|].
    unfold db_delete in E. unfold db_get in Hd'. rewrite Hd' in E.
    by injection E as <-.
Qed.

Lemma run_recipe_owner later s id r r' :
  consistent s → recipe s id = Some r → recipe (run later s) id = Some r' →
  Recipes.userId r' = Recipes.userId r ∧ Recipes.imageId r' = Recipes.imageId r.
Proof.
  revert s r. induction later as [|o later IH]; intros s r Hs Hr Hr'.
  { simpl in Hr'. rewrite Hr in Hr'. by injection Hr' as <-. }
  simpl in Hr'.
  destruct (recipe (step o s) id) as [r1|] eqn:H1.
  - destruct (step_recipe_owner o s id r r1 Hs Hr H1) as [Hu Hi].
    destruct (IH (step o s) r1 (consistent_step o s Hs) H1 Hr') as [Hu' Hi'].
    split; congruence.
  - assert (id < counter (Recipes.scannedRecipes (recipes s))) as Hlt.
    { destruct Hs as [_ (Hid & _)]. unfold recipe in Hr.
      destruct (db_get (Recipes.scannedRecipes (recipes s)) id) as [d|] eqn:Hd;
        [|done].
      by apply (Hid id d). }
    pose proof (step_recipes_counter o s) as Hc.
    rewrite (run_recipe_gone later (step o s) id) in Hr';
      [done | by apply consistent_step | lia | done].
Qed.
End OwnershipHistory.

(** X1: in every reachable deployment the status of an analysis tells its
    payload: no ingredient and no recipe while processing and when failed,
    at least one ingredient when completed. It is processing exactly when
    its job is still in the queue, and that job is for its image. *)
Theorem analysis_shape_reachable (ops : list App.op) (id : nat)
    (a : Fridge.Analysis) :
  let s := App.run ops App.init in
  App.analysis s id = Some a →
  Shape.analysis_shape a
  ∧ (Fridge.analysisStatus a = Convex.processing
     ↔ ∃ job, job ∈ Fridge.scheduled (App.fridge s) ∧ Fridge.analysisId job = id)
  ∧ (∀ job, job ∈ Fridge.scheduled (App.fridge s) → Fridge.analysisId job = id →
       Fridge.storageId job = Fridge.imageId a).
Proof.
  intros s Ha.
  assert (App.reachable s) as Hreach by by exists ops.
  destruct (reachable_consistent s Hreach) as [(_ & Hjobs & _) _].
  destruct (reachable_shaped s Hreach) as [[Hdocs Himg] _].
  unfold App.analysis in Ha.
  destruct (Convex.db_get (Fridge.fridgeAnalyses (App.fridge s)) id) as [d|] eqn:Hd;
    [|done].
  injection Ha as <-. destruct (Hdocs id d Hd) as (_ & Hshape & Hq).
  split; [done|]. split; [split|].
  - intros Hp. eexists. split; [by apply Hq|done].
  - intros (job & Hjob & <-). destruct (Hjobs job Hjob) as (d' & Hd' & Hst).
    rewrite Hd in Hd'. by injection Hd' as <-.
  - intros job Hjob <-. symmetry. by apply (Himg job d).
Qed.

Lemma analysis_shape_reachable_witness :
  Shape.analysis_shape (Fridge.mkAnalysis 1 0 [] [] Convex.failed).
Proof.
  exact (proj1 (analysis_shape_reachable
                  [App.AnalyzeImage (Some 1) 0;
                   App.ProcessImage (Example.fridge_world (Js.lit " ") (Js.lit "?")) 0]
                  0 (Fridge.mkAnalysis 1 0 [] [] Convex.failed) eq_refl)).
Defined.

(** X2: in every reachable deployment the status of a scanned recipe tells
    its payload: the empty record inserted by [scanRecipe] while
    processing, the "Scan Failed" record when failed, an ingredient or an
    instruction when completed. It is processing exactly when its job is
    still in the queue, and that job is for its image. *)
Theorem recipe_shape_reachable (ops : list App.op) (id : nat)
    (r : Recipes.ScannedRecipe) :
  let s := App.run ops App.init in
  App.recipe s id = Some r →
  Shape.recipe_shape r
  ∧ (Recipes.scanStatus r = Convex.processing
     ↔ ∃ job, job ∈ Recipes.scheduled (App.recipes s) ∧ Recipes.recipeId job = id)
  ∧ (∀ job, job ∈ Recipes.scheduled (App.recipes s) → Recipes.recipeId job = id →
       Recipes.storageId job = Recipes.imageId r).
Proof.
  intros s Hr.
  assert (App.reachable s) as Hreach by by exists ops.
  destruct (reachable_consistent s Hreach) as [_ (_ & Hjobs & _)].
  destruct (reachable_shaped s Hreach) as [_ [Hdocs Himg]].
  unfold App.recipe in Hr.
  destruct (Convex.db_get (Recipes.scannedRecipes (App.recipes s)) id) as [d|] eqn:Hd;
    [|done].
  injection Hr as <-. destruct (Hdocs id d Hd) as (_ & Hshape & Hq).
  split; [done|]. split; [split|].
  - intros Hp. eexists. split; [by apply Hq|done].
  - intros (job & Hjob & <-). destruct (Hjobs job Hjob) as [_ Hst]. by apply Hst.
  - intros job Hjob <-. symmetry. by apply (Himg job d).
Qed.

Lemma recipe_shape_reachable_witness :
  Shape.recipe_shape
    (Recipes.mkScannedRecipe 1 0 (Js.lit "2 cups flour") [Js.lit "cups flour"] []
       (Some (Js.lit "Unknown")) (Some (Js.lit "Unknown")) (Some (Js.lit "Medium"))
       (Some (Js.lit "Other")) Convex.completed).
Proof.
  exact (proj1 (recipe_shape_reachable
                  [App.ScanRecipe (Some 1) 0;
                   App.ProcessRecipeImage (Example.scan_world (Js.lit "2 cups flour")) 0]
                  0 _ eq_refl)).
Defined.

(** X3: a record keeps its owner and its image for as long as it exists,
    whatever operations follow; an analysis is never removed. *)
Theorem owner_and_image_kept (ops later : list App.op) (id : nat) :
  let s := App.run ops App.init in
  (∀ a, App.analysis s id = Some a →
     ∃ a', App.analysis (App.run later s) id = Some a'
           ∧ Fridge.userId a' = Fridge.userId a
           ∧ Fridge.imageId a' = Fridge.imageId a)
  ∧ (∀ r r', App.recipe s id = Some r → App.recipe (App.run later s) id = Some r' →
       Recipes.userId r' = Recipes.userId r
       ∧ Recipes.imageId r' = Recipes.imageId r).
Proof.
  intros s.
  assert (App.consistent s) as Hs by (apply reachable_consistent; by exists ops).
  split.
  - intros a. by apply run_analysis_owner.
  - intros r r'. by apply run_recipe_owner.
Qed.

Lemma owner_and_image_kept_witness :
  ∃ a', App.analysis
          (App.run [App.ProcessImage (Example.fridge_world (Js.lit "- eggs") (Js.lit "?")) 0]
             (App.run [App.AnalyzeImage (Some 1) 0] App.init)) 0 = Some a'
        ∧ Fridge.userId a' = 1 ∧ Fridge.imageId a' = 0.
Proof.
  exact (proj1 (owner_and_image_kept [App.AnalyzeImage (Some 1) 0]
                  [App.ProcessImage (Example.fridge_world (Js.lit "- eggs") (Js.lit "?")) 0]
                  0)
           (Fridge.mkAnalysis 1 0 [] [] Convex.processing) eq_refl).
Defined.

(** ** Submission *)

Section Submission.
Import Js Convex Spec App Shape.

Lemma newer_antisym {D} (x y : Id * document D) :
  newer x y → newer y x → x.1 = y.1.
Proof. unfold newer. lia. Qed.

(** A document of the user that is no older than any other of the user
    comes first. *)
Lemma by_user_desc_head {D} (owner : D → UserId) (t : table D) u x :
  x ∈ by_user_desc owner t u →
  (∀ y, y ∈ by_user_desc owner t u → newer x y) →
  ∃ rest, by_user_desc owner t u = x :: rest.
Proof.
  intros Hx Hmax. pose proof (by_user_desc_sorted owner t u) as Hs.
  assert (Hlookup : ∀ y, y ∈ by_user_desc owner t u → db_get t y.1 = Some y.2).
  { intros [id d] Hy. by apply (elem_of_by_user_desc owner t u id d) in Hy as [? _]. }
  destruct (by_user_desc owner t u) as [|h rest]; [by apply elem_of_nil in Hx|].
  exists rest. f_equal.
  assert (newer h x) as Hhx.
  { apply elem_of_cons in Hx as [->|Hx].
    - unfold newer. lia.
    - apply StronglySorted_cons in Hs as [Hall _].
      rewrite Forall_forall in Hall. by apply Hall. }
  assert (h.1 = x.1) as E by (apply newer_antisym; [done | apply Hmax; by left]).
  pose proof (Hlookup h ltac:(by left)) as Hh. pose proof (Hlookup x Hx) as Hx'.
  rewrite E, Hx' in Hh. destruct h, x. simpl in *. by simplify_eq.
Qed.
End Submission.

(** X4: [analyzeImage] by a user answers with an id no analysis had; at
    once a lookup of that id by the user finds the record, processing,
    with no ingredient and no recipe, the submitted image and its URL, and
    the list of the user's analyses starts with it; one job for that id and
    image is added at the end of the queue; no other analysis and no
    scanned recipe is touched. *)
Theorem analyzeImage_submits (ops : list App.op) (user storage_id : nat)
    (getUrl : nat → option (list N)) :
  let s := App.run ops App.init in
  let s' := App.step (App.AnalyzeImage (Some user) storage_id) s in
  ∃ id,
    (App.exec (App.AnalyzeImage (Some user) storage_id) s).2 = App.NewId id
    ∧ App.analysis s id = None
    ∧ Fridge.getAnalysis (Some user) getUrl id (App.fridge s')
      = Convex.Ok
          (Some (Fridge.mkReturned id
                   (Convex.Document id
                      (Fridge.mkAnalysis user storage_id [] [] Convex.processing))
                   (getUrl storage_id)))
    ∧ (∃ rest,
         Fridge.getUserAnalyses (Some user) getUrl (App.fridge s')
         = Convex.Ok
             (Fridge.mkReturned id
                (Convex.Document id
                   (Fridge.mkAnalysis user storage_id [] [] Convex.processing))
                (getUrl storage_id) :: rest))
    ∧ Fridge.scheduled (App.fridge s')
      = Fridge.scheduled (App.fridge s) ++ [Fridge.mkJob id storage_id]
    ∧ (∀ id', id' ≠ id → App.analysis s' id' = App.analysis s id')
    ∧ App.recipes s' = App.recipes s.
Proof.
  intros s s'.
  assert (App.reachable s) as Hreach by by exists ops.
  destruct (reachable_consistent s Hreach) as [(Hid & _ & _) _].
  destruct (reachable_shaped s Hreach) as [[Hdocs _] _].
  set (c := Convex.counter (Fridge.fridgeAnalyses (App.fridge s))).
  set (x := Convex.Document c (Fridge.mkAnalysis user storage_id [] [] Convex.processing)).
  exists c. split; [done|]. split; [|split; [|split; [|split; [|split]]]].
  - unfold App.analysis.
    destruct (Convex.db_get (Fridge.fridgeAnalyses (App.fridge s)) c) as [d|] eqn:Hd;
      [|done].
    apply Hid in Hd. fold c in Hd. lia.
  - unfold Fridge.getAnalysis, Convex.db_get. simpl. fold c.
    rewrite lookup_insert_eq. simpl. rewrite decide_False; [done|]. by intros ?.
  - unfold Fridge.getUserAnalyses, Convex.query_by_user_desc.
    destruct (by_user_desc_head Fridge.userId
                (Fridge.fridgeAnalyses (App.fridge s')) user (c, x))
      as [rest Hrest].
    + apply elem_of_by_user_desc. unfold Convex.db_get. simpl. fold c.
      by rewrite lookup_insert_eq.
    + intros [id' d'] [Hy _]%elem_of_by_user_desc.
      unfold Convex.db_get in Hy. simpl in Hy. fold c in Hy.
      destruct (decide (id' = c)) as [->|Hne].
      * rewrite lookup_insert_eq in Hy. injection Hy as <-.
        unfold Convex.newer. simpl. lia.
      * rewrite lookup_insert_ne in Hy by done.
        destruct (Hdocs id' d' Hy) as (Ht & _). apply Hid in Hy. fold c in Hy.
        unfold Convex.newer. simpl. lia.
    + rewrite Hrest. simpl. by eexists.
  - done.
  - intros id' Hne. unfold App.analysis, Convex.db_get. simpl. fold c.
    by rewrite lookup_insert_ne.
  - done.
Qed.

Lemma analyzeImage_submits_witness :
  ∃ id, (App.exec (App.AnalyzeImage (Some 1) 0) (App.run [] App.init)).2 = App.NewId id
        ∧ App.analysis (App.run [] App.init) id = None.
Proof.
  destruct (analyzeImage_submits [] 1 0 Example.file_url) as (id & H1 & H2 & _).
  exists id. split; assumption.
Defined.


(** X5: [scanRecipe] by a user answers with an id no scanned recipe had or
    has had; at once a lookup of that id by the user finds the record,
    processing, with an empty name, no ingredient, no instruction and no
    optional field, and the list of the user's recipes starts with it; one
    job for that id and image is added at the end of the queue; no other
    recipe and no analysis is touched. *)
Theorem scanRecipe_submits (ops : list App.op) (user storage_id : nat)
    (getUrl : nat → option (list N)) :
  let s := App.run ops App.init in
  let s' := App.step (App.ScanRecipe (Some user) storage_id) s in
  ∃ id,
    (App.exec (App.ScanRecipe (Some user) storage_id) s).2 = App.NewId id
    ∧ (∀ n, App.recipe (App.run (take n ops) App.init) id = None)
    ∧ Recipes.getScannedRecipe (Some user) getUrl id (App.recipes s')
      = Convex.Ok
          (Some (Recipes.mkReturned id
                   (Convex.Document id
                      (Recipes.mkScannedRecipe user storage_id [] [] [] None None
                         None None Convex.processing))
                   (getUrl storage_id)))
    ∧ (∃ rest,
         Recipes.getUserRecipes (Some user) getUrl (App.recipes s')
         = Convex.Ok
             (Recipes.mkReturned id
                (Convex.Document id
                   (Recipes.mkScannedRecipe user storage_id [] [] [] None None
                      None None Convex.processing))
                (getUrl storage_id) :: rest))
    ∧ Recipes.scheduled (App.recipes s')
      = Recipes.scheduled (App.recipes s) ++ [Recipes.mkJob id storage_id]
    ∧ (∀ id', id' ≠ id → App.recipe s' id' = App.recipe s id')
    ∧ App.fridge s' = App.fridge s.
Proof.
  intros s s'.
  assert (App.reachable s) as Hreach by by exists ops.
  destruct (reachable_consistent s Hreach) as [_ (Hid & _ & _)].
  destruct (reachable_shaped s Hreach) as [_ [Hdocs _]].
  set (c := Convex.counter (Recipes.scannedRecipes (App.recipes s))).
  set (x := Convex.Document c
              (Recipes.mkScannedRecipe user storage_id [] [] [] None None None None
                 Convex.processing)).
  exists c. split; [done|]. split; [|split; [|split; [|split; [|split]]]].
  - intros n.
    set (s0 := App.run (take n ops) App.init).
    assert (App.consistent s0) as Hs0.
    { apply reachable_consistent. by exists (take n ops). }
    assert (s = App.run (drop n ops) s0) as Hrun.
    { unfold s, s0. by rewrite <- run_app, take_drop. }
    destruct (App.recipe s0 c) as [r0|] eqn:Hr0; [|done].
    exfalso.
    assert (c < Convex.counter (Recipes.scannedRecipes (App.recipes s0))) as Hlt.
    { destruct Hs0 as [_ (Hid0 & _)]. unfold App.recipe in Hr0.
      destruct (Convex.db_get (Recipes.scannedRecipes (App.recipes s0)) c)
        as [d|] eqn:Hd; [|done].
      by apply (Hid0 c d). }
    assert (∀ later s1,
              Convex.counter (Recipes.scannedRecipes (App.recipes s1))
              ≤ Convex.counter (Recipes.scannedRecipes (App.recipes (App.run later s1))))
      as Hmono.
    { induction later as [|o later IH]; intros s1; [done|]. simpl.
      etrans; [apply (step_recipes_counter o s1) | apply IH]. }
    specialize (Hmono (drop n ops) s0). rewrite <- Hrun in Hmono. fold c in Hmono.
    lia.
  - unfold Recipes.getScannedRecipe, Convex.db_get. simpl. fold c.
    rewrite lookup_insert_eq. simpl. rewrite decide_False; [done|]. by intros ?.
  - unfold Recipes.getUserRecipes, Convex.query_by_user_desc.
    destruct (by_user_desc_head Recipes.userId
                (Recipes.scannedRecipes (App.recipes s')) user (c, x))
      as [rest Hrest].
    + apply elem_of_by_user_desc. unfold Convex.db_get. simpl. fold c.
      by rewrite lookup_insert_eq.
    + intros [id' d'] [Hy _]%elem_of_by_user_desc.
      unfold Convex.db_get in Hy. simpl in Hy. fold c in Hy.
      destruct (decide (id' = c)) as [->|Hne].
      * rewrite lookup_insert_eq in Hy. injection Hy as <-.
        unfold Convex.newer. simpl. lia.
      * rewrite lookup_insert_ne in Hy by done.
        destruct (Hdocs id' d' Hy) as (Ht & _). apply Hid in Hy. fold c in Hy.
        unfold Convex.newer. simpl. lia.
    + rewrite Hrest. simpl. by eexists.
  - done.
  - intros id' Hne. unfold App.recipe, Convex.db_get. simpl. fold c.
    by rewrite lookup_insert_ne.
  - done.
Qed.

Lemma scanRecipe_submits_witness :
  ∃ id, (App.exec (App.ScanRecipe (Some 1) 0) (App.run [] App.init)).2 = App.NewId id
        ∧ App.fridge (App.step (App.ScanRecipe (Some 1) 0) (App.run [] App.init))
          = App.fridge (App.run [] App.init).
Proof.
  destruct (scanRecipe_submits [] 1 0 Example.file_url) as (id & H1 & H2).
  exists id. split; [assumption | apply H2].
Defined.


Section Deletion.
Import Convex App.

Lemma exec_deleteRecipe_owned user id s r :
  recipe s id = Some r → Recipes.userId r = user →
  exec (DeleteRecipe (Some user) id) s
  = (mkState (fridge s)
       (Recipes.mkBackend
          (Table (delete id (docs (Recipes.scannedRecipes (recipes s))))
                 (counter (Recipes.scannedRecipes (recipes s))))
          (Recipes.scheduled (recipes s))),
     Done).
Proof.
  unfold recipe, exec, Recipes.deleteRecipe, db_delete, db_get.
  intros Hr Ho.
  destruct (docs (Recipes.scannedRecipes (recipes s)) !! id) as [d|]; [|done].
  injection Hr as <-. by rewrite decide_False by (by intros ?).
Qed.

Lemma exec_deleteRecipe_refused user id s :
  (∀ r, recipe s id = Some r → Recipes.userId r ≠ user) →
  exec (DeleteRecipe (Some user) id) s
  = (s, Rejected (Error "Recipe not found or not authorized")).
Proof.
  unfold recipe, exec, Recipes.deleteRecipe, db_get. intros H.
  destruct (docs (Recipes.scannedRecipes (recipes s)) !! id) as [d|]; [|done].
  by rewrite decide_True by (by apply H).
Qed.

End Deletion.

(** X6: when a user deletes a scanned recipe that is still processing, its
    job stays in the queue; when the scheduler then runs that job, in
    whatever world, nothing is stored, the job leaves the queue and the
    action itself throws: neither its [try] block nor its [catch] block
    finds the document to patch. *)
Theorem job_of_deleted_recipe (ops : list App.op) (user id : nat)
    (r : Recipes.ScannedRecipe) :
  let s := App.run ops App.init in
  let s1 := App.step (App.DeleteRecipe (Some user) id) s in
  App.recipe s id = Some r → Recipes.userId r = user →
  Recipes.scanStatus r = Convex.processing →
  App.recipe s1 id = None
  ∧ (∃ i job, Recipes.scheduled (App.recipes s1) !! i = Some job
              ∧ Recipes.recipeId job = id)
  ∧ (∀ w i job, Recipes.scheduled (App.recipes s1) !! i = Some job →
       Recipes.recipeId job = id →
       App.exec (App.ProcessRecipeImage w i) s1
       = (App.mkState (App.fridge s1)
            (Recipes.mkBackend (Recipes.scannedRecipes (App.recipes s1))
               (delete i (Recipes.scheduled (App.recipes s1)))),
          App.Rejected Convex.DocumentNotFound)).
Proof.
  intros s s1 Hr Hu Hp.
  assert (Shape.shaped s) as [_ [Hsh _]]
    by (apply reachable_shaped; by exists ops).
  unfold s1, App.step. rewrite (exec_deleteRecipe_owned user id s r Hr Hu).
  simpl. unfold App.recipe, Convex.db_get. simpl.
  split; [by rewrite lookup_delete_eq|]. split.
  - unfold App.recipe in Hr.
    destruct (Convex.db_get (Recipes.scannedRecipes (App.recipes s)) id)
      as [d|] eqn:Hd; [|done].
    injection Hr as <-.
    destruct (Hsh id d Hd) as (_ & _ & Hjob).
    apply list_elem_of_lookup in Hjob as [i Hi]; [|done].
    by exists i, (Recipes.mkJob id (Recipes.imageId (Convex.fields d))).
  - intros w i job Hi Hj. unfold App.exec. simpl. rewrite Hi.
    rewrite (processRecipeImage_deleted w job); [done|].
    unfold Convex.db_get. simpl. rewrite Hj. by rewrite lookup_delete_eq.
Qed.

Lemma job_of_deleted_recipe_witness :
  (App.exec (App.ProcessRecipeImage (Example.scan_world (Js.lit "2 cups flour")) 0)
     (App.step (App.DeleteRecipe (Some 1) 0)
        (App.run [App.ScanRecipe (Some 1) 0] App.init))).2
  = App.Rejected Convex.DocumentNotFound.
Proof.
  destruct (job_of_deleted_recipe [App.ScanRecipe (Some 1) 0] 1 0
              (Recipes.mkScannedRecipe 1 0 [] [] [] None None None None
                 Convex.processing) eq_refl eq_refl eq_refl)
    as (_ & _ & H).
  by rewrite (H (Example.scan_world (Js.lit "2 cups flour")) 0 Example.scan_job
                eq_refl eq_refl).
Defined.

(** X7: a call of a public entry point under the identity of one user
    leaves every record of every other user as it is, and removes no job
    from the queues. *)
Theorem other_users_untouched (ops : list App.op) (o : App.op) (user : nat) :
  let s := App.run ops App.init in
  App.public o = true → App.identity o = Some user →
  (∀ id a, App.analysis s id = Some a → Fridge.userId a ≠ user →
     App.analysis (App.step o s) id = Some a)
  ∧ (∀ id r, App.recipe s id = Some r → Recipes.userId r ≠ user →
       App.recipe (App.step o s) id = Some r)
  ∧ Fridge.scheduled (App.fridge s) `prefix_of` Fridge.scheduled (App.fridge (App.step o s))
  ∧ Recipes.scheduled (App.recipes s)
    `prefix_of` Recipes.scheduled (App.recipes (App.step o s)).
Proof.
  intros s Hpub Hid.
  assert (App.consistent s) as [(Hf & _) (Hr & _)]
    by (apply reachable_consistent; by exists ops).
  destruct o as [auth url|auth sid|w i|auth g id'|auth g|auth url|auth sid|w i
                |auth g id'|auth g|auth id']; simpl in Hpub, Hid; try done;
    subst auth; try done.
  - unfold App.step, App.analysis, App.recipe. simpl.
    split; [|split; [done|split; [by apply prefix_app_r|done]]].
    intros id a Ha Hne. unfold Convex.db_get in *. simpl.
    rewrite lookup_insert_ne; [done|].
    destruct (Convex.docs (Fridge.fridgeAnalyses (App.fridge s)) !! id) as [d|] eqn:Hd;
      [|done].
    apply Hf in Hd. lia.
  - unfold App.step, App.analysis, App.recipe. simpl.
    split; [done|]. split; [|split; [done|by apply prefix_app_r]].
    intros id r Ha Hne. unfold Convex.db_get in *. simpl.
    rewrite lookup_insert_ne; [done|].
    destruct (Convex.docs (Recipes.scannedRecipes (App.recipes s)) !! id) as [d|] eqn:Hd;
      [|done].
    apply Hr in Hd. lia.
  - unfold App.step.
    destruct (App.recipe s id') as [r0|] eqn:Hr0.
    + destruct (decide (Recipes.userId r0 = user)) as [Ho|Ho].
      * rewrite (exec_deleteRecipe_owned user id' s r0 Hr0 Ho). simpl.
        split; [done|]. split; [|done].
        intros id r Ha Hne. unfold App.recipe, Convex.db_get in *. simpl.
        rewrite lookup_delete_ne; [done|]. intros ->. rewrite Ha in Hr0.
        injection Hr0 as <-. done.
      * rewrite exec_deleteRecipe_refused; [done|].
        intros r. rewrite Hr0. by intros [= <-].
    + rewrite exec_deleteRecipe_refused; [done|].
      intros r. by rewrite Hr0.
Qed.

Lemma other_users_untouched_witness :
  App.recipe
    (App.step (App.DeleteRecipe (Some 2) 0)
       (App.run [App.ScanRecipe (Some 1) 0] App.init)) 0
  = Some (Recipes.mkScannedRecipe 1 0 [] [] [] None None None None Convex.processing).
Proof.
  destruct (other_users_untouched [App.ScanRecipe (Some 1) 0]
              (App.DeleteRecipe (Some 2) 0) 2 eq_refl eq_refl) as (_ & H & _).
  apply H; [reflexivity | simpl; lia].
Defined.

Section FridgeReplies.
Import Js Convex Spec Fridge.

(** The record a queued job leaves, from the value of its [try] block. *)
Lemma step_processImage ops w i job :
  let s := App.run ops App.init in
  scheduled (App.fridge s) !! i = Some job →
  ∃ a,
    App.analysis s (analysisId job) = Some a
    ∧ App.analysis (App.step (App.ProcessImage w i) s) (analysisId job)
      = Some match analyse w job with
             | Ok (iv, rv) =>
                 match as_string_array iv, as_recipe_array rv with
                 | Some ings, Some recs =>
                     mkAnalysis (userId a) (imageId a) ings recs completed
                 | _, _ => analysis_failure a
                 end
             | Throw _ => analysis_failure a
             end.
Proof.
  intros s Hi.
  assert (App.consistent s) as [(Hid & Hjobs & Hnd) _].
  { apply reachable_consistent. by exists ops. }
  destruct (Hjobs job) as (d & Hd & Hst); [by eapply list_elem_of_lookup_2|].
  exists (fields d). split; [unfold App.analysis; by rewrite Hd|].
  unfold App.step, App.exec. rewrite Hi.
  unfold processImage, processImage_try.
  destruct (analyse w job) as [[iv rv]|e]; cbn [mbind result_bind].
  - unfold run_updateAnalysis.
    destruct (as_string_array iv) as [ings|];
      [destruct (as_recipe_array rv) as [recs|]|].
    all: try rewrite processImage_catch_eq.
    all: erewrite updateAnalysis_Some by exact Hd.
    all: unfold App.analysis, db_get; simpl; by rewrite lookup_insert_eq.
  - rewrite processImage_catch_eq. erewrite updateAnalysis_Some by exact Hd.
    unfold App.analysis, db_get. simpl. by rewrite lookup_insert_eq.
Qed.

Lemma parse_ingredients_json w content v :
  truthy content = true → JSON_parse w content = Some v →
  parse_ingredients w (Message (Some content)) = Ok v.
Proof.
  intros Hc Hj. unfold parse_ingredients.
  cbn [content_of mbind result_bind truthy_opt default from_option id].
  by rewrite Hc, Hj.
Qed.

Lemma parse_recipes_json w iv content v :
  truthy content = true → JSON_parse w content = Some v →
  parse_recipes w iv (Message (Some content)) = Ok v.
Proof.
  intros Hc Hj. unfold parse_recipes.
  cbn [content_of mbind result_bind truthy_opt default from_option id].
  by rewrite Hc, Hj.
Qed.

Lemma parse_recipes_no_content w iv content :
  truthy_opt content = false →
  parse_recipes w iv (Message content) = Ok (Arr []).
Proof.
  intros Hc. unfold parse_recipes. cbn [content_of mbind result_bind].
  by rewrite Hc.
Qed.

Lemma parse_recipes_no_choice w ings :
  parse_recipes w (Arr (Str <$> ings)) NoChoice
  = Ok (Arr [fallback_recipe (Arr (Str <$> take 4 ings))]).
Proof.
  unfold parse_recipes.
  cbn [content_of mbind result_bind try_catch value_slice0].
  unfold slice0. by rewrite fmap_take.
Qed.

Lemma parse_ingredients_no_choice w : parse_ingredients w NoChoice = Throw TypeError.
Proof. reflexivity. Qed.

(** The [try] block once the ingredients are strings, at least one. *)
Lemma analyse_ingredients w args url response ings response' :
  getUrl w (storageId args) = Some url → truthy url = true →
  ingredients_completion w url = Ok response →
  parse_ingredients w response = Ok (Arr (Str <$> ings)) → ings ≠ [] →
  recipes_completion w (Arr (Str <$> ings)) = Ok response' →
  analyse w args
  = (recipes ← parse_recipes w (Arr (Str <$> ings)) response';
     Ok (Arr (Str <$> ings), recipes)).
Proof.
  intros Hu Hut Hr Hp Hne Hr'. unfold analyse.
  rewrite Hu, Hut. cbn [mbind result_bind]. rewrite Hr. cbn [mbind result_bind].
  rewrite Hp. cbn [mbind result_bind]. rewrite length_of_strings.
  cbn [mbind result_bind]. rewrite is_zero_length.
  rewrite bool_decide_eq_false_2 by (by destruct ings).
  cbn [join_check mbind result_bind]. by rewrite Hr'.
Qed.

Lemma mapM_refused {A B} (f : A → option B) (l : list A) x :
  x ∈ l → f x = None → mapM f l = None.
Proof.
  intros Hx Hf. destruct (mapM f l) as [k|] eqn:Hm; [|done].
  apply mk_is_Some, mapM_is_Some in Hm.
  rewrite Forall_forall in Hm. apply Hm in Hx. unfold compose in Hx.
  rewrite Hf in Hx. by destruct Hx.
Qed.

Lemma only_fields_refused declared fs k v :
  (k, v) ∈ fs → k ∉ declared → only_fields declared fs = false.
Proof.
  intros Hin Hk. unfold only_fields. apply not_true_iff_false.
  rewrite forallb_forall. intros H.
  apply list_elem_of_In, H, bool_decide_eq_true in Hin. done.
Qed.

Lemma as_recipe_missing fs k :
  k ∈ recipe_fields → obj_get k fs = None → as_recipe (Obj fs) = None.
Proof.
  intros Hk Hg. unfold as_recipe.
  destruct (only_fields recipe_fields fs); [|done].
  unfold recipe_fields in Hk.
  repeat (apply elem_of_cons in Hk as [->|Hk]);
    [..|by apply elem_of_nil in Hk]; rewrite ?Hg; cbn [mbind option_bind];
    repeat (match goal with
            | |- context [obj_get ?k fs ≫= ?f] =>
                destruct (obj_get k fs ≫= f); cbn [mbind option_bind]; [|done]
            end); try done.
Qed.

End FridgeReplies.

(** X8: when the scheduler runs a queued [processImage] and both replies
    are JSON, the first the array of the strings [ings], at least one, the
    second a value [rv]: if the validator of [updateAnalysis] accepts [rv]
    as the recipes [recs], the stored record is completed with all of
    [ings] and all of [recs], however many there are (the limit of 10 of
    the text fallback and the 3 recipes of the prompt are not enforced);
    if it refuses [rv], the failure record is stored and the ingredients
    are dropped. *)
Theorem json_replies_stored (ops : list App.op) (w : Fridge.World) (i : nat)
    (job : Fridge.Job) (url c1 c2 : list N) (ings : list (list N)) (rv : Js.value) :
  let s := App.run ops App.init in
  let s' := App.step (App.ProcessImage w i) s in
  Fridge.scheduled (App.fridge s) !! i = Some job →
  Fridge.getUrl w (Fridge.storageId job) = Some url → Js.truthy url = true →
  Fridge.ingredients_completion w url = Convex.Ok (Convex.Message (Some c1)) →
  Js.truthy c1 = true →
  Fridge.JSON_parse w c1 = Some (Js.Arr (Js.Str <$> ings)) → ings ≠ [] →
  Fridge.recipes_completion w (Js.Arr (Js.Str <$> ings))
  = Convex.Ok (Convex.Message (Some c2)) →
  Js.truthy c2 = true → Fridge.JSON_parse w c2 = Some rv →
  ∃ a,
    App.analysis s (Fridge.analysisId job) = Some a
    ∧ (∀ recs, Fridge.as_recipe_array rv = Some recs →
         App.analysis s' (Fridge.analysisId job)
         = Some (Fridge.mkAnalysis (Fridge.userId a) (Fridge.imageId a)
                   ings recs Convex.completed))
    ∧ (Fridge.as_recipe_array rv = None →
         App.analysis s' (Fridge.analysisId job) = Some (Spec.analysis_failure a)).
Proof.
  intros s s' Hi Hu Hut Hr Hc1 Hj1 Hne Hr' Hc2 Hj2.
  destruct (step_processImage ops w i job Hi) as (a & Ha & Hs').
  exists a. split; [done|].
  rewrite (analyse_ingredients w job url _ ings _ Hu Hut Hr
             (parse_ingredients_json w c1 _ Hc1 Hj1) Hne Hr') in Hs'.
  rewrite (parse_recipes_json w _ c2 rv Hc2 Hj2) in Hs'.
  cbn [mbind Convex.result_bind] in Hs'. rewrite as_string_array_Str in Hs'.
  split.
  - intros recs Hv. by rewrite Hv in Hs'.
  - intros Hv. by rewrite Hv in Hs'.
Qed.

Lemma json_replies_stored_witness :
  App.analysis
    (App.step (App.ProcessImage (Sample.fridge_world Sample.eggs_text (Js.lit "[]")) 0)
       (App.run [App.AnalyzeImage (Some 1) 0] App.init)) 0
  = Some (Fridge.mkAnalysis 1 0 [Js.lit "eggs"] [] Convex.completed).
Proof.
  destruct (json_replies_stored [App.AnalyzeImage (Some 1) 0]
              (Sample.fridge_world Sample.eggs_text (Js.lit "[]")) 0
              Example.analysis_job (Js.lit "https://files/0")
              Sample.eggs_text (Js.lit "[]") [Js.lit "eggs"] (Js.Arr [])
              eq_refl eq_refl eq_refl eq_refl eq_refl eq_refl
              ltac:(discriminate) eq_refl eq_refl eq_refl)
    as (a & Ha & H & _).
  injection Ha as <-. exact (H [] eq_refl).
Defined.

(** X9: in the situation of X8, the analysis ends as failed, with no
    ingredient stored, when the value parsed from the second reply is not
    an array (an object that wraps the array, say), or has an element that
    is not an object, or an element with a field the validator does not
    declare, or an element that lacks one of the five declared fields. *)
Theorem refused_recipes_fail (ops : list App.op) (w : Fridge.World) (i : nat)
    (job : Fridge.Job) (url c1 c2 : list N) (ings : list (list N)) (rv : Js.value) :
  let s := App.run ops App.init in
  let s' := App.step (App.ProcessImage w i) s in
  Fridge.scheduled (App.fridge s) !! i = Some job →
  Fridge.getUrl w (Fridge.storageId job) = Some url → Js.truthy url = true →
  Fridge.ingredients_completion w url = Convex.Ok (Convex.Message (Some c1)) →
  Js.truthy c1 = true →
  Fridge.JSON_parse w c1 = Some (Js.Arr (Js.Str <$> ings)) → ings ≠ [] →
  Fridge.recipes_completion w (Js.Arr (Js.Str <$> ings))
  = Convex.Ok (Convex.Message (Some c2)) →
  Js.truthy c2 = true → Fridge.JSON_parse w c2 = Some rv →
  ((∀ xs, rv ≠ Js.Arr xs)
   ∨ ∃ xs x, rv = Js.Arr xs ∧ x ∈ xs
       ∧ ((∀ fs, x ≠ Js.Obj fs)
          ∨ ∃ fs k, x = Js.Obj fs
              ∧ ((∃ v, (k, v) ∈ fs ∧ k ∉ Fridge.recipe_fields)
                 ∨ (k ∈ Fridge.recipe_fields ∧ Js.obj_get k fs = None)))) →
  ∃ a,
    App.analysis s (Fridge.analysisId job) = Some a
    ∧ App.analysis s' (Fridge.analysisId job) = Some (Spec.analysis_failure a).
Proof.
  intros s s' Hi Hu Hut Hr Hc1 Hj1 Hne Hr' Hc2 Hj2 Hrv.
  destruct (step_processImage ops w i job Hi) as (a & Ha & Hs').
  exists a. split; [done|].
  rewrite (analyse_ingredients w job url _ ings _ Hu Hut Hr
             (parse_ingredients_json w c1 _ Hc1 Hj1) Hne Hr') in Hs'.
  rewrite (parse_recipes_json w _ c2 rv Hc2 Hj2) in Hs'.
  cbn [mbind Convex.result_bind] in Hs'. rewrite as_string_array_Str in Hs'.
  assert (Fridge.as_recipe_array rv = None) as Hv; [|by rewrite Hv in Hs'].
  destruct Hrv as [Hna | (xs & x & -> & Hx & Hbad)].
  - destruct rv; try done. by destruct (Hna xs).
  - apply (mapM_refused _ _ x Hx).
    destruct Hbad as [Hno | (fs & k & -> & [(v & Hin & Hk) | (Hk & Hg)])].
    + destruct x; try done. by destruct (Hno fields).
    + unfold Fridge.as_recipe. by rewrite (only_fields_refused _ _ _ _ Hin Hk).
    + by apply (as_recipe_missing fs k).
Qed.

Lemma refused_recipes_fail_witness :
  App.analysis
    (App.step (App.ProcessImage (Sample.fridge_world Sample.eggs_text (Js.lit "{}")) 0)
       (App.run [App.AnalyzeImage (Some 1) 0] App.init)) 0
  = Some (Fridge.mkAnalysis 1 0 [] [] Convex.failed).
Proof.
  destruct (refused_recipes_fail [App.AnalyzeImage (Some 1) 0]
              (Sample.fridge_world Sample.eggs_text (Js.lit "{}")) 0
              Example.analysis_job (Js.lit "https://files/0")
              Sample.eggs_text (Js.lit "{}") [Js.lit "eggs"] (Js.Obj [])
              eq_refl eq_refl eq_refl eq_refl eq_refl eq_refl
              ltac:(discriminate) eq_refl eq_refl eq_refl
              ltac:(left; discriminate))
    as (a & Ha & H).
  injection Ha as <-. exact H.
Defined.

(** X10: a reply without content. When the first reply has no choice, the
    analysis fails: the handler of the first parse reads the missing
    choice again. When the ingredients are strings, at least one, and the
    second reply has no choice, the fallback recipe is stored; when the
    second reply has a choice whose content is [null] or empty, the
    analysis is completed with no recipe at all. *)
Theorem reply_without_content (ops : list App.op) (w : Fridge.World) (i : nat)
    (job : Fridge.Job) (url : list N) :
  let s := App.run ops App.init in
  let s' := App.step (App.ProcessImage w i) s in
  Fridge.scheduled (App.fridge s) !! i = Some job →
  Fridge.getUrl w (Fridge.storageId job) = Some url → Js.truthy url = true →
  ∃ a,
    App.analysis s (Fridge.analysisId job) = Some a
    ∧ (Fridge.ingredients_completion w url = Convex.Ok Convex.NoChoice →
       App.analysis s' (Fridge.analysisId job) = Some (Spec.analysis_failure a))
    ∧ (∀ response ings,
         Fridge.ingredients_completion w url = Convex.Ok response →
         Fridge.parse_ingredients w response = Convex.Ok (Js.Arr (Js.Str <$> ings)) →
         ings ≠ [] →
         (Fridge.recipes_completion w (Js.Arr (Js.Str <$> ings))
          = Convex.Ok Convex.NoChoice →
          App.analysis s' (Fridge.analysisId job)
          = Some (Fridge.mkAnalysis (Fridge.userId a) (Fridge.imageId a) ings
                    [Fridge.Recipe.mk (Js.lit "Simple Stir Fry") (take 4 ings)
                       Fridge.fallback_instructions
                       (Js.lit "15 minutes") (Js.lit "Easy")]
                    Convex.completed))
         ∧ (∀ content,
              Fridge.recipes_completion w (Js.Arr (Js.Str <$> ings))
              = Convex.Ok (Convex.Message content) →
              Js.truthy_opt content = false →
              App.analysis s' (Fridge.analysisId job)
              = Some (Fridge.mkAnalysis (Fridge.userId a) (Fridge.imageId a) ings
                        [] Convex.completed))).
Proof.
  intros s s' Hi Hu Hut. subst s s'.
  destruct (step_processImage ops w i job Hi) as (a & Ha & Hs').
  exists a. split; [done|]. split.
  - intros Hr. rewrite Hs'. unfold Fridge.analyse. rewrite Hu, Hut.
    cbn [mbind Convex.result_bind]. rewrite Hr. cbn [mbind Convex.result_bind].
    by rewrite parse_ingredients_no_choice.
  - intros response ings Hr Hp Hne. split.
    + intros Hr'. rewrite Hs'.
      rewrite (analyse_ingredients w job url _ ings _ Hu Hut Hr Hp Hne Hr').
      rewrite parse_recipes_no_choice. cbn [mbind Convex.result_bind].
      rewrite as_string_array_Str. unfold Fridge.as_recipe_array.
      cbn [mapM mbind option_bind mret option_ret]. rewrite as_recipe_fallback.
      reflexivity.
    + intros content Hr' Hc. rewrite Hs'.
      rewrite (analyse_ingredients w job url _ ings _ Hu Hut Hr Hp Hne Hr').
      rewrite (parse_recipes_no_content w _ content Hc).
      cbn [mbind Convex.result_bind]. by rewrite as_string_array_Str.
Qed.

Lemma reply_without_content_witness :
  App.analysis
    (App.step (App.ProcessImage
                 (Sample.fridge_world_with Sample.eggs_text (Convex.Message None)) 0)
       (App.run [App.AnalyzeImage (Some 1) 0] App.init)) 0
  = Some (Fridge.mkAnalysis 1 0 [Js.lit "eggs"] [] Convex.completed).
Proof.
  destruct (reply_without_content [App.AnalyzeImage (Some 1) 0]
              (Sample.fridge_world_with Sample.eggs_text (Convex.Message None)) 0
              Example.analysis_job (Js.lit "https://files/0")
              eq_refl eq_refl eq_refl)
    as (a & Ha & _ & H).
  injection Ha as <-.
  destruct (H (Convex.Message (Some Sample.eggs_text)) [Js.lit "eggs"]
              eq_refl eq_refl ltac:(discriminate)) as [_ H'].
  exact (H' None eq_refl eq_refl).
Defined.

Section RecipeReplies.
Import Js Convex Spec Recipes.

(** The record a queued scan leaves for a document that is in the table,
    from the value of its [try] block. *)
Lemma step_processRecipeImage s w i job r :
  scheduled (App.recipes s) !! i = Some job →
  App.recipe s (recipeId job) = Some r →
  App.recipe (App.step (App.ProcessRecipeImage w i) s) (recipeId job)
  = Some match scan w job with
         | Ok recipeData =>
             match as_recipeData recipeData with
             | Some rd =>
                 mkScannedRecipe (userId r) (imageId r)
                   (RecipeData.name rd) (RecipeData.ingredients rd)
                   (RecipeData.instructions rd) (RecipeData.cookingTime rd)
                   (RecipeData.servings rd) (RecipeData.difficulty rd)
                   (RecipeData.category rd) completed
             | None => scan_failure r
             end
         | Throw _ => scan_failure r
         end.
Proof.
  intros Hi Hr. unfold App.recipe in Hr.
  destruct (db_get (scannedRecipes (App.recipes s)) (recipeId job)) as [d|] eqn:Hd;
    [|done].
  injection Hr as <-.
  unfold App.step, App.exec. rewrite Hi.
  unfold processRecipeImage, processRecipeImage_try.
  destruct (scan w job) as [recipeData|e]; cbn [mbind result_bind].
  - unfold run_updateScannedRecipe.
    destruct (as_recipeData recipeData) as [rd|].
    + erewrite updateScannedRecipe_Some by exact Hd.
      unfold App.recipe, db_get. simpl. by rewrite lookup_insert_eq.
    + erewrite processRecipeImage_catch_Some by exact Hd.
      unfold App.recipe, db_get. simpl. by rewrite lookup_insert_eq.
  - erewrite processRecipeImage_catch_Some by exact Hd.
    unfold App.recipe, db_get. simpl. by rewrite lookup_insert_eq.
Qed.

(** The [try] block on a reply that is JSON. *)
Lemma scan_json w args url content parsed :
  getUrl w (storageId args) = Some url → truthy url = true →
  recipe_completion w url = Ok (Message (Some content)) →
  truthy content = true → JSON_parse w content = Some parsed →
  scan w args
  = (empty ← nothing_extracted (spread default_recipeData parsed);
     if empty : bool
     then Throw (Error "No recipe information could be extracted from the image")
     else Ok (spread default_recipeData parsed)).
Proof.
  intros Hu Hut Hr Hc Hp. unfold scan. rewrite Hu, Hut.
  cbn [mbind result_bind]. rewrite Hr. cbn [mbind result_bind].
  unfold parse_recipe.
  cbn [content_of mbind result_bind truthy_opt default from_option id].
  by rewrite Hc, Hp.
Qed.

Lemma obj_get_None_keys k (fs : object) : k ∉ fs.*1 → obj_get k fs = None.
Proof.
  induction fs as [|[k' v'] fs IH]; [done|]. simpl.
  intros [Hne Hk]%not_elem_of_cons. rewrite decide_False by done. by apply IH.
Qed.

(** A later entry of a spread wins over the base; a key the spread object
    lacks keeps the value of the base. *)
Lemma obj_get_spread_entries k (es base : object) :
  NoDup es.*1 →
  obj_get k (foldl (λ acc kv, obj_set kv.1 kv.2 acc) base es)
  = match obj_get k es with
    | Some v => Some v
    | None => obj_get k base
    end.
Proof.
  revert base. induction es as [|[k' v'] es IH]; intros base Hnd; [done|].
  apply NoDup_cons in Hnd as [Hk' Hnd]. simpl in *. rewrite (IH _ Hnd).
  destruct (decide (k' = k)) as [->|Hne].
  - by rewrite (obj_get_None_keys k es Hk'), obj_get_set.
  - by rewrite obj_get_set_ne.
Qed.

Lemma obj_get_spread k fs :
  NoDup fs.*1 →
  obj_get k (spread default_recipeData (Obj fs)) = Shape.merged k fs.
Proof.
  intros Hnd. unfold spread, Shape.merged. simpl.
  by rewrite (obj_get_spread_entries _ _ _ Hnd).
Qed.

Lemma only_fields_spread declared (es base : object) :
  only_fields declared base = true →
  (∀ k v, (k, v) ∈ es → k ∈ declared) →
  only_fields declared (foldl (λ acc kv, obj_set kv.1 kv.2 acc) base es) = true.
Proof.
  revert base. induction es as [|[k v] es IH]; intros base Hb Hes; [done|].
  simpl. apply IH.
  - rewrite only_fields_set; [done|]. apply (Hes k v), elem_of_cons. by left.
  - intros k' v' Hin. apply (Hes k' v'), elem_of_cons. by right.
Qed.

Lemma obj_set_key k v (fs : object) : k ∈ (obj_set k v fs).*1.
Proof.
  induction fs as [|[k' v'] fs IH]; simpl.
  - apply elem_of_cons. by left.
  - (destruct (decide (k' = k)); simpl; apply elem_of_cons); [by left | by right].
Qed.

Lemma obj_set_keeps k v k' (fs : object) : k' ∈ fs.*1 → k' ∈ (obj_set k v fs).*1.
Proof.
  induction fs as [|[k0 v0] fs IH]; simpl.
  - by intros ?%elem_of_nil.
  - intros [->|Hin]%elem_of_cons; destruct (decide (k0 = k)) as [->|Hne]; simpl;
      apply elem_of_cons; auto.
Qed.

(** A spread drops no key. *)
Lemma spread_keys k (es base : object) :
  k ∈ es.*1 → k ∈ (foldl (λ acc kv, obj_set kv.1 kv.2 acc) base es).*1.
Proof.
  assert (Hkeep : ∀ (es base : object), k ∈ base.*1 →
            k ∈ (foldl (λ acc kv, obj_set kv.1 kv.2 acc) base es).*1).
  { clear. intros es. induction es as [|[k' v'] es IH]; intros base Hb; [done|].
    simpl. by apply IH, obj_set_keeps. }
  revert base. induction es as [|[k' v'] es IH]; intros base.
  - by intros ?%elem_of_nil.
  - simpl. intros [->|Hin]%elem_of_cons.
    + apply Hkeep, obj_set_key.
    + by apply IH.
Qed.

Lemma as_recipeData_refused (fs : object) k :
  k ∈ fs.*1 → k ∉ recipeData_fields → as_recipeData fs = None.
Proof.
  intros Hin Hk. apply list_elem_of_fmap in Hin as ([k' v] & -> & Hin).
  unfold as_recipeData. by rewrite (only_fields_refused _ _ _ _ Hin Hk).
Qed.

Lemma index_key_undeclared : index_key 0 ∉ recipeData_fields.
Proof.
  intros H. repeat (apply elem_of_cons in H as [H|H]; [discriminate H|]).
  by apply elem_of_nil in H.
Qed.

End RecipeReplies.

Section RecipeRepliesRefused.
Import Js Convex Spec Recipes.

Lemma spread_undeclared parsed k v :
  (k, v) ∈ own_entries parsed → k ∉ recipeData_fields →
  as_recipeData (spread default_recipeData parsed) = None.
Proof.
  intros Hin Hk. apply (as_recipeData_refused _ k); [|done].
  apply spread_keys, list_elem_of_fmap. by exists (k, v).
Qed.

(** What the [try] block gives on a JSON reply that is not an object, or
    that has a property the validator does not declare, is refused by the
    validator. *)
Lemma scan_refused w args url content parsed recipeData :
  getUrl w (storageId args) = Some url → truthy url = true →
  recipe_completion w url = Ok (Message (Some content)) →
  truthy content = true → JSON_parse w content = Some parsed →
  ((∀ fs, parsed ≠ Obj fs)
   ∨ ∃ k v, (k, v) ∈ own_entries parsed ∧ k ∉ recipeData_fields) →
  scan w args = Ok recipeData → as_recipeData recipeData = None.
Proof.
  intros Hu Hut Hr Hc Hp Hbad.
  rewrite (scan_json w args url content parsed Hu Hut Hr Hc Hp).
  assert (Hkey : ∀ k v, (k, v) ∈ own_entries parsed → k ∉ recipeData_fields →
            (empty ← nothing_extracted (spread default_recipeData parsed);
             if empty : bool
             then Throw (Error "No recipe information could be extracted from the image")
             else Ok (spread default_recipeData parsed)) = Ok recipeData →
            as_recipeData recipeData = None).
  { intros k v Hin Hk.
    destruct (nothing_extracted (spread default_recipeData parsed)) as [[|]|];
      cbn [mbind result_bind]; try done.
    intros [= <-]. by apply (spread_undeclared parsed k v). }
  destruct Hbad as [Hno | (k & v & Hin & Hk)]; [|by apply (Hkey k v)].
  destruct parsed as [| | |[|c str]|[|x xs]|fs]; try done.
  - apply (Hkey (index_key 0) (Str [c])); [|apply index_key_undeclared].
    simpl. apply elem_of_cons. by left.
  - apply (Hkey (index_key 0) x); [|apply index_key_undeclared].
    simpl. apply elem_of_cons. by left.
  - by destruct (Hno fs).
Qed.

End RecipeRepliesRefused.

(** X11: when the scheduler runs a queued scan whose record is in the
    table and the reply is the JSON text of an object with distinct keys,
    all of them declared by the validator, each stored field is the value
    the object has for its key, or the default of the handler when the
    object lacks the key ("Scanned Recipe", no ingredient, no instruction,
    "Unknown", "Unknown", "Medium", "Other"); the record is completed as
    soon as these values have the declared types and there is an
    ingredient or an instruction, and its four optional fields are all
    present. *)
Theorem scan_json_merged (s : App.State) (w : Recipes.World) (i : nat)
    (job : Recipes.Job) (r : Recipes.ScannedRecipe) (url content : list N)
    (fs : list (list N * Js.value)) (name : list N) (ings instrs : list (list N))
    (ct sv df cat : list N) :
  let s' := App.step (App.ProcessRecipeImage w i) s in
  Recipes.scheduled (App.recipes s) !! i = Some job →
  App.recipe s (Recipes.recipeId job) = Some r →
  Recipes.getUrl w (Recipes.storageId job) = Some url → Js.truthy url = true →
  Recipes.recipe_completion w url = Convex.Ok (Convex.Message (Some content)) →
  Js.truthy content = true → Recipes.JSON_parse w content = Some (Js.Obj fs) →
  NoDup fs.*1 → (∀ k v, (k, v) ∈ fs → k ∈ Recipes.recipeData_fields) →
  Shape.merged (Js.lit "name") fs ≫= Convex.as_string = Some name →
  Shape.merged (Js.lit "ingredients") fs ≫= Convex.as_string_array = Some ings →
  Shape.merged (Js.lit "instructions") fs ≫= Convex.as_string_array = Some instrs →
  Shape.merged (Js.lit "cookingTime") fs ≫= Convex.as_string = Some ct →
  Shape.merged (Js.lit "servings") fs ≫= Convex.as_string = Some sv →
  Shape.merged (Js.lit "difficulty") fs ≫= Convex.as_string = Some df →
  Shape.merged (Js.lit "category") fs ≫= Convex.as_string = Some cat →
  ings ≠ [] ∨ instrs ≠ [] →
  App.recipe s' (Recipes.recipeId job)
  = Some (Recipes.mkScannedRecipe (Recipes.userId r) (Recipes.imageId r)
            name ings instrs (Some ct) (Some sv) (Some df) (Some cat)
            Convex.completed)
  ∧ (Js.obj_get (Js.lit "name") fs = None → name = Js.lit "Scanned Recipe")
  ∧ (Js.obj_get (Js.lit "ingredients") fs = None → ings = [])
  ∧ (Js.obj_get (Js.lit "instructions") fs = None → instrs = [])
  ∧ (Js.obj_get (Js.lit "cookingTime") fs = None → ct = Js.lit "Unknown")
  ∧ (Js.obj_get (Js.lit "servings") fs = None → sv = Js.lit "Unknown")
  ∧ (Js.obj_get (Js.lit "difficulty") fs = None → df = Js.lit "Medium")
  ∧ (Js.obj_get (Js.lit "category") fs = None → cat = Js.lit "Other").
Proof.
  intros s' Hi Hr Hu Hut Hc Ht Hj Hnd Hdecl Hname Hings Hinstrs Hct Hsv Hdf Hcat Hne.
  split.
  - unfold s'. rewrite (step_processRecipeImage s w i job r Hi Hr).
    rewrite (scan_json w job url content (Js.Obj fs) Hu Hut Hc Ht Hj).
    assert (Recipes.nothing_extracted
              (Recipes.spread Recipes.default_recipeData (Js.Obj fs))
            = Convex.Ok false) as ->.
    { unfold Recipes.nothing_extracted, Recipes.property_length.
      rewrite !obj_get_spread by done.
      destruct (Shape.merged (Js.lit "ingredients") fs) as [vi|]; [|done].
      destruct (Shape.merged (Js.lit "instructions") fs) as [vs|]; [|done].
      cbn [mbind option_bind] in Hings, Hinstrs.
      apply as_string_array_inv in Hings as ->.
      apply as_string_array_inv in Hinstrs as ->.
      rewrite !length_of_strings. cbn [mbind Convex.result_bind].
      rewrite is_zero_length. destruct ings as [|x ings]; [|done].
      rewrite bool_decide_eq_true_2 by done. cbn [mbind Convex.result_bind].
      rewrite is_zero_length. destruct instrs; [by destruct Hne|done]. }
    cbn [mbind Convex.result_bind].
    assert (Recipes.as_recipeData
              (Recipes.spread Recipes.default_recipeData (Js.Obj fs))
            = Some (Recipes.RecipeData.mk name ings instrs
                      (Some ct) (Some sv) (Some df) (Some cat))) as ->; [|done].
    unfold Recipes.as_recipeData.
    rewrite !obj_get_spread by done.
    unfold Recipes.spread, Recipes.own_entries.
    rewrite only_fields_spread by done.
    rewrite Hname, Hings, Hinstrs. cbn [mbind option_bind].
    destruct (Shape.merged (Js.lit "cookingTime") fs) as [v1|]; [|done].
    destruct (Shape.merged (Js.lit "servings") fs) as [v2|]; [|done].
    destruct (Shape.merged (Js.lit "difficulty") fs) as [v3|]; [|done].
    destruct (Shape.merged (Js.lit "category") fs) as [v4|]; [|done].
    cbn [mbind option_bind] in Hct, Hsv, Hdf, Hcat.
    unfold Convex.as_optional_string. rewrite Hct, Hsv, Hdf, Hcat. reflexivity.
  - unfold Shape.merged in *. repeat split; intros E.
    + rewrite E in Hname. cbv in Hname. by injection Hname as <-.
    + rewrite E in Hings. cbv in Hings. by injection Hings as <-.
    + rewrite E in Hinstrs. cbv in Hinstrs. by injection Hinstrs as <-.
    + rewrite E in Hct. cbv in Hct. by injection Hct as <-.
    + rewrite E in Hsv. cbv in Hsv. by injection Hsv as <-.
    + rewrite E in Hdf. cbv in Hdf. by injection Hdf as <-.
    + rewrite E in Hcat. cbv in Hcat. by injection Hcat as <-.
Qed.

Lemma scan_json_merged_witness :
  App.recipe
    (App.step (App.ProcessRecipeImage (Sample.scan_world Sample.card_text) 0)
       (App.mkState Example.one_analysis Example.one_scan)) 0
  = Some (Recipes.mkScannedRecipe 1 0 (Js.lit "Scanned Recipe") [Js.lit "eggs"] []
            (Some (Js.lit "Unknown")) (Some (Js.lit "Unknown"))
            (Some (Js.lit "Medium")) (Some (Js.lit "Other")) Convex.completed).
Proof.
  refine (proj1 (scan_json_merged
            (App.mkState Example.one_analysis Example.one_scan)
            (Sample.scan_world Sample.card_text) 0 Example.scan_job
            (Recipes.mkScannedRecipe 1 0 [] [] [] None None None None
               Convex.processing)
            (Js.lit "https://files/0") Sample.card_text
            [(Js.lit "ingredients", Js.Arr [Js.Str (Js.lit "eggs")])]
            (Js.lit "Scanned Recipe") [Js.lit "eggs"] []
            (Js.lit "Unknown") (Js.lit "Unknown") (Js.lit "Medium") (Js.lit "Other")
            eq_refl eq_refl eq_refl eq_refl eq_refl eq_refl eq_refl
            _ _ eq_refl eq_refl eq_refl eq_refl eq_refl eq_refl eq_refl _)).
  - apply NoDup_singleton.
  - intros k v [= -> _]%list_elem_of_singleton.
    apply elem_of_cons. right. apply elem_of_cons. by left.
  - left. discriminate.
Defined.

(** X12: when the scheduler runs a queued scan whose record is in the
    table and the reply is JSON, but not the text of an object (an array,
    a string, a number, a boolean, [null]), or the text of an object with
    a property the validator does not declare, the scan ends as failed,
    with the name "Scan Failed" and nothing else, whatever else the reply
    holds. *)
Theorem scan_json_refused (s : App.State) (w : Recipes.World) (i : nat)
    (job : Recipes.Job) (r : Recipes.ScannedRecipe) (url content : list N)
    (parsed : Js.value) :
  let s' := App.step (App.ProcessRecipeImage w i) s in
  Recipes.scheduled (App.recipes s) !! i = Some job →
  App.recipe s (Recipes.recipeId job) = Some r →
  Recipes.getUrl w (Recipes.storageId job) = Some url → Js.truthy url = true →
  Recipes.recipe_completion w url = Convex.Ok (Convex.Message (Some content)) →
  Js.truthy content = true → Recipes.JSON_parse w content = Some parsed →
  ((∀ fs, parsed ≠ Js.Obj fs)
   ∨ ∃ k v, (k, v) ∈ Recipes.own_entries parsed ∧ k ∉ Recipes.recipeData_fields) →
  App.recipe s' (Recipes.recipeId job) = Some (Spec.scan_failure r).
Proof.
  intros s' Hi Hr Hu Hut Hc Ht Hj Hbad.
  unfold s'. rewrite (step_processRecipeImage s w i job r Hi Hr).
  destruct (Recipes.scan w job) as [recipeData|e] eqn:Hs; [|done].
  by rewrite (scan_refused w job url content parsed recipeData Hu Hut Hc Ht Hj Hbad Hs).
Qed.

Lemma scan_json_refused_witness :
  App.recipe
    (App.step (App.ProcessRecipeImage (Sample.scan_world Sample.noted_card_text) 0)
       (App.mkState Example.one_analysis Example.one_scan)) 0
  = Some (Recipes.mkScannedRecipe 1 0 (Js.lit "Scan Failed") [] []
            None None None None Convex.failed).
Proof.
  refine (scan_json_refused
            (App.mkState Example.one_analysis Example.one_scan)
            (Sample.scan_world Sample.noted_card_text) 0 Example.scan_job
            (Recipes.mkScannedRecipe 1 0 [] [] [] None None None None
               Convex.processing)
            (Js.lit "https://files/0") Sample.noted_card_text
            (Js.Obj [(Js.lit "ingredients", Js.Arr [Js.Str (Js.lit "eggs")]);
                     (Js.lit "notes", Js.Null)])
            eq_refl eq_refl eq_refl eq_refl eq_refl eq_refl eq_refl _).
  right. exists (Js.lit "notes"), Js.Null. split.
  - apply elem_of_cons. right. apply elem_of_cons. by left.
  - intros H. repeat (apply elem_of_cons in H as [H|H]; [discriminate H|]).
    by apply elem_of_nil in H.
Defined.

Section HeuristicEntries.
Import Js Convex Spec Recipes.

Lemma is_space_marker c : is_space c = true → is_marker_or_space c = true.
Proof. unfold is_marker_or_space. intros ->. by rewrite !orb_true_r. Qed.

(** What is left of a line after its markers is trimmed at its start
    already: the entry begins where the markers end. *)
Lemma stripped_entry_head line c :
  head (trim (strip_markers line)) = Some c → is_marker_or_space c = false.
Proof.
  intros Hc. set (t := strip_markers line) in *.
  destruct (trim_decompose t) as (pre & post & Ht & Hpre & _ & _).
  destruct pre as [|x pre].
  - apply (drop_while_head is_marker_or_space line). fold (strip_markers line).
    fold t. rewrite Ht. simpl. by destruct (trim t).
  - apply Forall_cons in Hpre as [Hx _].
    assert (is_marker_or_space x = false) as Hx'.
    { apply (drop_while_head is_marker_or_space line). fold (strip_markers line).
      fold t. by rewrite Ht. }
    by rewrite (is_space_marker x Hx) in Hx'.
Qed.

Lemma heuristic_ingredient_entry content e :
  e ∈ heuristic_ingredients (nonblank_lines content) →
  (∃ line, line ∈ split LF content ∧ is_ingredient_line line = true
           ∧ e = trim (strip_markers line))
  ∧ trimmed e
  ∧ (∀ c, head e = Some c → is_marker_or_space c = false).
Proof.
  unfold heuristic_ingredients, nonblank_lines.
  intros (line & -> & Hin)%list_elem_of_fmap.
  apply list_elem_of_In, filter_In in Hin as [Hin Hm].
  apply filter_In in Hin as [Hin _]. apply list_elem_of_In in Hin.
  split; [by exists line|]. split.
  - by destruct (trim_decompose (strip_markers line)) as (? & ? & _ & _ & _ & ?).
  - apply stripped_entry_head.
Qed.

Lemma List_filter_sublist {A} (f : A → bool) (l : list A) :
  List.filter f l `sublist_of` l.
Proof.
  rewrite (List_filter_stdpp f (λ x, f x = true)) by done.
  apply sublist_filter.
Qed.

Lemma heuristic_instructions_lines content :
  heuristic_instructions (nonblank_lines content) `sublist_of` split LF content
  ∧ Forall (λ line, is_instruction_line line = true)
      (heuristic_instructions (nonblank_lines content)).
Proof.
  unfold heuristic_instructions, nonblank_lines. split.
  - etrans; apply List_filter_sublist.
  - apply Forall_forall. intros line Hin.
    by apply list_elem_of_In, filter_In in Hin as [_ ?].
Qed.

Lemma marker_line_entry line :
  Forall (λ c, is_marker_or_space c = true) line → trim (strip_markers line) = [].
Proof. intros H. unfold strip_markers. by rewrite (drop_while_all _ _ H). Qed.

End HeuristicEntries.

(** X13: what a scan stores for a reply that is not JSON, entry by entry.
    Every stored ingredient is what is left of a line of the reply under
    the ingredient rule once its leading digits, bullets, dashes, stars,
    dots and white space and its trailing white space are removed: it
    begins with none of these and ends with no white space. The stored
    instructions are lines of the reply as they stand, markers and all, in
    the order of the reply, each longer than 20. A completed record has
    the defaults "Unknown", "Unknown", "Medium" and "Other" in its four
    optional fields. *)
Theorem heuristic_scan_entries (w : Recipes.World) (args : Recipes.Job)
    (st : Recipes.Backend) (d : Convex.document Recipes.ScannedRecipe)
    (url content : Js.jsstring) :
  Convex.db_get (Recipes.scannedRecipes st) (Recipes.recipeId args) = Some d →
  Recipes.getUrl w (Recipes.storageId args) = Some url → Js.truthy url = true →
  Recipes.recipe_completion w url = Convex.Ok (Convex.Message (Some content)) →
  Js.truthy content = true → Recipes.JSON_parse w content = None →
  ∃ r,
    Convex.fields
      <$> Convex.db_get
            (Recipes.scannedRecipes (Recipes.processRecipeImage w args st).1)
            (Recipes.recipeId args) = Some r
    ∧ (∀ e, e ∈ Recipes.ingredients r →
         (∃ line, line ∈ Js.split Js.LF content
                  ∧ Recipes.is_ingredient_line line = true
                  ∧ e = Js.trim (Recipes.strip_markers line))
         ∧ Spec.trimmed e
         ∧ (∀ c, head e = Some c → Recipes.is_marker_or_space c = false))
    ∧ Recipes.instructions r `sublist_of` Js.split Js.LF content
    ∧ (∀ line, line ∈ Recipes.instructions r →
         20 < length line ∧ Recipes.is_instruction_line line = true)
    ∧ (Recipes.scanStatus r = Convex.completed →
         Recipes.cookingTime r = Some (Js.lit "Unknown")
         ∧ Recipes.servings r = Some (Js.lit "Unknown")
         ∧ Recipes.difficulty r = Some (Js.lit "Medium")
         ∧ Recipes.category r = Some (Js.lit "Other")).
Proof.
  intros Hd Hu Hut Hr Hc Hp.
  destruct (processRecipeImage_heuristic w args st d url content Hd Hu Hut Hr Hc Hp)
    as [name Hst].
  eexists. split; [exact Hst|].
  destruct (bool_decide _ && bool_decide _);
    cbn [Recipes.ingredients Recipes.instructions Recipes.scanStatus
         Recipes.cookingTime Recipes.servings Recipes.difficulty Recipes.category
         Spec.scan_failure].
  - split; [by intros e ?%elem_of_nil|]. split; [apply sublist_nil_l|].
    split; [by intros e ?%elem_of_nil|done].
  - destruct (heuristic_instructions_lines content) as [Hsub Hall].
    split; [|split; [|split; [|done]]].
    + intros e He. apply heuristic_ingredient_entry.
      by eapply (subseteq_take 15).
    + etrans; [apply sublist_take | exact Hsub].
    + intros line Hin. apply (subseteq_take 10) in Hin.
      rewrite Forall_forall in Hall. specialize (Hall line Hin).
      split; [|done]. unfold Recipes.is_instruction_line in Hall.
      apply andb_true_iff in Hall as [Hlen _]. by apply bool_decide_eq_true in Hlen.
Qed.

Lemma heuristic_scan_entries_witness :
  ∃ r,
    Convex.fields
      <$> Convex.db_get
            (Recipes.scannedRecipes
               (Recipes.processRecipeImage (Example.scan_world (Js.lit "2 cups flour"))
                  Example.scan_job Example.one_scan).1) 0 = Some r
    ∧ Recipes.instructions r `sublist_of` Js.split Js.LF (Js.lit "2 cups flour").
Proof.
  destruct (heuristic_scan_entries (Example.scan_world (Js.lit "2 cups flour"))
              Example.scan_job Example.one_scan
              (Convex.Document 0
                 (Recipes.mkScannedRecipe 1 0 [] [] [] None None None None
                    Convex.processing))
              (Js.lit "https://files/0") (Js.lit "2 cups flour")
              eq_refl eq_refl eq_refl eq_refl eq_refl eq_refl)
    as (r & H1 & _ & H2 & _).
  exists r. split; assumption.
Defined.

(** X14: unlike the fallback of the fridge analysis, the recipe heuristic
    keeps an entry that is empty. A line of a reply that is not JSON which
    starts, after white space, with a digit, a bullet, a dash or a star
    and holds nothing but such markers, dots and white space (a rule
    [---], a bare [1.]) makes the scan complete, and the empty string is
    among its ingredients when no more than 15 ingredient lines were
    extracted. *)
Theorem marker_line_empty_ingredient (w : Recipes.World) (args : Recipes.Job)
    (st : Recipes.Backend) (d : Convex.document Recipes.ScannedRecipe)
    (url content line : Js.jsstring) :
  Convex.db_get (Recipes.scannedRecipes st) (Recipes.recipeId args) = Some d →
  Recipes.getUrl w (Recipes.storageId args) = Some url → Js.truthy url = true →
  Recipes.recipe_completion w url = Convex.Ok (Convex.Message (Some content)) →
  Js.truthy content = true → Recipes.JSON_parse w content = None →
  line ∈ Js.split Js.LF content →
  Recipes.starts_with_marker (Js.trim line) = true →
  Forall (λ c, Recipes.is_marker_or_space c = true) line →
  ∃ r,
    Convex.fields
      <$> Convex.db_get
            (Recipes.scannedRecipes (Recipes.processRecipeImage w args st).1)
            (Recipes.recipeId args) = Some r
    ∧ Recipes.scanStatus r = Convex.completed
    ∧ [] ∈ Recipes.heuristic_ingredients (Recipes.nonblank_lines content)
    ∧ (length (Recipes.heuristic_ingredients (Recipes.nonblank_lines content)) ≤ 15 →
       [] ∈ Recipes.ingredients r).
Proof.
  intros Hd Hu Hut Hr Hc Hp Hin Hstart Hall.
  destruct (processRecipeImage_heuristic w args st d url content Hd Hu Hut Hr Hc Hp)
    as [name Hst].
  assert (Recipes.is_ingredient_line line = true) as Hm.
  { unfold Recipes.is_ingredient_line. by rewrite Hstart. }
  pose proof (ingredient_line_extracted content line Hin Hm) as Hex.
  rewrite (marker_line_entry line Hall) in Hex.
  set (extracted := Recipes.heuristic_ingredients (Recipes.nonblank_lines content)) in *.
  assert (take 15 extracted ≠ []) as Hne
    by (eapply take_nonempty; [exact Hex | lia]).
  rewrite (bool_decide_eq_false_2 _ Hne) in Hst. cbn [andb] in Hst.
  eexists. split; [exact Hst|].
  cbn [Recipes.ingredients Recipes.scanStatus].
  split; [done|]. split; [done|]. intros Hlen. by rewrite take_ge.
Qed.

Lemma marker_line_empty_ingredient_witness :
  ∃ r,
    Convex.fields
      <$> Convex.db_get
            (Recipes.scannedRecipes
               (Recipes.processRecipeImage (Example.scan_world (Js.lit "---"))
                  Example.scan_job Example.one_scan).1) 0 = Some r
    ∧ Recipes.scanStatus r = Convex.completed
    ∧ [] ∈ Recipes.ingredients r.
Proof.
  destruct (marker_line_empty_ingredient (Example.scan_world (Js.lit "---"))
              Example.scan_job Example.one_scan
              (Convex.Document 0
                 (Recipes.mkScannedRecipe 1 0 [] [] [] None None None None
                    Convex.processing))
              (Js.lit "https://files/0") (Js.lit "---") (Js.lit "---")
              eq_refl eq_refl eq_refl eq_refl eq_refl eq_refl
              ltac:(apply list_elem_of_singleton; reflexivity) eq_refl
              ltac:(repeat constructor))
    as (r & H1 & H2 & _ & H3).
  exists r. split; [assumption|]. split; [assumption|].
  apply H3. vm_compute. lia.
Defined.

(** * The components *)

Section ClientFacts.
Import Js Convex.


Lemma recipes_submitted ops user storage_id getUrl :
  let b := App.recipes (App.run ops App.init) in
  let id := counter (Recipes.scannedRecipes b) in
  let x := Document id
             (Recipes.mkScannedRecipe user storage_id [] [] [] None None None None
                processing) in
  ∃ b',
    Recipes.scanRecipe (Some user) storage_id b = Ok (b', id)
    ∧ db_get (Recipes.scannedRecipes b) id = None
    ∧ Recipes.getScannedRecipe (Some user) getUrl id b'
      = Ok (Some (Recipes.mkReturned id x (getUrl storage_id)))
    ∧ (∃ rest, Recipes.getUserRecipes (Some user) getUrl b'
               = Ok (Recipes.mkReturned id x (getUrl storage_id) :: rest))
    ∧ Recipes.scheduled b' = Recipes.scheduled b ++ [Recipes.mkJob id storage_id].
Proof.
  intros b id x.
  assert (App.reachable (App.run ops App.init)) as Hreach by by exists ops.
  destruct (reachable_consistent _ Hreach) as [_ (Hid & _ & _)].
  destruct (reachable_shaped _ Hreach) as [_ [Hdocs _]].
  fold b in Hid, Hdocs.
  eexists. split; [reflexivity|]. split; [|split; [|split]].
  - destruct (db_get (Recipes.scannedRecipes b) id) as [d|] eqn:Hd; [|done].
    apply Hid in Hd. fold id in Hd. lia.
  - unfold Recipes.getScannedRecipe, db_get. simpl. fold id.
    rewrite lookup_insert_eq. simpl. rewrite decide_False; [done|]. by intros ?.
  - unfold Recipes.getUserRecipes, query_by_user_desc.
    match goal with
    | |- context [by_user_desc Recipes.userId ?t user] =>
        destruct (by_user_desc_head Recipes.userId t user (id, x)) as [rest Hrest]
    end.
    + apply elem_of_by_user_desc. unfold db_get. simpl. fold id.
      by rewrite lookup_insert_eq.
    + intros [id' d'] [Hy _]%elem_of_by_user_desc.
      unfold db_get in Hy. simpl in Hy. fold id in Hy.
      destruct (decide (id' = id)) as [->|Hne].
      * rewrite lookup_insert_eq in Hy. injection Hy as <-.
        unfold newer. simpl. lia.
      * rewrite lookup_insert_ne in Hy by done.
        destruct (Hdocs id' d' Hy) as (Ht & _). apply Hid in Hy. fold id in Hy.
        unfold newer. simpl. lia.
    + rewrite Hrest. simpl. by eexists.
  - done.
Qed.

End ClientFacts.




(** X16: the recipe component after a file was chosen. When the first
    file of the input is an image, a user is signed in and the upload
    yields a storage id, [handleFileChange] on a reachable deployment ends
    with [isUploading] false and the success toast; the panel shows the new
    recipe, processing, with the image, and does not offer Delete for it;
    the recipe is the first row of the collection, under the name
    "Untitled Recipe". *)
Theorem recipe_upload_shown (ops : list App.op) (w : Client.World) (user : nat)
    (files : list Client.File) (file : Client.File) (ui : Client.State)
    (getUrl : nat → option (list N)) (storageId : nat) :
  let b := App.recipes (App.run ops App.init) in
  let ui' := (Client.RecipeScanner.handleFileChange w (Some user) files ui b).1 in
  let b' := (Client.RecipeScanner.handleFileChange w (Some user) files ui b).2 in
  head files = Some file →
  Js.startsWith (Client.type file) (Js.lit "image/") = true →
  Client.upload w (Client.uploadUrl w) file = Convex.Ok storageId →
  ∃ shown rest,
    Client.RecipeScanner.currentRecipe (Some user) getUrl ui' b' = Some shown
    ∧ shown
      = Recipes.mkReturned (Convex.counter (Recipes.scannedRecipes b))
          (Convex.Document (Convex.counter (Recipes.scannedRecipes b))
             (Recipes.mkScannedRecipe user storageId [] [] [] None None None None
                Convex.processing))
          (getUrl storageId)
    ∧ Convex.db_get (Recipes.scannedRecipes b) (Recipes._id shown) = None
    ∧ Client.RecipeScanner.delete_offered (Convex.fields (Recipes.doc shown)) = false
    ∧ Recipes.getUserRecipes (Some user) getUrl b' = Convex.Ok (shown :: rest)
    ∧ head (Client.RecipeScanner.collection (shown :: rest)) = Some shown
    ∧ Client.RecipeScanner.row_name (Convex.fields (Recipes.doc shown))
      = Js.lit "Untitled Recipe"
    ∧ Client.isUploading ui' = false
    ∧ Client.toasts ui' = Client.toasts ui ++ [Client.Uploaded].
Proof.
  intros b ui' b' Hfile Himg Hup.
  unfold ui', b', Client.RecipeScanner.handleFileChange. rewrite Hfile.
  unfold Client.RecipeScanner.handleFileSelect. rewrite Himg. cbn [negb].
  unfold Client.RecipeScanner.submit, Recipes.generateUploadUrl. rewrite Hup.
  destruct (recipes_submitted ops user storageId getUrl)
    as (b2 & Hsub & Hfresh & Hget & [rest Hlist] & Hq).
  fold b in Hsub, Hfresh, Hget, Hlist, Hq. rewrite Hsub. cbn [fst snd].
  eexists _, rest.
  split.
  { unfold Client.RecipeScanner.currentRecipe.
    cbn [Client.currentId Client.setIsUploading Client.show Client.setCurrentId].
    by rewrite Hget. }
  split; [done|]. split; [done|]. split; [done|]. split; [done|]. done.
Qed.

Lemma recipe_upload_shown_witness :
  Client.toasts
    (Client.RecipeScanner.handleFileChange
       Sample.upload_world
       (Some 1) [Client.mkFile (Js.lit "image/png")]
       (Client.mkState false None []) (App.recipes (App.run [] App.init))).1
  = [Client.Uploaded].
Proof.
  destruct (recipe_upload_shown []
              Sample.upload_world
              1 [Client.mkFile (Js.lit "image/png")] (Client.mkFile (Js.lit "image/png"))
              (Client.mkState false None []) Example.file_url 7
              eq_refl eq_refl eq_refl)
    as (shown & rest & _ & _ & _ & _ & _ & _ & _ & _ & H).
  exact H.
Defined.

Section DeleteFromPanel.
Import Js Convex App.

(** No job is queued for an id that was handed out before and has none. *)
Lemma step_no_job o s id :
  id < counter (Recipes.scannedRecipes (recipes s)) →
  (∀ job, job ∈ Recipes.scheduled (recipes s) → Recipes.recipeId job ≠ id) →
  ∀ job, job ∈ Recipes.scheduled (recipes (step o s)) → Recipes.recipeId job ≠ id.
Proof.
  intros Hlt Hno. unfold step, exec.
  destruct o as [auth url|auth sid|w i|auth g id'|auth g|auth url|auth sid|w i
                |auth g id'|auth g|auth id']; simpl; try done.
  - by destruct auth.
  - by destruct (Fridge.analyzeImage auth sid (fridge s)) as [[? ?]|].
  - destruct (Fridge.scheduled (fridge s) !! i); [|done].
    by destruct (Fridge.processImage w _ _).
  - by destruct auth.
  - destruct auth; simpl; [|done].
    intros job [Hjob | ->%list_elem_of_singleton]%elem_of_app; [by apply Hno|].
    simpl. lia.
  - destruct (Recipes.scheduled (recipes s) !! i) as [job|]; [|done].
    pose proof (processRecipeImage_effect w job
                  (Recipes.mkBackend (Recipes.scannedRecipes (recipes s))
                     (delete i (Recipes.scheduled (recipes s))))) as He.
    destruct (Recipes.processRecipeImage w job _) as [b' res]. simpl in *.
    destruct He as [-> | (d0 & r' & _ & _ & _ & _ & ->)]; simpl;
      intros job' Hjob'; apply Hno; by eapply elem_of_delete.
  - destruct (Recipes.deleteRecipe auth id' (recipes s)) as [b|e] eqn:E;
      simpl; [|done].
    unfold Recipes.deleteRecipe in E. destruct auth as [user|]; [|done].
    destruct (db_get (Recipes.scannedRecipes (recipes s)) id') as [d'|] eqn:Hd';
      [|done].
    destruct (decide _); [done|].
    unfold db_delete in E. unfold db_get in Hd'. rewrite Hd' in E.
    by injection E as <-.
Qed.

Lemma run_no_job later s id :
  id < counter (Recipes.scannedRecipes (recipes s)) →
  (∀ job, job ∈ Recipes.scheduled (recipes s) → Recipes.recipeId job ≠ id) →
  ∀ job, job ∈ Recipes.scheduled (recipes (run later s)) → Recipes.recipeId job ≠ id.
Proof.
  revert s. induction later as [|o later IH]; intros s Hlt Hno; [done|].
  simpl. apply IH.
  - pose proof (step_recipes_counter o s). lia.
  - by apply step_no_job.
Qed.

(** What the query of the panel returned is in the table, under the
    selected id, and belongs to the user. *)
Lemma currentRecipe_Some auth getUrl ui b shown :
  Client.RecipeScanner.currentRecipe auth getUrl ui b = Some shown →
  Client.currentId ui = Some (Recipes._id shown)
  ∧ db_get (Recipes.scannedRecipes b) (Recipes._id shown) = Some (Recipes.doc shown)
  ∧ auth = Some (Recipes.userId (fields (Recipes.doc shown))).
Proof.
  unfold Client.RecipeScanner.currentRecipe, Recipes.getScannedRecipe.
  destruct (Client.currentId ui) as [id|]; [|done].
  destruct auth as [user|]; [|done].
  destruct (db_get (Recipes.scannedRecipes b) id) as [d|] eqn:Hd; [|done].
  destruct (decide _) as [|Ho]; [done|]. intros [= <-]. simpl.
  split; [done|]. split; [done|]. f_equal. by destruct (decide (Recipes.userId (fields d) = user)).
Qed.

Lemma currentAnalysis_Some auth getUrl ui b shown :
  Client.FridgeAnalyzer.currentAnalysis auth getUrl ui b = Some shown →
  Client.currentId ui = Some (Fridge._id shown)
  ∧ db_get (Fridge.fridgeAnalyses b) (Fridge._id shown) = Some (Fridge.doc shown)
  ∧ auth = Some (Fridge.userId (fields (Fridge.doc shown))).
Proof.
  unfold Client.FridgeAnalyzer.currentAnalysis, Fridge.getAnalysis.
  destruct (Client.currentId ui) as [id|]; [|done].
  destruct auth as [user|]; [|done].
  destruct (db_get (Fridge.fridgeAnalyses b) id) as [d|] eqn:Hd; [|done].
  destruct (decide _) as [|Ho]; [done|]. intros [= <-]. simpl.
  split; [done|]. split; [done|]. f_equal. by destruct (decide (Fridge.userId (fields d) = user)).
Qed.

End DeleteFromPanel.

(** X17: deleting through the panel. The recipe component offers Delete
    only for a recipe its query returned as completed. Whatever happens in
    the deployment between that query and the click, [handleDeleteRecipe]
    leaves no document under the id, no job for it in the queue (so no
    scan is left to run on a deleted recipe), every other document and the
    queue as they were; either the recipe was still there: it is deleted,
    the success toast is shown and the selection is cleared; or it had
    been deleted in between: the failure toast is shown and nothing
    changes. *)
Theorem delete_from_panel (ops later : list App.op) (user : nat)
    (getUrl : nat → option (list N)) (ui : Client.State) (shown : Recipes.Returned) :
  let s := App.run ops App.init in
  let s1 := App.run later s in
  let ui' := (Client.RecipeScanner.handleDeleteRecipe (Some user)
                (Recipes._id shown) ui (App.recipes s1)).1 in
  let b' := (Client.RecipeScanner.handleDeleteRecipe (Some user)
               (Recipes._id shown) ui (App.recipes s1)).2 in
  Client.RecipeScanner.currentRecipe (Some user) getUrl ui (App.recipes s)
  = Some shown →
  Client.RecipeScanner.delete_offered (Convex.fields (Recipes.doc shown)) = true →
  Convex.db_get (Recipes.scannedRecipes b') (Recipes._id shown) = None
  ∧ (∀ job, job ∈ Recipes.scheduled b' → Recipes.recipeId job ≠ Recipes._id shown)
  ∧ Recipes.scheduled b' = Recipes.scheduled (App.recipes s1)
  ∧ (∀ id, id ≠ Recipes._id shown →
       Convex.db_get (Recipes.scannedRecipes b') id
       = Convex.db_get (Recipes.scannedRecipes (App.recipes s1)) id)
  ∧ ((App.recipe s1 (Recipes._id shown) = Some (Convex.fields (Recipes.doc shown))
      ∧ Client.toasts ui' = Client.toasts ui ++ [Client.Deleted]
      ∧ Client.currentId ui' = None)
     ∨ (App.recipe s1 (Recipes._id shown) = None
        ∧ Client.toasts ui' = Client.toasts ui ++ [Client.DeleteFailed]
        ∧ Client.currentId ui' = Client.currentId ui
        ∧ b' = App.recipes s1)).
Proof.
  intros s s1 ui' b' Hshown Hoff.
  destruct (currentRecipe_Some _ _ _ _ _ Hshown) as (Hcur & Hd & Hu).
  injection Hu as Hu.
  apply bool_decide_eq_true in Hoff.
  set (id := Recipes._id shown) in *. set (d := Recipes.doc shown) in *.
  assert (App.consistent s) as Hs by (apply reachable_consistent; by exists ops).
  assert (App.recipe s id = Some (Convex.fields d)) as Hr
    by (unfold App.recipe; by rewrite Hd).
  assert (id < Convex.counter (Recipes.scannedRecipes (App.recipes s))) as Hlt.
  { destruct Hs as [_ (Hid & _)]. by apply (Hid id d). }
  assert (∀ job, job ∈ Recipes.scheduled (App.recipes s1) →
            Recipes.recipeId job ≠ id) as Hno.
  { apply run_no_job; [done|]. intros job Hjob E.
    destruct Hs as [_ (_ & Hjobs & _)]. destruct (Hjobs job Hjob) as [_ Hp].
    rewrite E in Hp. specialize (Hp d Hd). by rewrite Hp in Hoff. }
  assert (Hterm : Convex.terminal (Recipes.scanStatus (Convex.fields d)) = true)
    by by rewrite Hoff.
  unfold ui', b', Client.RecipeScanner.handleDeleteRecipe, Recipes.deleteRecipe.
  fold id.
  destruct (run_recipe_terminal later s id _ Hs Hr Hterm) as [H1 | H1];
    fold s1 in H1; unfold App.recipe in H1;
    destruct (Convex.db_get (Recipes.scannedRecipes (App.recipes s1)) id)
      as [d1|] eqn:Hd1; try done.
  - injection H1 as H1. rewrite decide_False by (rewrite H1; by intros ?).
    unfold Convex.db_delete. unfold Convex.db_get in Hd1. rewrite Hd1.
    cbn [mbind Convex.result_bind fst snd Recipes.scannedRecipes Recipes.scheduled
         Convex.docs].
    unfold Convex.db_get. cbn [Convex.docs].
    split; [by rewrite lookup_delete_eq|]. split; [done|]. split; [done|].
    split; [intros id' Hne; by rewrite lookup_delete_ne|].
    left. unfold App.recipe, Convex.db_get. rewrite Hd1. simpl.
    rewrite decide_True by done. by rewrite H1.
  - cbn [fst snd]. split; [done|]. split; [done|]. split; [done|].
    split; [done|]. right. unfold App.recipe. by rewrite Hd1.
Qed.

Lemma delete_from_panel_witness :
  Client.toasts
    (Client.RecipeScanner.handleDeleteRecipe (Some 1) 0
       (Client.mkState false (Some 0) [])
       (App.recipes
          (App.run [App.ScanRecipe (Some 1) 0;
                    App.ProcessRecipeImage (Example.scan_world (Js.lit "2 cups flour")) 0]
             App.init))).1
  = [Client.Deleted].
Proof.
  destruct (delete_from_panel
              [App.ScanRecipe (Some 1) 0;
               App.ProcessRecipeImage (Example.scan_world (Js.lit "2 cups flour")) 0]
              [] 1 Example.file_url (Client.mkState false (Some 0) [])
              (Recipes.mkReturned 0
                 (Convex.Document 0
                    (Recipes.mkScannedRecipe 1 0 (Js.lit "2 cups flour")
                       [Js.lit "cups flour"] []
                       (Some (Js.lit "Unknown")) (Some (Js.lit "Unknown"))
                       (Some (Js.lit "Medium")) (Some (Js.lit "Other"))
                       Convex.completed))
                 (Some (Js.lit "https://files/0")))
              eq_refl eq_refl)
    as (_ & _ & _ & _ & [(_ & H & _) | (H & _)]).
  - exact H.
  - discriminate H.
Defined.

(** X18: the notes for an empty result are never shown. In a reachable
    deployment, whatever the panel of the fridge component shows, the
    paragraph "No ingredients were detected in this image." is not
    rendered, and whatever the panel of the recipe component shows, the
    block "No recipe details could be extracted from this image." is not:
    a completed analysis has an ingredient and a completed scan has an
    ingredient or an instruction. *)
Theorem empty_notes_never_shown (ops : list App.op) (auth : option nat)
    (getUrl : nat → option (list N)) (ui : Client.State) :
  let s := App.run ops App.init in
  (∀ shown,
     Client.FridgeAnalyzer.currentAnalysis auth getUrl ui (App.fridge s) = Some shown →
     Client.FridgeAnalyzer.no_ingredients_note (Convex.fields (Fridge.doc shown))
     = false)
  ∧ (∀ shown,
       Client.RecipeScanner.currentRecipe auth getUrl ui (App.recipes s) = Some shown →
       Client.RecipeScanner.no_details_note (Convex.fields (Recipes.doc shown))
       = false).
Proof.
  intros s.
  assert (Shape.shaped s) as [[Hf _] [Hr _]]
    by (apply reachable_shaped; by exists ops).
  split; intros shown Hshown.
  - destruct (currentAnalysis_Some _ _ _ _ _ Hshown) as (_ & Hd & _).
    destruct (Hf _ _ Hd) as (_ & Hshape & _).
    unfold Client.FridgeAnalyzer.no_ingredients_note. unfold Shape.analysis_shape in Hshape.
    destruct (Fridge.analysisStatus (Convex.fields (Fridge.doc shown))); try done.
    rewrite bool_decide_eq_true_2 by done.
    rewrite bool_decide_eq_false_2; [done|].
    by destruct (Fridge.ingredients (Convex.fields (Fridge.doc shown))).
  - destruct (currentRecipe_Some _ _ _ _ _ Hshown) as (_ & Hd & _).
    destruct (Hr _ _ Hd) as (_ & Hshape & _).
    unfold Client.RecipeScanner.no_details_note. unfold Shape.recipe_shape in Hshape.
    destruct (Recipes.scanStatus (Convex.fields (Recipes.doc shown))); try done.
    rewrite bool_decide_eq_true_2 by done. cbn [andb].
    destruct (Recipes.ingredients (Convex.fields (Recipes.doc shown)));
      destruct (Recipes.instructions (Convex.fields (Recipes.doc shown)));
      try done.
    by destruct Hshape.
Qed.

Lemma empty_notes_never_shown_witness :
  Client.RecipeScanner.no_details_note
    (Recipes.mkScannedRecipe 1 0 (Js.lit "2 cups flour") [Js.lit "cups flour"] []
       (Some (Js.lit "Unknown")) (Some (Js.lit "Unknown"))
       (Some (Js.lit "Medium")) (Some (Js.lit "Other")) Convex.completed)
  = false.
Proof.
  exact (proj2 (empty_notes_never_shown
                  [App.ScanRecipe (Some 1) 0;
                   App.ProcessRecipeImage (Example.scan_world (Js.lit "2 cups flour")) 0]
                  (Some 1) Example.file_url (Client.mkState false (Some 0) []))
               (Recipes.mkReturned 0
                  (Convex.Document 0
                     (Recipes.mkScannedRecipe 1 0 (Js.lit "2 cups flour")
                        [Js.lit "cups flour"] []
                        (Some (Js.lit "Unknown")) (Some (Js.lit "Unknown"))
                        (Some (Js.lit "Medium")) (Some (Js.lit "Other"))
                        Convex.completed))
                  (Some (Js.lit "https://files/0")))
               eq_refl).
Defined.

Section History.
Import Js Convex.

Lemma history_rows user getUrl (b : Fridge.Backend) rows :
  Fridge.getUserAnalyses (Some user) getUrl b = Ok rows →
  Client.FridgeAnalyzer.history rows
  = (λ analysis : Id * document Fridge.Analysis,
       Fridge.mkReturned analysis.1 analysis.2
         (getUrl (Fridge.imageId (fields analysis.2))))
    <$> query_by_user_desc Fridge.userId (Fridge.fridgeAnalyses b) user 5
  ∧ length rows
    = Nat.min 20 (length (by_user_desc Fridge.userId (Fridge.fridgeAnalyses b) user)).
Proof.
  unfold Fridge.getUserAnalyses, Client.FridgeAnalyzer.history, slice0,
    query_by_user_desc.
  intros [= <-]. split.
  - by rewrite <- fmap_take, take_take.
  - by rewrite length_fmap, length_take.
Qed.

End History.

(** X19: the history of the fridge component on a reachable deployment.
    Its rows are the five newest analyses of the user, newest first: each
    is a document of the user, and an analysis of the user that has no row
    is no newer than any that has one, of which there are then five. The
    line "Showing 5 most recent analyses" is shown exactly when the user
    has more than five analyses. The first line of a row lists up to three
    ingredients of a completed analysis, followed by "..." when there are
    more; for an analysis that is processing, and also for one that
    failed, it reads "Analysis in progress...". *)
Theorem history_of_analyses (ops : list App.op) (user : nat)
    (getUrl : nat → option (list N)) (rows : list Fridge.Returned) :
  let b := App.fridge (App.run ops App.init) in
  let shown := Client.FridgeAnalyzer.history rows in
  Fridge.getUserAnalyses (Some user) getUrl b = Convex.Ok rows →
  length shown ≤ 5
  ∧ (∀ row, row ∈ shown →
       Fridge.userId (Convex.fields (Fridge.doc row)) = user
       ∧ Convex.db_get (Fridge.fridgeAnalyses b) (Fridge._id row) = Some (Fridge.doc row))
  ∧ StronglySorted
      (λ r1 r2, Convex._creationTime (Fridge.doc r2)
                ≤ Convex._creationTime (Fridge.doc r1)) shown
  ∧ (∀ id d, Convex.db_get (Fridge.fridgeAnalyses b) id = Some d →
       Fridge.userId (Convex.fields d) = user →
       (∃ row, row ∈ shown ∧ Fridge._id row = id ∧ Fridge.doc row = d)
       ∨ (length shown = 5
          ∧ ∀ row, row ∈ shown →
              Convex._creationTime d ≤ Convex._creationTime (Fridge.doc row)))
  ∧ (Client.FridgeAnalyzer.history_note rows = true
     ↔ 5 < length (Convex.by_user_desc Fridge.userId (Fridge.fridgeAnalyses b) user))
  ∧ (∀ row, row ∈ shown →
       let a := Convex.fields (Fridge.doc row) in
       (Fridge.analysisStatus a ≠ Convex.completed →
        Client.FridgeAnalyzer.row_label a = Js.lit "Analysis in progress...")
       ∧ (Fridge.analysisStatus a = Convex.completed →
          Client.FridgeAnalyzer.row_label a
          = Client.join_str (Js.lit ", ") (take 3 (Fridge.ingredients a))
            ++ (if bool_decide (3 < length (Fridge.ingredients a))
                then Js.lit "..." else []))).
Proof.
  intros b shown Hrows.
  destruct (history_rows user getUrl b rows Hrows) as [Hshown Hlen].
  fold shown in Hshown.
  destruct (query_by_user_desc_spec Fridge.userId (Fridge.fridgeAnalyses b) user 5)
    as (Hin & Hle & Hs & _ & Hall).
  assert (Hdoc : ∀ row, row ∈ shown →
            Fridge.userId (Convex.fields (Fridge.doc row)) = user
            ∧ Convex.db_get (Fridge.fridgeAnalyses b) (Fridge._id row)
              = Some (Fridge.doc row)).
  { rewrite Hshown. intros row ([id d] & -> & Hr)%list_elem_of_fmap. simpl.
    destruct (Hin id d Hr). done. }
  split; [by rewrite Hshown, length_fmap|]. split; [exact Hdoc|].
  split; [|split; [|split]].
  - rewrite Hshown. eapply StronglySorted_fmap, Hs. intros x y. apply newer_time.
  - intros id d Hd Ho. rewrite Hshown.
    destruct (Hall id d Hd Ho) as [Hr | [Hl Hn]].
    + left. eexists. split; [by apply list_elem_of_fmap_2|done].
    + right. split; [by rewrite length_fmap|].
      intros r (x & -> & Hr)%list_elem_of_fmap. simpl.
      apply (newer_time x (id, d)). by apply Hn.
  - unfold Client.FridgeAnalyzer.history_note. rewrite bool_decide_eq_true, Hlen.
    lia.
  - intros row Hrow a.
    destruct (Hdoc row Hrow) as [_ Hd].
    assert (Shape.shaped (App.run ops App.init)) as [[Hf _] _]
      by (apply reachable_shaped; by exists ops).
    destruct (Hf _ _ Hd) as (_ & Hshape & _). fold a in Hshape.
    unfold Shape.analysis_shape in Hshape.
    unfold Client.FridgeAnalyzer.row_label, Js.slice0.
    destruct (Fridge.analysisStatus a); split; try done; intros _.
    + destruct Hshape as [-> _]. done.
    + rewrite bool_decide_eq_true_2; [done|].
      destruct (Fridge.ingredients a); [done | simpl; lia].
    + destruct Hshape as [-> _]. done.
Qed.

Lemma history_of_analyses_witness :
  Client.FridgeAnalyzer.row_label
    (Fridge.mkAnalysis 1 0 [] [] Convex.failed)
  = Js.lit "Analysis in progress...".
Proof.
  destruct (history_of_analyses
              [App.AnalyzeImage (Some 1) 0;
               App.ProcessImage (Example.fridge_world (Js.lit " ") (Js.lit "?")) 0]
              1 Example.file_url
              [Fridge.mkReturned 0
                 (Convex.Document 0 (Fridge.mkAnalysis 1 0 [] [] Convex.failed))
                 (Some (Js.lit "https://files/0"))]
              eq_refl)
    as (_ & _ & _ & _ & _ & H).
  destruct (H (Fridge.mkReturned 0
                 (Convex.Document 0 (Fridge.mkAnalysis 1 0 [] [] Convex.failed))
                 (Some (Js.lit "https://files/0")))
              ltac:(apply list_elem_of_singleton; reflexivity)) as [H' _].
  apply H'. discriminate.
Defined.

Section RecipeWord.
Import Js Convex Spec Recipes.

Lemma upper_ascii_match (a b : N) :
  (97 ≤ a ∧ a ≤ 122)%N →
  (upper_ascii a =? upper_ascii b)%N = true
  ↔ (b = a ∨ (97 ≤ a ∧ a ≤ 122 ∧ b = a - 32)%N).
Proof.
  intros Ha. unfold upper_ascii. rewrite N.eqb_eq.
  destruct (N.leb_spec 97 a); [|lia]. destruct (N.leb_spec a 122); [|lia].
  destruct (N.leb_spec 97 b); destruct (N.leb_spec b 122); simpl; lia.
Qed.

Lemma startsWith_i_spec p s :
  Forall (λ k, 97 ≤ k ∧ k ≤ 122)%N p →
  startsWith_i s p = true ↔ ∃ w r, s = w ++ r ∧ same_letters w p.
Proof.
  intros Hp. revert s. induction Hp as [|a p Ha _ IH]; intros s.
  - simpl. split; [|done]. intros _. exists [], s. split; [done|constructor].
  - destruct s as [|b s]; simpl.
    + split; [done|]. intros (w & r & Hs & Hw).
      symmetry in Hs. apply app_eq_nil in Hs as [-> _]. by inversion Hw.
    + rewrite andb_true_iff, (upper_ascii_match a b Ha), IH. split.
      * intros [Hb (w & r & -> & Hw)]. exists (b :: w), r. split; [done|].
        by constructor.
      * intros (w & r & Hs & Hw). inversion Hw as [|c k w' p' Hc Hw']; subst.
        injection Hs as -> ->. split; [done|]. by exists w', r.
Qed.

Lemma recipe_letters : Forall (λ k, 97 ≤ k ∧ k ≤ 122)%N (lit "recipe").
Proof. repeat constructor; by vm_compute. Qed.

Lemma remove_recipe_eq s :
  remove_recipe s
  = if startsWith_i s (lit "recipe") then
      match drop 6 s with
      | c :: rest => if (c =? colon)%N then rest else c :: rest
      | [] => []
      end
    else
      match s with
      | [] => []
      | c :: s' => c :: remove_recipe s'
      end.
Proof. by destruct s. Qed.

Lemma same_letters_length w kw : same_letters w kw → length w = length kw.
Proof. apply Forall2_length. Qed.

End RecipeWord.

(** X20: [nameMatch.replace(/recipe:?/i, '')] of the recipe heuristic
    removes exactly the first occurrence of the word recipe in any letter
    case, wherever it stands in the line, also inside a longer word,
    together with a colon that follows it directly, and nothing else; a
    line without the word is left as it is. *)
Theorem remove_recipe_first (s : Js.jsstring) :
  (∀ a m rest,
     s = a ++ m ++ rest → Shape.recipe_word m rest →
     (∀ a' w' rest', s = a' ++ w' ++ rest' →
        Spec.same_letters w' (Js.lit "recipe") → length a ≤ length a') →
     Recipes.remove_recipe s = a ++ rest)
  ∧ ((∀ a w rest, s = a ++ w ++ rest → ¬ Spec.same_letters w (Js.lit "recipe")) →
     Recipes.remove_recipe s = s).
Proof.
  split.
  - intros a. revert s. induction a as [|x a IH]; intros s m rest Hs Hm Hfirst.
    + simpl in Hs. destruct Hm as (w & Hw & Hm).
      pose proof (same_letters_length w _ Hw) as Hlen.
      change (length (Js.lit "recipe")) with 6 in Hlen.
      rewrite remove_recipe_eq.
      assert (Recipes.startsWith_i s (Js.lit "recipe") = true) as ->.
      { apply (startsWith_i_spec _ _ recipe_letters).
        destruct Hm as [-> | [-> _]]; subst s.
        - exists w, (Js.colon :: rest). split; [by rewrite <- app_assoc|done].
        - by exists w, rest. }
      destruct Hm as [-> | [-> Hc]]; subst s.
      * by rewrite <- app_assoc, drop_app_length' by done.
      * rewrite drop_app_length' by done. destruct rest as [|c rest]; [done|].
        simpl. destruct (N.eqb_spec c Js.colon) as [->|Hne]; [|done].
        by destruct (Hc Js.colon).
    + subst s. rewrite remove_recipe_eq.
      destruct (Recipes.startsWith_i ((x :: a) ++ m ++ rest) (Js.lit "recipe"))
        eqn:Hstart.
      * apply (startsWith_i_spec _ _ recipe_letters) in Hstart as (w & r & Hs & Hw).
        specialize (Hfirst [] w r Hs Hw). simpl in Hfirst. lia.
      * simpl. f_equal. apply (IH _ m rest eq_refl Hm).
        intros a' w' rest' Hs Hw.
        specialize (Hfirst (x :: a') w' rest'). simpl in Hfirst.
        rewrite Hs in Hfirst. specialize (Hfirst eq_refl Hw). lia.
  - induction s as [|c s IH]; intros Hno; [done|].
    rewrite remove_recipe_eq.
    destruct (Recipes.startsWith_i (c :: s) (Js.lit "recipe")) eqn:Hstart.
    + apply (startsWith_i_spec _ _ recipe_letters) in Hstart as (w & r & Hs & Hw).
      by destruct (Hno [] w r Hs).
    + f_equal. apply IH. intros a w rest Hs.
      apply (Hno (c :: a) w rest). by rewrite Hs.
Qed.

Lemma remove_recipe_first_witness :
  Recipes.remove_recipe (Js.lit "My Recipe: pancakes") = Js.lit "My  pancakes".
Proof.
  refine (proj1 (remove_recipe_first (Js.lit "My Recipe: pancakes"))
            (Js.lit "My ") (Js.lit "Recipe:") (Js.lit " pancakes") eq_refl _ _).
  - exists (Js.lit "Recipe"). split; [|by left].
    constructor; [right; repeat split; by vm_compute|].
    repeat (constructor; [by left|]). constructor.
  - intros a' w' rest' Hs Hw.
    assert (Recipes.startsWith_i (w' ++ rest') (Js.lit "recipe") = true) as H.
    { apply (startsWith_i_spec _ _ recipe_letters). by exists w', rest'. }
    assert (w' ++ rest' = drop (length a') (Js.lit "My Recipe: pancakes")) as E
      by (by rewrite Hs, drop_app_length).
    rewrite E in H.
    destruct a' as [|c1 [|c2 [|c3 a']]]; simpl; try lia;
      vm_compute in H; discriminate H.
Defined.

(** * The page script *)

(** Propositional reasoning over equalities of elements and tokens. *)
Ltac logic := intuition (subst; auto; congruence).

Section PageFacts.
Import Js Convex Page.

Lemma classList_remove_spec c d e x t :
  t ∈ classList (classList_remove c d e) x
  ↔ t ∈ classList d x ∧ ¬ (t = c ∧ x = e).
Proof.
  simpl. destruct (decide (x = e)) as [->|Hne].
  - rewrite list_elem_of_filter. logic.
  - logic.
Qed.

Lemma classList_add_spec c d e x t :
  t ∈ classList (classList_add c d e) x
  ↔ t ∈ classList d x ∨ (t = c ∧ x = e).
Proof.
  simpl. destruct (decide (x = e)) as [->|Hne]; [|logic].
  destruct (decide (c ∈ classList d e)) as [Hin|Hin].
  - logic.
  - rewrite elem_of_app, list_elem_of_singleton. logic.
Qed.

Lemma classList_remove_all c l d x t :
  t ∈ classList (foldl (classList_remove c) d l) x
  ↔ t ∈ classList d x ∧ ¬ (t = c ∧ x ∈ l).
Proof.
  revert d. induction l as [|e l IH]; intros d; simpl.
  - rewrite elem_of_nil. logic.
  - rewrite IH, classList_remove_spec, elem_of_cons. logic.
Qed.

Lemma foldl_remove_elements c l d :
  elements (foldl (classList_remove c) d l) = elements d
  ∧ getElementById (foldl (classList_remove c) d l) = getElementById d.
Proof. revert d. induction l as [|e l IH]; intros d; [done|]. simpl. by rewrite !(proj1 (IH _)), !(proj2 (IH _)). Qed.

End PageFacts.

(** X21: [opentab] of the page script. However the classes stood before,
    among the tab links exactly the element whose handler called it is
    marked [active-link] afterwards, and no class other than
    [active-link] and [active-tab] is added or removed anywhere. When the
    id names an element, the call returns and among the tab contents
    exactly that element is marked [active-tab]; when it names none, the
    call throws after the marks were cleared: no tab content is marked
    [active-tab] any more. *)
Theorem opentab_marks (currentTarget : nat) (tabname : Js.jsstring)
    (d : Page.Document) :
  let d' := (Page.opentab currentTarget tabname d).1 in
  (∀ x, x ∈ Page.tabLinks d →
     Js.lit "active-link" ∈ Page.classList d' x ↔ x = currentTarget)
  ∧ Js.lit "active-link" ∈ Page.classList d' currentTarget
  ∧ (∀ x t, t ≠ Js.lit "active-link" → t ≠ Js.lit "active-tab" →
       t ∈ Page.classList d' x ↔ t ∈ Page.classList d x)
  ∧ match Page.getElementById d tabname with
    | Some tab =>
        (Page.opentab currentTarget tabname d).2 = Convex.Ok tt
        ∧ Js.lit "active-tab" ∈ Page.classList d' tab
        ∧ (∀ x, x ∈ Page.tabContents d →
             Js.lit "active-tab" ∈ Page.classList d' x ↔ x = tab)
    | None =>
        (Page.opentab currentTarget tabname d).2 = Convex.Throw Convex.TypeError
        ∧ (∀ x, x ∈ Page.tabContents d →
             Js.lit "active-tab" ∉ Page.classList d' x)
    end.
Proof.
  intros d'. unfold d', Page.opentab.
  set (d1 := foldl (Page.classList_remove (Js.lit "active-link")) d (Page.tabLinks d)).
  set (d2 := foldl (Page.classList_remove (Js.lit "active-tab")) d1 (Page.tabContents d1)).
  set (d3 := Page.classList_add (Js.lit "active-link") d2 currentTarget).
  assert (Hne : Js.lit "active-link" ≠ Js.lit "active-tab") by discriminate.
  assert (Hne' : Js.lit "tab-contents" ≠ Js.lit "active-link") by discriminate.
  assert (Hcontents : ∀ x, x ∈ Page.tabContents d1 ↔ x ∈ Page.tabContents d).
  { intros x. unfold Page.tabContents, Page.getElementsByClassName.
    rewrite !list_elem_of_filter. unfold d1.
    rewrite (proj1 (foldl_remove_elements _ _ _)), classList_remove_all.
    logic. }
  assert (Hid : Page.getElementById d3 = Page.getElementById d).
  { unfold d3, d2, d1. simpl.
    by rewrite !(proj2 (foldl_remove_elements _ _ _)). }
  assert (H3 : ∀ x t, t ∈ Page.classList d3 x
            ↔ (t ∈ Page.classList d x
               ∧ ¬ (t = Js.lit "active-link" ∧ x ∈ Page.tabLinks d)
               ∧ ¬ (t = Js.lit "active-tab" ∧ x ∈ Page.tabContents d))
              ∨ (t = Js.lit "active-link" ∧ x = currentTarget)).
  { intros x t. unfold d3. rewrite classList_add_spec. unfold d2.
    rewrite classList_remove_all, Hcontents. unfold d1.
    rewrite classList_remove_all. logic. }
  rewrite Hid.
  destruct (Page.getElementById d tabname) as [tab|]; cbn [fst snd].
  - assert (H4 : ∀ x t,
              t ∈ Page.classList (Page.classList_add (Js.lit "active-tab") d3 tab) x
              ↔ t ∈ Page.classList d3 x ∨ (t = Js.lit "active-tab" ∧ x = tab))
      by (intros; apply classList_add_spec).
    split; [|split; [|split; [|split; [|split]]]].
    + intros x Hx. rewrite H4, H3. logic.
    + rewrite H4, H3. logic.
    + intros x t Ht1 Ht2. rewrite H4, H3. logic.
    + done.
    + rewrite H4. logic.
    + intros x Hx. rewrite H4, H3. logic.
  - split; [|split; [|split; [|split]]].
    + intros x Hx. rewrite H3. logic.
    + rewrite H3. logic.
    + intros x t Ht1 Ht2. rewrite H3. logic.
    + done.
    + intros x Hx. rewrite H3. logic.
Qed.

Lemma opentab_marks_witness :
  Js.lit "active-tab" ∈ Page.classList (Page.opentab 2 (Js.lit "b") Sample.page).1 4.
Proof.
  pose proof (opentab_marks 2 (Js.lit "b") Sample.page) as H.
  cbv zeta in H. destruct H as (_ & _ & _ & H).
  change (Page.getElementById Sample.page (Js.lit "b")) with (Some 4) in H.
  cbv iota in H. destruct H as (_ & H & _). exact H.
Defined.

